(** * Energy models for a planetary rover: power model, mission simulator
      and scheduling benchmark

    A shallow embedding of

      - [models/rover_config.py]   (class [RoverConfig]),
      - [models/energy_model.py]   (class [EnergyModel]),
      - [sim/simulate_mission.py]  (classes [Task], [MissionSimulator]),
      - [simple_validation.py]     (classes [Task], [SimpleValidator]).

    Numbers.  The program computes with Python floats.  Here a float is an
    exact number: a rational ([Q]) wherever the code only adds, subtracts,
    multiplies, divides and compares, so that those parts run inside Rocq;
    a real ([R]) where the code calls [math.sin], [math.cos] or
    [math.sqrt].  These embeddings do not round.  Where a property is
    decided by the last digit (whether a completed task leaves the reserve
    untouched), the lines concerned are embedded again on binary64 floats,
    in module [Doubles].

    Exceptions.  A Python [raise] is the [Raise] branch of [result].

    Objects.  The simulator's [Task] objects are mutable and shared between
    the caller's list, the sorted list and the simulator's own lists; they
    live in an object store ([heap]) and lists hold references. *)

From Stdlib Require Import ZArith QArith Qminmax Reals Qreals Lra Lqa Lia.
From Stdlib Require Import List String Bool Arith Permutation Sorted.
From Stdlib Require Import DecimalString.
From Stdlib Require PrimFloat.
Import ListNotations.

Set Implicit Arguments.

(** ** Exceptions *)

Inductive exn : Type :=
| ValueError (msg : string)
| KeyError (key : Z)
| ZeroDivisionError.

Inductive result (A : Type) : Type :=
| Ok (a : A)
| Raise (e : exn).

Arguments Ok {A} a.
Arguments Raise {A} e.

Definition bind {A B : Type} (m : result A) (k : A -> result B) : result B :=
  match m with
  | Ok a => k a
  | Raise e => Raise e
  end.

Notation "x <- m ;; k" := (bind m (fun x => k))
  (at level 61, m at next level, right associativity).

(** ** Python's built-ins on rationals *)

Definition Qlt_bool (a b : Q) : bool := negb (Qle_bool b a).

(** [max(a, b)]: the first argument unless the second is strictly larger. *)
Definition pymax (a b : Q) : Q := if Qlt_bool a b then b else a.

(** ** models/rover_config.py *)

(** The class attributes of [RoverConfig]; [TASK_POWER] is the dict, kept as
    an association list in the order the source writes it. *)
Record RoverConfig : Type := {
  GRAVITY_MARS : Q;
  GRAVITY_EARTH : Q;
  MASS : Q;
  WHEEL_RADIUS : Q;
  WHEEL_COUNT : Z;
  BATTERY_CAPACITY : Q;
  MAX_POWER_CONSUMPTION : Q;
  ROLLING_RESISTANCE_COEFF : Q;
  MOTOR_EFFICIENCY : Q;
  DRIVETRAIN_EFFICIENCY : Q;
  NOMINAL_VELOCITY : Q;
  MAX_VELOCITY : Q;
  MIN_VELOCITY : Q;
  TASK_POWER : list (string * Q);
  ENERGY_RESERVE_RATIO : Q;
  CRITICAL_ENERGY_THRESHOLD : Q
}.

(** The values the class is written with. *)
Definition rover_config : RoverConfig := {|
  GRAVITY_MARS := 371 # 100;
  GRAVITY_EARTH := 981 # 100;
  MASS := 899;
  WHEEL_RADIUS := 2667 # 10000;
  WHEEL_COUNT := 6;
  BATTERY_CAPACITY := 4224 # 100;
  MAX_POWER_CONSUMPTION := 125;
  ROLLING_RESISTANCE_COEFF := 15 # 100;
  MOTOR_EFFICIENCY := 85 # 100;
  DRIVETRAIN_EFFICIENCY := 90 # 100;
  NOMINAL_VELOCITY := 42 # 1000;
  MAX_VELOCITY := 45 # 1000;
  MIN_VELOCITY := 1 # 100;
  TASK_POWER :=
    [ ("navigation"%string, 50);
      ("sample_collection"%string, 80);
      ("drilling"%string, 120);
      ("imaging"%string, 30);
      ("spectrometry"%string, 45);
      ("communication"%string, 25);
      ("idle"%string, 10) ];
  ENERGY_RESERVE_RATIO := 20 # 100;
  CRITICAL_ENERGY_THRESHOLD := 10 # 100
|}.

(** [RoverConfig.get_available_energy] *)
Definition get_available_energy (cls : RoverConfig)
    (current_battery_level : Q) : Q :=
  let total_energy := BATTERY_CAPACITY cls * current_battery_level in
  let reserve_energy := BATTERY_CAPACITY cls * ENERGY_RESERVE_RATIO cls in
  pymax 0 (total_energy - reserve_energy).

(** [RoverConfig.is_critical_energy] *)
Definition is_critical_energy (cls : RoverConfig)
    (current_battery_level : Q) : bool :=
  Qle_bool current_battery_level (CRITICAL_ENERGY_THRESHOLD cls).

(** A dict lookup: the value of the first entry with the key. *)
Fixpoint dict_get (d : list (string * Q)) (k : string) : option Q :=
  match d with
  | [] => None
  | (k', v) :: d' => if String.eqb k k' then Some v else dict_get d' k
  end.

(** [k in d] *)
Definition dict_mem (d : list (string * Q)) (k : string) : bool :=
  match dict_get d k with
  | Some _ => true
  | None => false
  end.

(** ** models/energy_model.py *)

Module EnergyModel.

Local Open Scope R_scope.

(** [math.radians] *)
Definition radians (degrees : R) : R := degrees * PI / 180.

(** The [mass] argument defaults to [None], which stands for
    [config.MASS]. *)
Definition mass_or_default (config : RoverConfig) (mass : option R) : R :=
  match mass with
  | None => Q2R (MASS config)
  | Some m => m
  end.

Definition calculate_slope_force (config : RoverConfig)
    (slope_degrees : R) (mass : option R) : R :=
  let mass := mass_or_default config mass in
  let slope_radians := radians slope_degrees in
  mass * Q2R (GRAVITY_MARS config) * sin slope_radians.

Definition calculate_rolling_resistance (config : RoverConfig)
    (mass : option R) (slope_degrees : R) : R :=
  let mass := mass_or_default config mass in
  let slope_radians := radians slope_degrees in
  let normal_force := mass * Q2R (GRAVITY_MARS config) * cos slope_radians in
  Q2R (ROLLING_RESISTANCE_COEFF config) * normal_force.

Definition calculate_roughness_penalty (roughness velocity : R) : R :=
  roughness * velocity * 50.

Definition calculate_power_consumption (config : RoverConfig)
    (slope_degrees velocity roughness : R) (mass : option R) : R :=
  let mass := Some (mass_or_default config mass) in
  let slope_force := calculate_slope_force config slope_degrees mass in
  let rolling_resistance :=
    calculate_rolling_resistance config mass slope_degrees in
  let total_force := Rabs slope_force + rolling_resistance in
  let mechanical_power := total_force * velocity in
  let roughness_penalty := calculate_roughness_penalty roughness velocity in
  let electrical_power :=
    (mechanical_power + roughness_penalty) /
    (Q2R (MOTOR_EFFICIENCY config) * Q2R (DRIVETRAIN_EFFICIENCY config)) in
  electrical_power.

(** The dict [calculate_energy_consumption] returns. *)
Record SegmentEnergy : Type := {
  distance_m : R;
  time_hours : R;
  power_watts : R;
  energy_kwh : R;
  slope_degrees : R;
  velocity_ms : R;
  roughness : R
}.

Definition calculate_energy_consumption (config : RoverConfig)
    (distance slope_degrees velocity roughness : R) (mass : option R)
    : result SegmentEnergy :=
  if Rle_dec velocity 0 then
    Raise (ValueError "Velocity must be positive")
  else
    let time_hours := distance / (velocity * 3600) in
    let power_watts :=
      calculate_power_consumption config slope_degrees velocity roughness
        mass in
    let energy_kwh := power_watts * time_hours / 1000 in
    Ok {| distance_m := distance;
          time_hours := time_hours;
          power_watts := power_watts;
          energy_kwh := energy_kwh;
          slope_degrees := slope_degrees;
          velocity_ms := velocity;
          roughness := roughness |}.

End EnergyModel.

(** [EnergyModel.calculate_task_energy]: rational arithmetic only. *)
Definition calculate_task_energy (config : RoverConfig)
    (task_type : string) (duration_hours : Q) : result Q :=
  if negb (dict_mem (TASK_POWER config) task_type) then
    Raise (ValueError ("Unknown task type: " ++ task_type))
  else
    match dict_get (TASK_POWER config) task_type with
    | Some power_watts => Ok (power_watts * duration_hours / 1000)%Q
    | None => Raise (ValueError ("Unknown task type: " ++ task_type))
    end.

(** [EnergyModel.estimate_mission_energy].  A terrain segment is a dict
    with key ['distance'] and optional keys ['slope_degrees'], ['velocity']
    and ['roughness'] (read with [dict.get] and a default); a task is a dict
    with keys ['type'] and ['duration_hours']. *)
Module MissionEstimate.

Import EnergyModel.
Local Open Scope R_scope.

Record SegmentParams : Type := {
  seg_distance : R;
  seg_slope_degrees : option R;
  seg_velocity : option R;
  seg_roughness : option R
}.

Record TaskParams : Type := {
  tp_type : string;
  tp_duration_hours : Q
}.

(** The dict [estimate_mission_energy] returns. *)
Record MissionEnergy : Type := {
  movement_energy_kwh : R;
  task_energy_kwh : R;
  total_energy_kwh : R;
  total_time_hours : R;
  battery_usage_percent : R
}.

(** [d.get(key, default)] *)
Definition get_or (v : option R) (default : R) : R :=
  match v with
  | Some x => x
  | None => default
  end.

(** The velocity a segment is computed with. *)
Definition segment_velocity (config : RoverConfig) (segment : SegmentParams)
    : R :=
  get_or (seg_velocity segment) (Q2R (NOMINAL_VELOCITY config)).

(** The loop "Calculate movement energy"; the accumulator is
    [(total_movement_energy, total_time)]. *)
Fixpoint movement_loop (config : RoverConfig)
    (terrain_segments : list SegmentParams) (acc : R * R) : result (R * R) :=
  match terrain_segments with
  | [] => Ok acc
  | segment :: rest =>
      res <-
        calculate_energy_consumption config (seg_distance segment)
          (get_or (seg_slope_degrees segment) 0)
          (segment_velocity config segment)
          (get_or (seg_roughness segment) 0) None ;;
      movement_loop config rest
        (fst acc + energy_kwh res, snd acc + time_hours res)
  end.

(** The loop "Calculate task energy"; the accumulator is
    [(total_task_energy, total_time)]. *)
Fixpoint task_loop (config : RoverConfig) (tasks : list TaskParams)
    (acc : R * R) : result (R * R) :=
  match tasks with
  | [] => Ok acc
  | task :: rest =>
      task_energy <-
        calculate_task_energy config (tp_type task)
          (tp_duration_hours task) ;;
      task_loop config rest
        (fst acc + Q2R task_energy, snd acc + Q2R (tp_duration_hours task))
  end.

Definition estimate_mission_energy (config : RoverConfig)
    (terrain_segments : list SegmentParams) (tasks : list TaskParams)
    : result MissionEnergy :=
  movement <- movement_loop config terrain_segments (0, 0) ;;
  task <- task_loop config tasks (0, snd movement) ;;
  let total_movement_energy := fst movement in
  let total_task_energy := fst task in
  let total_time := snd task in
  let total_energy := total_movement_energy + total_task_energy in
  Ok {| movement_energy_kwh := total_movement_energy;
        task_energy_kwh := total_task_energy;
        total_energy_kwh := total_energy;
        total_time_hours := total_time;
        battery_usage_percent :=
          total_energy / Q2R (BATTERY_CAPACITY config) * 100 |}.

End MissionEstimate.

(** ** Python's [sorted] and [list.sort] with a key

    The keys are computed once, in list order; the sort is stable: elements
    with equal keys keep their input order.  [sort_keyed] works on the
    decorated list of (key, element) pairs. *)

Section Sorted.

Variable A : Type.

Fixpoint insert_keyed (x : Q * A) (l : list (Q * A)) : list (Q * A) :=
  match l with
  | [] => [x]
  | y :: l' =>
      if Qle_bool (fst x) (fst y) then x :: y :: l'
      else y :: insert_keyed x l'
  end.

Fixpoint sort_keyed (l : list (Q * A)) : list (Q * A) :=
  match l with
  | [] => []
  | x :: l' => insert_keyed x (sort_keyed l')
  end.

(** [sorted(l, key=key)] for a key without effects. *)
Definition py_sorted (key : A -> Q) (l : list A) : list A :=
  map snd (sort_keyed (map (fun x => (key x, x)) l)).

(** [sorted(l, key=key, reverse=True)]: the list is reversed, sorted, and
    reversed again, which keeps elements with equal keys in input order. *)
Definition py_sorted_reverse (key : A -> Q) (l : list A) : list A :=
  rev (py_sorted key (rev l)).

(** Ascending keys. *)
Definition keys_ascending (l : list (Q * A)) : Prop :=
  StronglySorted (fun x y => fst x <= fst y) l.

(** The elements whose key is [k], in list order. *)
Definition with_key (k : Q) (l : list (Q * A)) : list (Q * A) :=
  filter (fun x => Qeq_bool (fst x) k) l.

End Sorted.

(** ** sim/simulate_mission.py *)

Module SimulateMission.

Local Open Scope Q_scope.

(** class [Task] *)
Record Task : Type := {
  task_id : string;
  task_type : string;
  duration_hours : Q;
  urgency : Q;
  reward : Q;
  location : string;
  completed : bool;
  deferred : bool;
  energy_cost : Q
}.

(** [Task.__init__] *)
Definition Task_init (task_id task_type : string)
    (duration_hours urgency reward : Q) (location : string) : Task :=
  {| task_id := task_id;
     task_type := task_type;
     duration_hours := duration_hours;
     urgency := urgency;
     reward := reward;
     location := location;
     completed := false;
     deferred := false;
     energy_cost := 0 |}.

(** Attribute assignments. *)
Definition set_energy_cost (t : Task) (v : Q) : Task :=
  {| task_id := task_id t; task_type := task_type t;
     duration_hours := duration_hours t; urgency := urgency t;
     reward := reward t; location := location t;
     completed := completed t; deferred := deferred t;
     energy_cost := v |}.

Definition set_completed (t : Task) (v : bool) : Task :=
  {| task_id := task_id t; task_type := task_type t;
     duration_hours := duration_hours t; urgency := urgency t;
     reward := reward t; location := location t;
     completed := v; deferred := deferred t;
     energy_cost := energy_cost t |}.

Definition set_deferred (t : Task) (v : bool) : Task :=
  {| task_id := task_id t; task_type := task_type t;
     duration_hours := duration_hours t; urgency := urgency t;
     reward := reward t; location := location t;
     completed := completed t; deferred := v;
     energy_cost := energy_cost t |}.

(** The object store: a reference is the identity of a [Task] object. *)
Definition ref : Type := nat.
Definition heap : Type := ref -> Task.

Definition heap_set (h : heap) (r : ref) (t : Task) : heap :=
  fun r' => if Nat.eqb r' r then t else h r'.

(** The store whose object [r] is the [r]-th task of [l]. *)
Definition heap_of_list (l : list Task) : heap :=
  fun r => nth r l (Task_init "" "" 0 0 0 "unknown").

(** An entry of [mission_log]. *)
Record LogEntry : Type := {
  log_task_id : string;
  log_task_type : string;
  log_duration_hours : Q;
  energy_consumed_kwh : Q;
  battery_level_after : Q;
  status : string
}.

(** The attributes of a [MissionSimulator] (the logger apart). *)
Record MissionSimulator : Type := {
  config : RoverConfig;
  lambda1 : Q;
  lambda2 : Q;
  lambda3 : Q;
  current_battery_level : Q;
  completed_tasks : list ref;
  deferred_tasks : list ref;
  mission_log : list LogEntry
}.

(** [MissionSimulator.__init__] *)
Definition MissionSimulator_init (config : RoverConfig) : MissionSimulator :=
  {| config := config;
     lambda1 := 1;
     lambda2 := 5 # 10;
     lambda3 := - (2);
     current_battery_level := 1;
     completed_tasks := [];
     deferred_tasks := [];
     mission_log := [] |}.

Definition set_battery (self : MissionSimulator) (b : Q) : MissionSimulator :=
  {| config := config self; lambda1 := lambda1 self; lambda2 := lambda2 self;
     lambda3 := lambda3 self;
     current_battery_level := b;
     completed_tasks := completed_tasks self;
     deferred_tasks := deferred_tasks self;
     mission_log := mission_log self |}.

Definition append_completed (self : MissionSimulator) (r : ref)
    : MissionSimulator :=
  {| config := config self; lambda1 := lambda1 self; lambda2 := lambda2 self;
     lambda3 := lambda3 self;
     current_battery_level := current_battery_level self;
     completed_tasks := completed_tasks self ++ [r];
     deferred_tasks := deferred_tasks self;
     mission_log := mission_log self |}.

Definition append_deferred (self : MissionSimulator) (r : ref)
    : MissionSimulator :=
  {| config := config self; lambda1 := lambda1 self; lambda2 := lambda2 self;
     lambda3 := lambda3 self;
     current_battery_level := current_battery_level self;
     completed_tasks := completed_tasks self;
     deferred_tasks := deferred_tasks self ++ [r];
     mission_log := mission_log self |}.

Definition append_log (self : MissionSimulator) (e : LogEntry)
    : MissionSimulator :=
  {| config := config self; lambda1 := lambda1 self; lambda2 := lambda2 self;
     lambda3 := lambda3 self;
     current_battery_level := current_battery_level self;
     completed_tasks := completed_tasks self;
     deferred_tasks := deferred_tasks self;
     mission_log := mission_log self ++ [e] |}.

(** The first lines of [run_mission_simulation]: "Reset mission state". *)
Definition reset_mission_state (self : MissionSimulator) : MissionSimulator :=
  {| config := config self; lambda1 := lambda1 self; lambda2 := lambda2 self;
     lambda3 := lambda3 self;
     current_battery_level := 1;
     completed_tasks := [];
     deferred_tasks := [];
     mission_log := [] |}.

(** [calculate_task_priority]: stores the energy cost on the task and
    returns the cost; raises when the energy model does. *)
Definition calculate_task_priority (self : MissionSimulator) (h : heap)
    (task : ref) : result (Q * heap) :=
  energy_cost <-
    calculate_task_energy (config self) (task_type (h task))
      (duration_hours (h task)) ;;
  let h := heap_set h task (set_energy_cost (h task) energy_cost) in
  let cost :=
    lambda1 self * energy_cost +
    lambda2 self * (1 / pymax (urgency (h task)) (1 # 10)) +
    lambda3 self * reward (h task) in
  Ok (cost, h).

(** The keys of [sorted(tasks, key=self.calculate_task_priority)], computed
    in list order, each call writing its task's [energy_cost]. *)
Fixpoint priority_keys (self : MissionSimulator) (h : heap)
    (tasks : list ref) : result (list (Q * ref) * heap) :=
  match tasks with
  | [] => Ok ([], h)
  | task :: tasks' =>
      kh <- calculate_task_priority self h task ;;
      rest <- priority_keys self (snd kh) tasks' ;;
      Ok ((fst kh, task) :: fst rest, snd rest)
  end.

(** [prioritize_tasks] *)
Definition prioritize_tasks (self : MissionSimulator) (h : heap)
    (tasks : list ref) : result (list ref * heap) :=
  keyed <- priority_keys self h tasks ;;
  Ok (map snd (sort_keyed (fst keyed)), snd keyed).

(** [can_execute_task], in exact arithmetic; [Doubles.can_execute_task] is
    the same test on doubles. *)
Definition can_execute_task (self : MissionSimulator) (h : heap)
    (task : ref) : bool :=
  if is_critical_energy (config self) (current_battery_level self) then false
  else
    let available_energy :=
      get_available_energy (config self) (current_battery_level self) in
    Qle_bool (energy_cost (h task)) available_energy.

(** [execute_task], in exact arithmetic; [Doubles.execute_task] is the same
    deduction on doubles. *)
Definition execute_task (self : MissionSimulator) (h : heap) (task : ref)
    : bool * MissionSimulator * heap :=
  if negb (can_execute_task self h task) then
    let h := heap_set h task (set_deferred (h task) true) in
    let self := append_deferred self task in
    (false, self, h)
  else
    let energy_consumed := energy_cost (h task) in
    let energy_fraction := energy_consumed / BATTERY_CAPACITY (config self) in
    let self :=
      set_battery self (current_battery_level self - energy_fraction) in
    let h := heap_set h task (set_completed (h task) true) in
    let self := append_completed self task in
    let log_entry :=
      {| log_task_id := task_id (h task);
         log_task_type := task_type (h task);
         log_duration_hours := duration_hours (h task);
         energy_consumed_kwh := energy_consumed;
         battery_level_after := current_battery_level self;
         status := "completed" |} in
    let self := append_log self log_entry in
    (true, self, h).

(** The bulk deferral inside the loop of [run_mission_simulation]:
    [remaining_tasks] is built first, then every task of it is marked. *)
Definition remaining_tasks (h : heap) (prioritized_tasks : list ref)
    : list ref :=
  filter (fun t => negb (completed (h t)) && negb (deferred (h t)))
    prioritized_tasks.

Fixpoint defer_all (remaining : list ref) (self : MissionSimulator)
    (h : heap) : MissionSimulator * heap :=
  match remaining with
  | [] => (self, h)
  | remaining_task :: remaining' =>
      let h := heap_set h remaining_task
                 (set_deferred (h remaining_task) true) in
      let self := append_deferred self remaining_task in
      defer_all remaining' self h
  end.

(** The loop "Execute tasks in priority order" of [run_mission_simulation]:
    [todo] is what the [for] has still to visit, [prioritized_tasks] the whole
    list (the bulk deferral filters it). *)
Fixpoint execute_in_priority_order (prioritized_tasks todo : list ref)
    (self : MissionSimulator) (h : heap) : MissionSimulator * heap :=
  match todo with
  | [] => (self, h)
  | task :: todo' =>
      if is_critical_energy (config self) (current_battery_level self) then
        defer_all (remaining_tasks h prioritized_tasks) self h
      else
        let '(_, self, h) := execute_task self h task in
        execute_in_priority_order prioritized_tasks todo' self h
  end.

(** A row of the terrain table: columns [distance], [slope_deg],
    [roughness]. *)
Record TerrainRow : Type := {
  distance : Q;
  slope_deg : Q;
  roughness : Q
}.

(** What the simulator reads from the dict a segment computation returns. *)
Record SegmentResult : Type := {
  energy_kwh : Q;
  distance_m : Q;
  time_hours : Q
}.

(** The dict [simulate_terrain_traversal] returns. *)
Record TraversalSummary : Type := {
  total_distance_m : Q;
  total_time_hours : Q;
  total_energy_kwh : Q;
  traversal_battery_level_after : Q
}.

(** [mission_results['mission_summary']] *)
Record MissionSummary : Type := {
  total_tasks : nat;
  n_completed_tasks : nat;
  n_deferred_tasks : nat;
  completion_rate : Q;
  final_battery_level : Q;
  total_energy_consumed_kwh : Q;
  task_energy_kwh : Q
}.

(** An element of [mission_results['completed_tasks']] and of
    [mission_results['deferred_tasks']]. *)
Record TaskReport : Type := {
  report_task_id : string;
  report_type : string;
  report_energy_kwh : Q
}.

Record MissionResults : Type := {
  mission_summary : MissionSummary;
  completed_report : list TaskReport;
  deferred_report : list TaskReport;
  traversal_summary : option TraversalSummary;
  results_mission_log : list LogEntry
}.

Definition task_report (h : heap) (t : ref) : TaskReport :=
  {| report_task_id := task_id (h t);
     report_type := task_type (h t);
     report_energy_kwh := energy_cost (h t) |}.

Section Traversal.

(** [self.energy_model.calculate_energy_consumption(distance, slope_degrees,
    velocity, roughness)] as the simulator receives it: floats in, a dict of
    floats or an exception out.  The energy model is an object handed to the
    simulator; its formula is [EnergyModel.calculate_energy_consumption]. *)
Variable energy_model_segment : Q -> Q -> Q -> Q -> result SegmentResult.

(** The loop of [simulate_terrain_traversal] over the rows, with its three
    running totals (energy, distance, time). *)
Fixpoint traverse_rows (velocity : Q) (rows : list TerrainRow)
    (totals : Q * Q * Q) : result (Q * Q * Q) :=
  match rows with
  | [] => Ok totals
  | segment :: rows' =>
      let '(total_energy, total_distance, total_time) := totals in
      res <-
        energy_model_segment (distance segment) (slope_deg segment)
          velocity (roughness segment) ;;
      traverse_rows velocity rows'
        (total_energy + energy_kwh res,
         total_distance + distance_m res,
         total_time + time_hours res)
  end.

(** [simulate_terrain_traversal] *)
Definition simulate_terrain_traversal (self : MissionSimulator)
    (terrain_data : list TerrainRow) (velocity : option Q)
    : result (TraversalSummary * MissionSimulator) :=
  let velocity :=
    match velocity with
    | None => NOMINAL_VELOCITY (config self)
    | Some v => v
    end in
  totals <- traverse_rows velocity terrain_data (0, 0, 0) ;;
  let '(total_energy, total_distance, total_time) := totals in
  let energy_fraction := total_energy / BATTERY_CAPACITY (config self) in
  let self :=
    set_battery self (current_battery_level self - energy_fraction) in
  Ok ({| total_distance_m := total_distance;
         total_time_hours := total_time;
         total_energy_kwh := total_energy;
         traversal_battery_level_after := current_battery_level self |},
      self).

(** The state in which the loop over the prioritized tasks starts: mission
    state reset, traversal deducted (when terrain is given), tasks
    prioritized. *)
Definition prepare_mission (self : MissionSimulator) (h : heap)
    (tasks : list ref) (terrain : option (list TerrainRow))
    (velocity : option Q)
    : result (option TraversalSummary * list ref * MissionSimulator * heap) :=
  let self := reset_mission_state self in
  ts <-
    match terrain with
    | Some terrain_data =>
        r <- simulate_terrain_traversal self terrain_data velocity ;;
        Ok (Some (fst r), snd r)
    | None => Ok (None, self)
    end ;;
  let '(traversal_summary, self) := ts in
  ph <- prioritize_tasks self h tasks ;;
  Ok (traversal_summary, fst ph, self, snd ph).

(** "Calculate mission statistics" and the dict of results. *)
Definition mission_statistics (self : MissionSimulator) (h : heap)
    (tasks : list ref) (traversal_summary : option TraversalSummary)
    : MissionResults :=
  let total_completed := List.length (completed_tasks self) in
  let total_deferred := List.length (deferred_tasks self) in
  let completion_rate :=
    match tasks with
    | [] => 0
    | _ :: _ => inject_Z (Z.of_nat total_completed) /
                inject_Z (Z.of_nat (List.length tasks))
    end in
  let total_task_energy :=
    fold_left (fun acc t => acc + energy_cost (h t)) (completed_tasks self)
      0 in
  let total_energy_consumed :=
    (1 - current_battery_level self) * BATTERY_CAPACITY (config self) in
  {| mission_summary :=
       {| total_tasks := List.length tasks;
          n_completed_tasks := total_completed;
          n_deferred_tasks := total_deferred;
          completion_rate := completion_rate;
          final_battery_level := current_battery_level self;
          total_energy_consumed_kwh := total_energy_consumed;
          task_energy_kwh := total_task_energy |};
     completed_report := map (task_report h) (completed_tasks self);
     deferred_report := map (task_report h) (deferred_tasks self);
     traversal_summary := traversal_summary;
     results_mission_log := mission_log self |}.

(** [run_mission_simulation].  [terrain] is the table of
    [terrain_csv_path], already loaded ([None] when no path is given). *)
Definition run_mission_simulation (self : MissionSimulator) (h : heap)
    (tasks : list ref) (terrain : option (list TerrainRow))
    (velocity : option Q)
    : result (MissionResults * MissionSimulator * heap) :=
  start <- prepare_mission self h tasks terrain velocity ;;
  let '(traversal_summary, prioritized_tasks, self, h) := start in
  let '(self, h) :=
    execute_in_priority_order prioritized_tasks prioritized_tasks self h in
  Ok (mission_statistics self h tasks traversal_summary, self, h).

End Traversal.

(** [create_sample_tasks] *)
Definition create_sample_tasks : list Task :=
  [ Task_init "T001" "sample_collection" 2 8 10 "Crater A";
    Task_init "T002" "imaging" (5 # 10) 6 5 "Rock Formation B";
    Task_init "T003" "drilling" 3 9 15 "Mineral Deposit C";
    Task_init "T004" "spectrometry" 1 7 8 "Soil Sample D";
    Task_init "T005" "navigation" (25 # 100) 5 3 "Waypoint E";
    Task_init "T006" "communication" (5 # 10) 4 2 "Earth Contact";
    Task_init "T007" "sample_collection" (15 # 10) (85 # 10) 12
      "Unusual Rock F";
    Task_init "T008" "imaging" (75 # 100) (65 # 10) 6 "Panoramic View G" ].

End SimulateMission.

(** ** The battery arithmetic on doubles

    A Python float is an IEEE 754 binary64 number: a literal is the nearest
    double and every operation rounds to nearest.  The lines that decide
    whether a task runs and what it leaves in the battery
    ([get_available_energy], [is_critical_energy], [calculate_task_energy],
    [calculate_task_priority], [can_execute_task], [execute_task]) are
    embedded here a second time on Rocq's binary64 floats, which compute as
    the program does.  A task object is passed and returned as a value. *)

Module Doubles.

Import PrimFloat.
Local Open Scope float_scope.
Local Set Warnings "-inexact-float".

(** [max(a, b)] *)
Definition pymax (a b : float) : float := if a <? b then b else a.

(** The attributes of [RoverConfig] these lines read. *)
Record RoverConfig : Type := {
  BATTERY_CAPACITY : float;
  TASK_POWER : list (string * float);
  ENERGY_RESERVE_RATIO : float;
  CRITICAL_ENERGY_THRESHOLD : float
}.

Definition rover_config : RoverConfig := {|
  BATTERY_CAPACITY := 42.24;
  TASK_POWER :=
    [ ("navigation"%string, 50.0);
      ("sample_collection"%string, 80.0);
      ("drilling"%string, 120.0);
      ("imaging"%string, 30.0);
      ("spectrometry"%string, 45.0);
      ("communication"%string, 25.0);
      ("idle"%string, 10.0) ];
  ENERGY_RESERVE_RATIO := 0.20;
  CRITICAL_ENERGY_THRESHOLD := 0.10
|}.

(** [RoverConfig.get_available_energy] *)
Definition get_available_energy (cls : RoverConfig)
    (current_battery_level : float) : float :=
  let total_energy := BATTERY_CAPACITY cls * current_battery_level in
  let reserve_energy := BATTERY_CAPACITY cls * ENERGY_RESERVE_RATIO cls in
  pymax 0 (total_energy - reserve_energy).

(** [RoverConfig.is_critical_energy] *)
Definition is_critical_energy (cls : RoverConfig)
    (current_battery_level : float) : bool :=
  current_battery_level <=? CRITICAL_ENERGY_THRESHOLD cls.

Fixpoint dict_get (d : list (string * float)) (k : string) : option float :=
  match d with
  | [] => None
  | (k', v) :: d' => if String.eqb k k' then Some v else dict_get d' k
  end.

(** [EnergyModel.calculate_task_energy] *)
Definition calculate_task_energy (config : RoverConfig)
    (task_type : string) (duration_hours : float) : result float :=
  match dict_get (TASK_POWER config) task_type with
  | None => Raise (ValueError ("Unknown task type: " ++ task_type))
  | Some power_watts => Ok (power_watts * duration_hours / 1000)
  end.

(** class [Task] *)
Record Task : Type := {
  task_id : string;
  task_type : string;
  duration_hours : float;
  urgency : float;
  reward : float;
  location : string;
  completed : bool;
  deferred : bool;
  energy_cost : float
}.

(** [Task.__init__] *)
Definition Task_init (task_id task_type : string)
    (duration_hours urgency reward : float) (location : string) : Task :=
  {| task_id := task_id;
     task_type := task_type;
     duration_hours := duration_hours;
     urgency := urgency;
     reward := reward;
     location := location;
     completed := false;
     deferred := false;
     energy_cost := 0.0 |}.

(** An entry of [mission_log]. *)
Record LogEntry : Type := {
  log_task_id : string;
  log_task_type : string;
  log_duration_hours : float;
  energy_consumed_kwh : float;
  battery_level_after : float;
  status : string
}.

(** The attributes of a [MissionSimulator] (the logger apart). *)
Record MissionSimulator : Type := {
  config : RoverConfig;
  lambda1 : float;
  lambda2 : float;
  lambda3 : float;
  current_battery_level : float;
  completed_tasks : list Task;
  deferred_tasks : list Task;
  mission_log : list LogEntry
}.

(** [MissionSimulator.__init__] *)
Definition MissionSimulator_init (config : RoverConfig) : MissionSimulator :=
  {| config := config;
     lambda1 := 1.0;
     lambda2 := 0.5;
     lambda3 := -2.0;
     current_battery_level := 1.0;
     completed_tasks := [];
     deferred_tasks := [];
     mission_log := [] |}.

(** [calculate_task_priority] *)
Definition calculate_task_priority (self : MissionSimulator) (task : Task)
    : result (float * Task) :=
  energy_cost <-
    calculate_task_energy (config self) (task_type task)
      (duration_hours task) ;;
  let task :=
    {| task_id := task_id task; task_type := task_type task;
       duration_hours := duration_hours task; urgency := urgency task;
       reward := reward task; location := location task;
       completed := completed task; deferred := deferred task;
       energy_cost := energy_cost |} in
  let cost :=
    lambda1 self * energy_cost +
    lambda2 self * (1.0 / pymax (urgency task) 0.1) +
    lambda3 self * reward task in
  Ok (cost, task).

(** [can_execute_task] *)
Definition can_execute_task (self : MissionSimulator) (task : Task) : bool :=
  if is_critical_energy (config self) (current_battery_level self) then false
  else
    let available_energy :=
      get_available_energy (config self) (current_battery_level self) in
    energy_cost task <=? available_energy.

(** [execute_task] *)
Definition execute_task (self : MissionSimulator) (task : Task)
    : bool * MissionSimulator * Task :=
  if negb (can_execute_task self task) then
    let task :=
      {| task_id := task_id task; task_type := task_type task;
         duration_hours := duration_hours task; urgency := urgency task;
         reward := reward task; location := location task;
         completed := completed task; deferred := true;
         energy_cost := energy_cost task |} in
    let self :=
      {| config := config self; lambda1 := lambda1 self;
         lambda2 := lambda2 self; lambda3 := lambda3 self;
         current_battery_level := current_battery_level self;
         completed_tasks := completed_tasks self;
         deferred_tasks := deferred_tasks self ++ [task];
         mission_log := mission_log self |} in
    (false, self, task)
  else
    let energy_consumed := energy_cost task in
    let energy_fraction := energy_consumed / BATTERY_CAPACITY (config self) in
    let level := current_battery_level self - energy_fraction in
    let task :=
      {| task_id := task_id task; task_type := task_type task;
         duration_hours := duration_hours task; urgency := urgency task;
         reward := reward task; location := location task;
         completed := true; deferred := deferred task;
         energy_cost := energy_cost task |} in
    let log_entry :=
      {| log_task_id := task_id task;
         log_task_type := task_type task;
         log_duration_hours := duration_hours task;
         energy_consumed_kwh := energy_consumed;
         battery_level_after := level;
         status := "completed" |} in
    let self :=
      {| config := config self; lambda1 := lambda1 self;
         lambda2 := lambda2 self; lambda3 := lambda3 self;
         current_battery_level := level;
         completed_tasks := completed_tasks self ++ [task];
         deferred_tasks := deferred_tasks self;
         mission_log := mission_log self ++ [log_entry] |} in
    (true, self, task).

End Doubles.

(** ** simple_validation.py *)

Module SimpleValidation.

Local Open Scope Q_scope.

(** dataclass [Task] *)
Record Task : Type := {
  id : string;
  type_index : Z;
  duration : Q;
  urgency : Q;
  reward : Q;
  power : Q;
  energy : Q
}.

(** The attributes of a [SimpleValidator]; [power_map] is the dict. *)
Record SimpleValidator : Type := {
  num_trials : nat;
  power_map : list (Z * Q);
  battery_capacity : Q;
  terrain_energy : Q;
  reserve_ratio : Q
}.

(** [SimpleValidator.__init__] *)
Definition SimpleValidator_init (num_trials : nat) : SimpleValidator :=
  {| num_trials := num_trials;
     power_map :=
       [(1%Z, 50); (2%Z, 80); (3%Z, 120); (4%Z, 30); (5%Z, 45); (6%Z, 25)];
     battery_capacity := 4224 # 100;
     terrain_energy := 61 # 1000;
     reserve_ratio := 20 # 100 |}.

Fixpoint power_map_get (d : list (Z * Q)) (k : Z) : result Q :=
  match d with
  | [] => Raise (KeyError k)
  | (k', v) :: d' => if Z.eqb k k' then Ok v else power_map_get d' k
  end.

(** The usable energy both [generate_random_scenario] and
    [simulate_task_execution] compute in their first lines. *)
Definition usable_energy (self : SimpleValidator) (energy_level : Q) : Q :=
  let total_energy := battery_capacity self * energy_level in
  let available_energy := total_energy - terrain_energy self in
  let reserve_energy := available_energy * reserve_ratio self in
  pymax 0 (available_energy - reserve_energy).

(** The values the [random] module hands to one call of
    [generate_random_scenario]: [random.random()] is a float of [0, 1),
    [random.randint(a, b)] an integer of [a .. b]. *)
Record TaskDraw : Type := {
  draw_type_index : Z;          (* random.randint(1, 6) *)
  draw_duration : Q;            (* random.random() *)
  draw_urgency : Q;             (* random.random() *)
  draw_reward : Q               (* random.random() *)
}.

Record ScenarioDraws : Type := {
  draw_energy_level : Q;        (* random.random() *)
  draw_tasks : list TaskDraw    (* random.randint(12, 25) of them *)
}.

Definition unit_interval (x : Q) : Prop := 0 <= x /\ x < 1.

Definition task_draw_ok (d : TaskDraw) : Prop :=
  (1 <= draw_type_index d <= 6)%Z /\
  unit_interval (draw_duration d) /\
  unit_interval (draw_urgency d) /\
  unit_interval (draw_reward d).

Definition draws_ok (d : ScenarioDraws) : Prop :=
  unit_interval (draw_energy_level d) /\
  (12 <= List.length (draw_tasks d) <= 25)%nat /\
  Forall task_draw_ok (draw_tasks d).

Record Scenario : Type := {
  energy_level : Q;
  tasks : list Task
}.

(** [f"{n:03d}"] *)
Definition format_03d (n : nat) : string :=
  let s := NilEmpty.string_of_uint (Nat.to_uint n) in
  match String.length s with
  | 1%nat => ("00" ++ s)%string
  | 2%nat => ("0" ++ s)%string
  | _ => s
  end.

(** The loop of [generate_random_scenario] that builds the tasks: [i] is
    the loop index, the accumulator is [(tasks, total_task_energy)]. *)
Fixpoint synthesize_tasks (self : SimpleValidator) (i : nat)
    (draws : list TaskDraw) (acc : list Task * Q) : result (list Task * Q) :=
  match draws with
  | [] => Ok acc
  | d :: draws' =>
      let '(tasks, total_task_energy) := acc in
      let type_index := draw_type_index d in
      let duration := 1 + draw_duration d * 6 in
      let urgency := 1 + draw_urgency d * 9 in
      let reward := 10 + draw_reward d * 90 in
      power <- power_map_get (power_map self) type_index ;;
      let energy := power * duration / 1000 in
      let total_task_energy := total_task_energy + energy in
      let task :=
        {| id := ("T" ++ format_03d (i + 1))%string;
           type_index := type_index;
           duration := duration;
           urgency := urgency;
           reward := reward;
           power := power;
           energy := energy |} in
      synthesize_tasks self (S i) draws' (tasks ++ [task], total_task_energy)
  end.

(** [task.energy *= scale_factor; task.duration *= scale_factor] *)
Definition scale_task (scale_factor : Q) (task : Task) : Task :=
  {| id := id task;
     type_index := type_index task;
     duration := duration task * scale_factor;
     urgency := urgency task;
     reward := reward task;
     power := power task;
     energy := energy task * scale_factor |}.

(** [generate_random_scenario] *)
Definition generate_random_scenario (self : SimpleValidator)
    (draws : ScenarioDraws) : result Scenario :=
  let energy_level := (5 # 100) + draw_energy_level draws * (15 # 100) in
  let usable_energy := usable_energy self energy_level in
  built <- synthesize_tasks self 0 (draw_tasks draws) ([], 0) ;;
  let '(tasks, total_task_energy) := built in
  let tasks :=
    if Qle_bool total_task_energy (usable_energy * 2) then
      let scale_factor :=
        (usable_energy * 3) / pymax total_task_energy (1 # 10) in
      map (scale_task scale_factor) tasks
    else tasks in
  Ok {| energy_level := energy_level; tasks := tasks |}.

(** [sum(t.energy for t in tasks)] *)
Definition total_task_energy (tasks : list Task) : Q :=
  fold_left (fun acc t => acc + energy t) tasks 0.

(** [fifo_scheduler] *)
Definition fifo_scheduler (tasks : list Task) : list Task := tasks.

(** [energy_greedy_scheduler] *)
Definition energy_greedy_scheduler (tasks : list Task) : list Task :=
  py_sorted energy tasks.

(** The key of [our_prioritization_scheduler]: the [priority] of a task. *)
Definition priority (task : Task) : Q :=
  let energy_cost := 1 * energy task in
  let urgency_factor := (5 # 10) * (1 / pymax (urgency task) (1 # 10)) in
  let reward_factor := - (2) * reward task in
  let energy_efficiency := reward task / pymax (energy task) (1 # 1000) in
  let efficiency_bonus := - (5 # 10) * energy_efficiency in
  let time_sensitivity_bonus :=
    if Qlt_bool 8 (urgency task) then - (1)
    else if Qlt_bool (urgency task) 3 then 5 # 10
    else 0 in
  energy_cost + urgency_factor + reward_factor + efficiency_bonus +
  time_sensitivity_bonus.

(** [our_prioritization_scheduler]: the list of (priority, task) pairs,
    sorted on the first component, then the tasks alone. *)
Definition our_prioritization_scheduler (tasks : list Task) : list Task :=
  let priorities := map (fun task => (priority task, task)) tasks in
  map snd (sort_keyed priorities).

(** The dict [simulate_task_execution] returns. *)
Record Execution : Type := {
  completed_tasks : list Task;
  total_energy : Q;
  total_reward : Q
}.

(** The loop of [simulate_task_execution]; the state is
    [(completed_tasks, usable_energy, energy_used, total_reward)]. *)
Fixpoint execute_loop (ordered_tasks : list Task)
    (st : list Task * Q * Q * Q) : list Task * Q * Q * Q :=
  match ordered_tasks with
  | [] => st
  | task :: rest =>
      let '(completed_tasks, usable_energy, energy_used, total_reward) :=
        st in
      if Qle_bool (energy task) usable_energy then
        execute_loop rest
          (completed_tasks ++ [task], usable_energy - energy task,
           energy_used + energy task, total_reward + reward task)
      else execute_loop rest st
  end.

(** [simulate_task_execution] *)
Definition simulate_task_execution (self : SimpleValidator)
    (ordered_tasks : list Task) (energy_level : Q) : Execution :=
  let usable_energy := usable_energy self energy_level in
  let '(completed_tasks, _, energy_used, total_reward) :=
    execute_loop ordered_tasks ([], usable_energy, terrain_energy self, 0) in
  {| completed_tasks := completed_tasks;
     total_energy := energy_used;
     total_reward := total_reward |}.

(** [urgency_first_scheduler] *)
Definition urgency_first_scheduler (tasks : list Task) : list Task :=
  py_sorted_reverse urgency tasks.

(** The key of [wspt_scheduler]. *)
Definition wspt_ratio (t : Task) : Q :=
  reward t / pymax (duration t) (1 # 100).

(** [wspt_scheduler] *)
Definition wspt_scheduler (tasks : list Task) : list Task :=
  py_sorted_reverse wspt_ratio tasks.

(** The dict [run_single_algorithm_test] returns. *)
Record TestResult : Type := {
  test_completion_rate : Q;
  test_total_reward : Q;
  test_energy_used : Q;
  test_efficiency : Q
}.

(** [run_single_algorithm_test]; the division by [len(scenario["tasks"])]
    raises on an empty task list. *)
Definition run_single_algorithm_test (self : SimpleValidator)
    (algorithm_func : list Task -> list Task) (scenario : Scenario)
    : result TestResult :=
  let ordered_tasks := algorithm_func (tasks scenario) in
  let execution_result :=
    simulate_task_execution self ordered_tasks (energy_level scenario) in
  if Nat.eqb (List.length (tasks scenario)) 0 then Raise ZeroDivisionError
  else
    let completion_rate :=
      inject_Z (Z.of_nat (List.length (completed_tasks execution_result))) /
      inject_Z (Z.of_nat (List.length (tasks scenario))) * 100 in
    let efficiency :=
      total_reward execution_result /
      pymax (total_energy execution_result) (1 # 1000) in
    Ok {| test_completion_rate := completion_rate;
          test_total_reward := total_reward execution_result;
          test_energy_used := total_energy execution_result;
          test_efficiency := efficiency |}.

(** ** Effect size ([math.sqrt]: reals) *)

Local Open Scope R_scope.

Definition Rsum (l : list R) : R := fold_right Rplus 0 l.

(** [statistics.mean] *)
Definition mean (data : list R) : R := Rsum data / INR (List.length data).

(** [statistics.variance]: the sample variance. *)
Definition variance (data : list R) : R :=
  let m := mean data in
  Rsum (map (fun x => (x - m) * (x - m)) data) /
  (INR (List.length data) - 1).

(** The variance [calculate_cohens_d] uses for a group. *)
Definition group_variance (group : list R) : R :=
  if Nat.eqb (List.length group) 1 then 0 else variance group.

(** [calculate_cohens_d] *)
Definition calculate_cohens_d (group1 group2 : list R) : R :=
  if Nat.eqb (List.length group1) 0 || Nat.eqb (List.length group2) 0 then 0
  else
    let mean1 := mean group1 in
    let mean2 := mean group2 in
    let var1 := group_variance group1 in
    let var2 := group_variance group2 in
    let pooled_std := sqrt ((var1 + var2) / 2) in
    if Req_dec_T pooled_std 0 then 0
    else (mean1 - mean2) / pooled_std.

(** [interpret_effect_size], the function [run_comprehensive_validation]
    defines for its report. *)
Definition interpret_effect_size (d : R) : string :=
  let d := Rabs d in
  if Rlt_dec d (2 / 10) then "negligible"
  else if Rlt_dec d (5 / 10) then "small"
  else if Rlt_dec d (8 / 10) then "medium"
  else "large".

End SimpleValidation.

(** * The vocabulary of the properties *)

(** ** The specification's formulas

    The formulas of the specification, written from its words, for the
    claims that compare the code with them. *)

Module Spec.

Local Open Scope Q_scope.

(** The urgency step: -1.0 when urgency > 8, +0.5 when urgency < 3,
    0 otherwise. *)
Definition tau (urgency : Q) : Q :=
  if Qlt_bool 8 urgency then - (1)
  else if Qlt_bool urgency 3 then 5 # 10
  else 0.

(** The five-term composite cost of the primary policy. *)
Definition weighted_cost (energy urgency reward : Q) : Q :=
  1 * energy + (5 # 10) * (1 / Qmax urgency (1 # 10)) + - (2) * reward +
  - (5 # 10) * (reward / Qmax energy (1 # 1000)) + tau urgency.

(** Its first three terms. *)
Definition three_term_cost (energy urgency reward : Q) : Q :=
  1 * energy + (5 # 10) * (1 / Qmax urgency (1 # 10)) + - (2) * reward.



(** Cohen's d is (mean1 - mean2) / pooled_std with
    pooled_std = sqrt((var1 + var2) / 2): the mean is the arithmetic mean,
    the variance the sample variance, the squared deviations from the mean
    summed and divided by n - 1.  A single sample has no deviation from its
    mean and its variance counts as 0. *)
Fixpoint total (samples : list R) : R :=
  match samples with
  | [] => 0
  | x :: rest => x + total rest
  end%R.

Definition arithmetic_mean (samples : list R) : R :=
  (total samples / INR (List.length samples))%R.

Fixpoint squared_deviations (m : R) (samples : list R) : R :=
  match samples with
  | [] => 0
  | x :: rest => (x - m) ^ 2 + squared_deviations m rest
  end%R.

Definition sample_variance (samples : list R) : R :=
  match samples with
  | [] => 0
  | [_] => 0
  | _ :: _ :: _ =>
      squared_deviations (arithmetic_mean samples) samples /
      (INR (List.length samples) - 1)
  end%R.

Definition pooled_std (samples1 samples2 : list R) : R :=
  sqrt ((sample_variance samples1 + sample_variance samples2) / 2)%R.

End Spec.

(** ** Observations of the mission simulator *)

Section MissionVocabulary.

Import SimulateMission.
Local Open Scope Q_scope.

(** The cost [calculate_task_priority] returns, read off a store in which
    the task carries its energy cost. *)
Definition mission_cost (self : MissionSimulator) (h : heap) (t : ref) : Q :=
  lambda1 self * energy_cost (h t) +
  lambda2 self * (1 / pymax (urgency (h t)) (1 # 10)) +
  lambda3 self * reward (h t).

(** Everything of a task but its cached energy cost. *)
Definition same_task_data (t t' : Task) : Prop :=
  task_type t' = task_type t /\
  duration_hours t' = duration_hours t /\
  urgency t' = urgency t /\
  reward t' = reward t /\
  completed t' = completed t /\
  deferred t' = deferred t.

(** The task carries the energy cost the energy model gives it. *)
Definition costed (config : RoverConfig) (h : heap) (t : ref) : Prop :=
  calculate_task_energy config (task_type (h t)) (duration_hours (h t)) =
  Ok (energy_cost (h t)).


(** How many tasks the loop marks Completed when it starts on [ordered]
    with battery level [b0]. *)
Definition completed_count (config : RoverConfig) (b0 : Q)
    (ordered : list ref) (h : heap) : nat :=
  List.length
    (completed_tasks
       (fst (execute_in_priority_order ordered ordered
               (set_battery (MissionSimulator_init config) b0) h))).

(** The same count from the costs alone. *)
Fixpoint count_feasible (config : RoverConfig) (costs : list Q) (b : Q)
    : nat :=
  match costs with
  | [] => 0
  | c :: costs' =>
      if is_critical_energy config b then 0%nat
      else if Qle_bool c (get_available_energy config b) then
        S (count_feasible config costs' (b - c / BATTERY_CAPACITY config))
      else count_feasible config costs' b
  end.

(** Task T001 of [create_sample_tasks]. *)
Definition T001 : Task :=
  Task_init "T001" "sample_collection" 2 8 10 "Crater A".

Definition sample_heap : heap :=
  heap_of_list
    [ Task_init "T001" "sample_collection" 2 8 10 "Crater A";
      Task_init "T002" "imaging" (5 # 10) 6 5 "Rock Formation B";
      Task_init "T003" "drilling" 3 9 15 "Mineral Deposit C" ].

(** A run of the sample mission in which the traversal alone drains the
    battery below the critical threshold. *)
Definition draining_segment (d s v r : Q) : result SegmentResult :=
  Ok {| energy_kwh := d * (4 # 10); distance_m := d; time_hours := d / v |}.

(** The energy model as the simulator calls it, on level ground: a row of
    slope 0 has sine 0 and cosine 1, and every quantity of
    [calculate_energy_consumption] is rational.  The function stands for
    the energy model on such rows only and refuses the others. *)
Definition level_ground_segment (config : RoverConfig)
    (distance slope_degrees velocity roughness : Q) : result SegmentResult :=
  if negb (Qeq_bool slope_degrees 0) then
    Raise (ValueError "level ground only")
  else if Qle_bool velocity 0 then
    Raise (ValueError "Velocity must be positive")
  else
    let time_hours := distance / (velocity * 3600) in
    let rolling_resistance :=
      ROLLING_RESISTANCE_COEFF config * (MASS config * GRAVITY_MARS config) in
    let mechanical_power := rolling_resistance * velocity in
    let roughness_penalty := roughness * velocity * 50 in
    let power_watts :=
      (mechanical_power + roughness_penalty) /
      (MOTOR_EFFICIENCY config * DRIVETRAIN_EFFICIENCY config) in
    Ok {| energy_kwh := power_watts * time_hours / 1000;
          distance_m := distance;
          time_hours := time_hours |}.


(** One kilometre of level ground. *)
Definition short_level_terrain : list TerrainRow :=
  [ {| distance := 1000; slope_deg := 0; roughness := 1 # 10 |} ].




(** Three tasks with their cached energy costs: 12, 5 and 5 kWh. *)
Definition heavy_first_heap : heap :=
  heap_of_list
    [ set_energy_cost (Task_init "A" "drilling" 100 5 1 "unknown") 12;
      set_energy_cost (Task_init "B" "navigation" 100 5 1 "unknown") 5;
      set_energy_cost (Task_init "C" "navigation" 100 5 1 "unknown") 5 ].

(** The velocity [simulate_terrain_traversal] drives at. *)
Definition traversal_velocity (self : MissionSimulator) (velocity : option Q)
    : Q :=
  match velocity with
  | None => NOMINAL_VELOCITY (config self)
  | Some v => v
  end.

(** [sum(task.energy_cost for task in l)] *)
Definition sum_costs (h : heap) (l : list ref) : Q :=
  fold_left (fun acc t => acc + energy_cost (h t)) l 0.

(** The battery level with which the loop over the tasks starts. *)
Definition start_level (summary : option TraversalSummary) : Q :=
  match summary with
  | Some ts => traversal_battery_level_after ts
  | None => 1
  end.

(** The energy the traversal took. *)
Definition traversal_energy (summary : option TraversalSummary) : Q :=
  match summary with
  | Some ts => total_energy_kwh ts
  | None => 0
  end.

(** Neither flag of the task is set. *)
Definition unmarked (h : heap) (t : ref) : bool :=
  negb (completed (h t)) && negb (deferred (h t)).

(** The battery level, as energy, plus the energy of the completed
    tasks. *)
Definition energy_ledger (self : MissionSimulator) (h : heap) : Q :=
  current_battery_level self * BATTERY_CAPACITY (config self) +
  sum_costs h (completed_tasks self).

(** The battery levels the mission log records, oldest first. *)
Definition log_levels (log : list LogEntry) : list Q :=
  map battery_level_after log.

(** No level is above the one before it. *)
Definition falling (levels : list Q) : Prop :=
  StronglySorted (fun a b => b <= a) levels.

(** What the caller gave a task. *)
Definition task_inputs (t : Task) : string * string * Q * Q * Q * string :=
  (task_id t, task_type t, duration_hours t, urgency t, reward t, location t).

End MissionVocabulary.

(** ** Observations of the benchmark harness *)

Section BenchmarkVocabulary.

Import SimpleValidation.
Local Open Scope Q_scope.

(** The components of the loop state of [simulate_task_execution]. *)
Definition loop_completed (st : list Task * Q * Q * Q) : list Task :=
  fst (fst (fst st)).

Definition loop_usable (st : list Task * Q * Q * Q) : Q :=
  snd (fst (fst st)).

(** How many of [costs], taken in order, fit in [usable]. *)
Fixpoint count_within (costs : list Q) (usable : Q) : nat :=
  match costs with
  | [] => 0
  | c :: costs' =>
      if Qle_bool c usable then S (count_within costs' (usable - c))
      else count_within costs' usable
  end.

(** [sum(t.energy for t in tasks)] as a right fold. *)
Definition sum_energy (tasks : list Task) : Q :=
  fold_right (fun t acc => energy t + acc) 0 tasks.

(** The same shape for the benchmark: energies 4, 2 and 1.2 kWh. *)
Definition heavy_first_tasks : list SimpleValidation.Task :=
  [ {| SimpleValidation.id := "T001"; SimpleValidation.type_index := 3;
       SimpleValidation.duration := 100 # 3; SimpleValidation.urgency := 5;
       SimpleValidation.reward := 50; SimpleValidation.power := 120;
       SimpleValidation.energy := 4 |};
    {| SimpleValidation.id := "T002"; SimpleValidation.type_index := 1;
       SimpleValidation.duration := 40; SimpleValidation.urgency := 5;
       SimpleValidation.reward := 50; SimpleValidation.power := 50;
       SimpleValidation.energy := 2 |};
    {| SimpleValidation.id := "T003"; SimpleValidation.type_index := 1;
       SimpleValidation.duration := 24; SimpleValidation.urgency := 5;
       SimpleValidation.reward := 50; SimpleValidation.power := 50;
       SimpleValidation.energy := 12 # 10 |} ].

(** Twelve tasks, every random float drawn as 0.5 and every type as 3. *)
Definition even_draws : ScenarioDraws :=
  {| draw_energy_level := 1 # 2;
     draw_tasks :=
       repeat {| draw_type_index := 3; draw_duration := 1 # 2;
                 draw_urgency := 1 # 2; draw_reward := 1 # 2 |} 12 |}.

(** [l1] is [l2] with some elements left out, the order kept. *)
Inductive Subseq (A : Type) : list A -> list A -> Prop :=
| Subseq_nil : Subseq [] []
| Subseq_skip (x : A) (l1 l2 : list A) :
    Subseq l1 l2 -> Subseq l1 (x :: l2)
| Subseq_take (x : A) (l1 l2 : list A) :
    Subseq l1 l2 -> Subseq (x :: l1) (x :: l2).

(** [sum(t.reward for t in tasks)] *)
Definition sum_reward (tasks : list Task) : Q :=
  fold_right (fun t acc => reward t + acc) 0 tasks.

(** What holds of every task of a generated scenario. *)
Definition generated_task_ok (self : SimpleValidator) (t : Task) : Prop :=
  power_map_get (power_map self) (type_index t) = Ok (power t) /\
  1 <= urgency t /\ urgency t < 10 /\
  10 <= reward t /\ reward t < 100 /\
  0 < duration t /\
  0 < energy t /\
  energy t == power t * duration t / 1000.

End BenchmarkVocabulary.

(** ** Sample input of the mission estimate *)

Section EstimateVocabulary.

Import MissionEstimate.
Local Open Scope R_scope.

(** Two segments, the second without a velocity of its own, and one task. *)
Definition estimate_segments : list SegmentParams :=
  [ {| seg_distance := 10; seg_slope_degrees := Some 5;
       seg_velocity := Some (3 / 100); seg_roughness := Some (1 / 10) |};
    {| seg_distance := 15; seg_slope_degrees := None;
       seg_velocity := None; seg_roughness := Some (5 / 100) |} ].

Definition estimate_tasks : list TaskParams :=
  [ {| tp_type := "imaging"; tp_duration_hours := 1 # 2 |} ].

End EstimateVocabulary.

(** * Properties *)

(** Linear arithmetic over the rationals and over the reals. *)
Ltac lraQ := Lqa.lra.
Ltac lraR := Lra.lra.

(** ** Comparisons and [max] *)

Lemma Qlt_bool_iff (a b : Q) : Qlt_bool a b = true <-> (a < b)%Q.
Proof.
  unfold Qlt_bool. rewrite negb_true_iff.
  split; intro H.
  - apply Qnot_le_lt. intro Hle. apply Qle_bool_iff in Hle. congruence.
  - destruct (Qle_bool b a) eqn:E; [|reflexivity].
    apply Qle_bool_iff in E. exfalso. apply (Qlt_not_le _ _ H E).
Qed.

Lemma Qle_bool_false_iff (a b : Q) : Qle_bool a b = false <-> (b < a)%Q.
Proof.
  split; intro H.
  - apply Qnot_le_lt. intro Hle. apply Qle_bool_iff in Hle. congruence.
  - destruct (Qle_bool a b) eqn:E; [|reflexivity].
    apply Qle_bool_iff in E. exfalso. apply (Qlt_not_le _ _ H E).
Qed.

Lemma pymax_cases (a b : Q) :
  ((a < b)%Q /\ pymax a b = b) \/ ((b <= a)%Q /\ pymax a b = a).
Proof.
  unfold pymax. destruct (Qlt_bool a b) eqn:E.
  - left. split; [now apply Qlt_bool_iff|reflexivity].
  - right. split; [|reflexivity].
    unfold Qlt_bool in E. rewrite negb_false_iff in E.
    now apply Qle_bool_iff in E.
Qed.

Lemma pymax_mono_r (a b b' : Q) : (b <= b')%Q -> (pymax a b <= pymax a b')%Q.
Proof.
  intro H.
  destruct (pymax_cases a b) as [[H1 ->]|[H1 ->]];
    destruct (pymax_cases a b') as [[H2 ->]|[H2 ->]]; lraQ.
Qed.

(** ** The energy model *)

Section EnergyModelFacts.

Import EnergyModel.
Local Open Scope R_scope.

Lemma radians_180 : radians 180 = PI.
Proof. unfold radians. field. Qed.

Lemma radians_quarter_turn (slope : R) :
  -90 <= slope <= 90 -> - (PI / 2) <= radians slope <= PI / 2.
Proof.
  intros [Hlo Hhi]. unfold radians.
  pose proof PI_RGT_0 as Hpi.
  assert (Hl : 0 <= (slope + 90) * PI) by (apply Rmult_le_pos; lraR).
  assert (Hh : 0 <= (90 - slope) * PI) by (apply Rmult_le_pos; lraR).
  split; lraR.
Qed.

(** C8, as stated, fails: on a slope of 180 degrees the rolling resistance
    of the 899 kg rover is negative. *)
Lemma rolling_resistance_negative_at_180 :
  0 < 899 /\ calculate_rolling_resistance rover_config (Some 899) 180 < 0.
Proof.
  split; [lraR|].
  unfold calculate_rolling_resistance, mass_or_default.
  rewrite radians_180, cos_PI.
  unfold rover_config, Q2R; simpl. lraR.
Qed.

(** C8 (amended): for every positive mass and every slope between -90 and
    90 degrees, the rolling resistance is mu * mass * g * cos(slope in
    radians) and is non-negative; the formula holds for every slope. *)
Theorem rolling_resistance_formula_nonneg
    (config : RoverConfig) (mass slope : R) :
  (0 <= ROLLING_RESISTANCE_COEFF config)%Q ->
  (0 <= GRAVITY_MARS config)%Q ->
  0 < mass ->
  calculate_rolling_resistance config (Some mass) slope =
    Q2R (ROLLING_RESISTANCE_COEFF config) * mass *
    Q2R (GRAVITY_MARS config) * cos (slope * PI / 180) /\
  (-90 <= slope <= 90 ->
   0 <= calculate_rolling_resistance config (Some mass) slope).
Proof.
  intros Hmu Hg Hm.
  apply Qle_Rle in Hmu. apply Qle_Rle in Hg.
  replace (Q2R 0) with 0 in Hmu, Hg by (unfold Q2R; simpl; lraR).
  unfold calculate_rolling_resistance, mass_or_default.
  split.
  - unfold radians. ring.
  - intro Hslope.
    destruct (radians_quarter_turn Hslope) as [Hlo Hhi].
    pose proof (cos_ge_0 _ Hlo Hhi) as Hcos.
    apply Rmult_le_pos; [assumption|].
    apply Rmult_le_pos; [|assumption].
    apply Rmult_le_pos; [lraR|assumption].
Qed.

Lemma rolling_resistance_formula_nonneg_witness :
  calculate_rolling_resistance rover_config (Some 899) 30 =
    Q2R (ROLLING_RESISTANCE_COEFF rover_config) * 899 *
    Q2R (GRAVITY_MARS rover_config) * cos (30 * PI / 180) /\
  (-90 <= 30 <= 90 ->
   0 <= calculate_rolling_resistance rover_config (Some 899) 30).
Proof.
  apply (@rolling_resistance_formula_nonneg rover_config 899 30).
  - unfold Qle; simpl; lia.
  - unfold Qle; simpl; lia.
  - lraR.
Defined.

(** C6: the segment energy computation raises exactly when velocity <= 0;
    for a positive velocity it returns a breakdown with
    time = distance / (velocity * 3600) and energy = power * time / 1000. *)
Theorem energy_consumption_raises_iff_velocity_nonpos
    (config : RoverConfig) (distance slope velocity rough : R)
    (mass : option R) :
  ((exists e,
      calculate_energy_consumption config distance slope velocity rough mass
      = Raise e) <-> velocity <= 0) /\
  (0 < velocity ->
   exists b,
     calculate_energy_consumption config distance slope velocity rough mass
     = Ok b /\
     time_hours b = distance / (velocity * 3600) /\
     power_watts b =
       calculate_power_consumption config slope velocity rough mass /\
     energy_kwh b = power_watts b * time_hours b / 1000).
Proof.
  unfold calculate_energy_consumption.
  destruct (Rle_dec velocity 0) as [Hv|Hv].
  - split.
    + split; [intros _; exact Hv|intros _; eexists; reflexivity].
    + intro Hpos. lraR.
  - split.
    + split.
      * intros [e He]. discriminate He.
      * intro Hle. contradiction.
    + intros _. eexists. split; [reflexivity|]. simpl. repeat split.
Qed.

Lemma energy_consumption_raises_iff_velocity_nonpos_witness :
  exists b,
    calculate_energy_consumption rover_config 100 10 (42 / 1000) (1 / 10)
      None = Ok b /\
    time_hours b = 100 / (42 / 1000 * 3600) /\
    power_watts b =
      calculate_power_consumption rover_config 10 (42 / 1000) (1 / 10)
        None /\
    energy_kwh b = power_watts b * time_hours b / 1000.
Proof.
  apply (proj2 (energy_consumption_raises_iff_velocity_nonpos
                  rover_config 100 10 (42 / 1000) (1 / 10) None)).
  lraR.
Defined.

End EnergyModelFacts.

(** ** The energy model on level ground *)

Section LevelGround.

Local Open Scope R_scope.

Lemma Q2R_inject_Z (z : Z) : Q2R (inject_Z z) = IZR z.
Proof. unfold Q2R, inject_Z. simpl. field. Qed.

Lemma Q2R_zero_iff (q : Q) : (q == 0)%Q -> Q2R q = 0.
Proof. intro H. rewrite (Qeq_eqR _ _ H). unfold Q2R. simpl. field. Qed.

(** On a row of slope 0, [level_ground_segment] returns what
    [EnergyModel.calculate_energy_consumption] computes, and raises when it
    raises. *)
Lemma level_ground_segment_is_energy_model (config : RoverConfig)
    (distance slope_degrees velocity roughness : Q) :
  ~ (MOTOR_EFFICIENCY config * DRIVETRAIN_EFFICIENCY config == 0)%Q ->
  (slope_degrees == 0)%Q ->
  match level_ground_segment config distance slope_degrees velocity roughness,
        EnergyModel.calculate_energy_consumption config (Q2R distance)
          (Q2R slope_degrees) (Q2R velocity) (Q2R roughness) None
  with
  | Ok q, Ok e =>
      Q2R (SimulateMission.energy_kwh q) = EnergyModel.energy_kwh e /\
      Q2R (SimulateMission.distance_m q) = EnergyModel.distance_m e /\
      Q2R (SimulateMission.time_hours q) = EnergyModel.time_hours e
  | Raise a, Raise b => a = b
  | _, _ => False
  end.
Proof.
  intros Heff Hs.
  unfold level_ground_segment, EnergyModel.calculate_energy_consumption.
  assert (Hs' : Qeq_bool slope_degrees 0 = true) by (now apply Qeq_bool_iff).
  rewrite Hs'. cbn [negb].
  destruct (Qle_bool velocity 0) eqn:Ev.
  - apply Qle_bool_iff, Qle_Rle in Ev. rewrite RMicromega.Q2R_0 in Ev.
    destruct (Rle_dec (Q2R velocity) 0) as [_|n]; [reflexivity|contradiction].
  - assert (Hv : (0 < velocity)%Q).
    { destruct (Qlt_le_dec 0 velocity) as [H|H]; [assumption|].
      apply Qle_bool_iff in H. congruence. }
    apply Qlt_Rlt in Hv. rewrite RMicromega.Q2R_0 in Hv.
    destruct (Rle_dec (Q2R velocity) 0) as [n|_]; [lraR|].
    assert (Hv3 : ~ (velocity * 3600 == 0)%Q).
    { intro H. apply Qeq_eqR in H. rewrite Q2R_mult in H.
      rewrite RMicromega.Q2R_0 in H.
      change 3600%Q with (inject_Z 3600) in H. rewrite Q2R_inject_Z in H.
      lraR. }
    cbn [SimulateMission.energy_kwh SimulateMission.distance_m
         SimulateMission.time_hours EnergyModel.energy_kwh
         EnergyModel.distance_m EnergyModel.time_hours].
    assert (Ht : Q2R (distance / (velocity * 3600)) =
                 Q2R distance / (Q2R velocity * 3600)).
    { rewrite Q2R_div by assumption. rewrite Q2R_mult.
      change 3600%Q with (inject_Z 3600). now rewrite Q2R_inject_Z. }
    split; [|split; [reflexivity|exact Ht]].
    unfold Qdiv at 1. rewrite Q2R_mult, Q2R_mult, Ht.
    rewrite Q2R_div by assumption.
    rewrite Q2R_plus, !Q2R_mult.
    change 50%Q with (inject_Z 50). rewrite Q2R_inject_Z.
    replace (Q2R (/ 1000)) with (/ 1000)
      by (unfold Q2R; simpl; field).
    unfold EnergyModel.calculate_power_consumption,
      EnergyModel.calculate_slope_force,
      EnergyModel.calculate_rolling_resistance,
      EnergyModel.calculate_roughness_penalty,
      EnergyModel.mass_or_default, EnergyModel.radians.
    rewrite (Q2R_zero_iff Hs).
    replace (0 * PI / 180) with 0 by field.
    rewrite sin_0, cos_0, Rmult_0_r, Rabs_R0.
    assert (He : Q2R (MOTOR_EFFICIENCY config) *
                 Q2R (DRIVETRAIN_EFFICIENCY config) <> 0).
    { intro H. apply Heff. apply eqR_Qeq.
      now rewrite Q2R_mult, RMicromega.Q2R_0. }
    field. repeat split; try lraR; intro H; apply He; rewrite H; ring.
Qed.

End LevelGround.

(** ** Task energy *)

Lemma dict_mem_get (d : list (string * Q)) (k : string) :
  dict_mem d k = true <-> exists v, dict_get d k = Some v.
Proof.
  unfold dict_mem. destruct (dict_get d k) as [v|].
  - split; [intros _; now exists v|reflexivity].
  - split; [discriminate|intros [v Hv]; discriminate].
Qed.

Lemma calculate_task_energy_known (config : RoverConfig) (task_type : string)
    (duration_hours power_watts : Q) :
  dict_get (TASK_POWER config) task_type = Some power_watts ->
  calculate_task_energy config task_type duration_hours =
    Ok (power_watts * duration_hours / 1000)%Q.
Proof.
  intro H. unfold calculate_task_energy, dict_mem. now rewrite H.
Qed.

Lemma calculate_task_energy_unknown (config : RoverConfig)
    (task_type : string) (duration_hours : Q) :
  dict_mem (TASK_POWER config) task_type = false ->
  calculate_task_energy config task_type duration_hours =
    Raise (ValueError ("Unknown task type: " ++ task_type)).
Proof.
  intro H. unfold calculate_task_energy. now rewrite H.
Qed.

(** ** The stable sort *)

Section SortedFacts.

Variable A : Type.

Local Open Scope Q_scope.

Lemma insert_keyed_perm (x : Q * A) (l : list (Q * A)) :
  Permutation (x :: l) (insert_keyed x l).
Proof.
  induction l as [|y l IH]; simpl.
  - apply Permutation_refl.
  - destruct (Qle_bool (fst x) (fst y)).
    + apply Permutation_refl.
    + eapply perm_trans; [apply perm_swap|].
      now apply perm_skip.
Qed.

Lemma sort_keyed_perm (l : list (Q * A)) : Permutation l (sort_keyed l).
Proof.
  induction l as [|x l IH]; simpl.
  - apply perm_nil.
  - eapply perm_trans; [apply perm_skip, IH|apply insert_keyed_perm].
Qed.

Lemma insert_keyed_ascending (x : Q * A) (l : list (Q * A)) :
  keys_ascending l -> keys_ascending (insert_keyed x l).
Proof.
  unfold keys_ascending.
  induction l as [|y l IH]; simpl; intro Hs.
  - constructor; [constructor|constructor].
  - inversion Hs as [|? ? Hl Hy]; subst.
    destruct (Qle_bool (fst x) (fst y)) eqn:E.
    + apply Qle_bool_iff in E.
      constructor; [assumption|].
      constructor; [assumption|].
      eapply Forall_impl; [|exact Hy].
      intros z Hz. simpl in Hz. lraQ.
    + apply Qle_bool_false_iff in E.
      constructor; [now apply IH|].
      eapply Permutation_Forall; [apply insert_keyed_perm|].
      constructor; [lraQ|assumption].
Qed.

Lemma sort_keyed_ascending (l : list (Q * A)) : keys_ascending (sort_keyed l).
Proof.
  induction l as [|x l IH]; simpl.
  - constructor.
  - now apply insert_keyed_ascending.
Qed.

Lemma with_key_insert (k : Q) (x : Q * A) (l : list (Q * A)) :
  with_key k (insert_keyed x l) = with_key k (x :: l).
Proof.
  induction l as [|y l IH]; simpl.
  - reflexivity.
  - destruct (Qle_bool (fst x) (fst y)) eqn:E; [reflexivity|].
    apply Qle_bool_false_iff in E.
    simpl in *. rewrite IH.
    destruct (Qeq_bool (fst x) k) eqn:Ex;
      destruct (Qeq_bool (fst y) k) eqn:Ey; try reflexivity.
    apply Qeq_bool_iff in Ex. apply Qeq_bool_iff in Ey. lraQ.
Qed.

(** Stability: the elements of any one key come out in their input order. *)
Lemma sort_keyed_stable (k : Q) (l : list (Q * A)) :
  with_key k (sort_keyed l) = with_key k l.
Proof.
  induction l as [|x l IH]; simpl.
  - reflexivity.
  - rewrite with_key_insert. simpl. now rewrite IH.
Qed.

Lemma keys_of_decorated (key : A -> Q) (l : list A) :
  Forall (fun x => fst x = key (snd x)) (map (fun x => (key x, x)) l).
Proof.
  induction l as [|x l IH]; simpl; constructor; [reflexivity|assumption].
Qed.

(** [py_sorted] orders by the key itself. *)
Lemma py_sorted_perm (key : A -> Q) (l : list A) :
  Permutation l (py_sorted key l).
Proof.
  unfold py_sorted.
  eapply perm_trans;
    [|apply Permutation_map, sort_keyed_perm].
  rewrite map_map. simpl. rewrite map_id. apply Permutation_refl.
Qed.

Lemma py_sorted_ascending (key : A -> Q) (l : list A) :
  StronglySorted (fun x y => key x <= key y) (py_sorted key l).
Proof.
  unfold py_sorted.
  pose proof (sort_keyed_ascending (map (fun x => (key x, x)) l)) as Hs.
  pose proof (Permutation_Forall
                (sort_keyed_perm (map (fun x => (key x, x)) l))
                (keys_of_decorated key l)) as Hk.
  unfold keys_ascending in Hs.
  induction Hs as [|x s Hs IH Hx]; simpl.
  - constructor.
  - inversion Hk as [|? ? Hkx Hks]; subst.
    constructor; [now apply IH|].
    rewrite Forall_forall in *. intros y Hy.
    apply in_map_iff in Hy. destruct Hy as [z [<- Hz]].
    rewrite <- Hkx, <- (Hks z Hz). now apply Hx.
Qed.

Lemma py_sorted_stable (key : A -> Q) (k : Q) (l : list A) :
  filter (fun x => Qeq_bool (key x) k) (py_sorted key l) =
  filter (fun x => Qeq_bool (key x) k) l.
Proof.
  unfold py_sorted.
  assert (Hf : forall s : list (Q * A),
             Forall (fun x => fst x = key (snd x)) s ->
             filter (fun x => Qeq_bool (key x) k) (map snd s) =
             map snd (with_key k s)).
  { induction s as [|x s IH]; simpl; intro H; [reflexivity|].
    inversion H as [|? ? Hx Hs]; subst.
    rewrite <- Hx. destruct (Qeq_bool (fst x) k); simpl; now rewrite IH. }
  rewrite Hf.
  - rewrite sort_keyed_stable, <- Hf by apply keys_of_decorated.
    rewrite map_map. simpl. now rewrite map_id.
  - eapply Permutation_Forall; [apply sort_keyed_perm|].
    apply keys_of_decorated.
Qed.

End SortedFacts.

Lemma pymax_Qmax (a b : Q) : (pymax a b == Qmax a b)%Q.
Proof.
  destruct (pymax_cases a b) as [[H ->]|[H ->]].
  - symmetry. apply Q.max_r. lraQ.
  - symmetry. now apply Q.max_l.
Qed.

(** ** The mission simulator: prioritization *)

Section PrioritizationFacts.

Import SimulateMission.
Local Open Scope Q_scope.

Lemma heap_set_same (h : heap) (r : ref) (t : Task) : heap_set h r t r = t.
Proof. unfold heap_set. now rewrite Nat.eqb_refl. Qed.

Lemma heap_set_other (h : heap) (r r' : ref) (t : Task) :
  r' <> r -> heap_set h r t r' = h r'.
Proof.
  intro H. unfold heap_set.
  destruct (Nat.eqb r' r) eqn:E; [|reflexivity].
  apply Nat.eqb_eq in E. contradiction.
Qed.

Lemma same_task_data_refl (t : Task) : same_task_data t t.
Proof. repeat split. Qed.

Lemma same_task_data_trans (t1 t2 t3 : Task) :
  same_task_data t1 t2 -> same_task_data t2 t3 -> same_task_data t1 t3.
Proof.
  unfold same_task_data.
  intros (A1 & A2 & A3 & A4 & A5 & A6) (B1 & B2 & B3 & B4 & B5 & B6).
  repeat split; congruence.
Qed.

Lemma calculate_task_priority_inv (self : MissionSimulator) (h h' : heap)
    (task : ref) (c : Q) :
  calculate_task_priority self h task = Ok (c, h') ->
  exists e,
    calculate_task_energy (config self) (task_type (h task))
      (duration_hours (h task)) = Ok e /\
    h' = heap_set h task (set_energy_cost (h task) e) /\
    c = mission_cost self h' task.
Proof.
  unfold calculate_task_priority, bind.
  destruct (calculate_task_energy _ _ _) as [e|x]; [|discriminate].
  intro H. injection H as Hc Hh. exists e. subst h'.
  split; [reflexivity|]. split; [reflexivity|].
  rewrite <- Hc. unfold mission_cost. now rewrite heap_set_same.
Qed.

Lemma calculate_task_priority_raises (self : MissionSimulator) (h : heap)
    (task : ref) :
  dict_mem (TASK_POWER (config self)) (task_type (h task)) = false ->
  exists e, calculate_task_priority self h task = Raise e.
Proof.
  intro H. unfold calculate_task_priority.
  rewrite (calculate_task_energy_unknown _ _ _ H). simpl. eexists; reflexivity.
Qed.

Lemma set_cost_same_data (h : heap) (task : ref) (e : Q) (r : ref) :
  same_task_data (h r) (heap_set h task (set_energy_cost (h task) e) r).
Proof.
  destruct (Nat.eq_dec r task) as [->|Hne].
  - rewrite heap_set_same. repeat split.
  - rewrite heap_set_other by assumption. apply same_task_data_refl.
Qed.

Lemma set_cost_costed (config : RoverConfig) (h : heap) (task : ref) (e : Q)
    (r : ref) :
  calculate_task_energy config (task_type (h task)) (duration_hours (h task))
    = Ok e ->
  r = task \/ costed config h r ->
  costed config (heap_set h task (set_energy_cost (h task) e)) r.
Proof.
  intros He Hr. unfold costed.
  destruct (Nat.eq_dec r task) as [->|Hne].
  - rewrite heap_set_same. simpl. exact He.
  - rewrite heap_set_other by assumption.
    destruct Hr as [Hr|Hr]; [contradiction|exact Hr].
Qed.

(** What the key computations of [sorted] leave behind: the tasks keep
    their data, every task of the list carries its energy cost, and the
    keys are the costs read off the final store. *)
Lemma priority_keys_inv (self : MissionSimulator) (tasks : list ref) :
  forall (h h' : heap) (ks : list (Q * ref)),
    priority_keys self h tasks = Ok (ks, h') ->
    (forall r, same_task_data (h r) (h' r)) /\
    (forall r, costed (config self) h r -> costed (config self) h' r) /\
    Forall (costed (config self) h') tasks /\
    ks = map (fun t => (mission_cost self h' t, t)) tasks.
Proof.
  induction tasks as [|task tasks IH]; simpl; intros h h' ks H.
  - injection H as <- <-.
    split; [|split; [|split]]; auto using same_task_data_refl.
  - unfold bind in H.
    destruct (calculate_task_priority self h task) as [[c h1]|x] eqn:E1;
      [|discriminate].
    simpl in H.
    destruct (priority_keys self h1 tasks) as [[ks2 h2]|x] eqn:E2;
      [|discriminate].
    simpl in H. injection H as <- <-.
    apply calculate_task_priority_inv in E1.
    destruct E1 as (e & He & Hh1 & Hc).
    destruct (IH _ _ _ E2) as (Hd & Hk & Hall & Hks).
    assert (Hstep : forall r, same_task_data (h r) (h1 r))
      by (intro r; subst h1; apply set_cost_same_data).
    assert (Hcost1 : costed (config self) h1 task)
      by (subst h1; apply set_cost_costed; auto).
    split; [|split; [|split]].
    + intro r. eapply same_task_data_trans; [apply Hstep|apply Hd].
    + intros r Hr. apply Hk. subst h1. apply set_cost_costed; auto.
    + constructor; [now apply Hk|assumption].
    + rewrite Hks. f_equal. f_equal.
      rewrite Hc. unfold mission_cost.
      pose proof (Hk _ Hcost1) as Hcost2.
      destruct (Hd task) as (T1 & T2 & T3 & T4 & _).
      unfold costed in Hcost1, Hcost2.
      rewrite T1, T2, Hcost1 in Hcost2.
      injection Hcost2 as Heq.
      now rewrite T3, T4, Heq.
Qed.

Lemma priority_keys_raises (self : MissionSimulator) (tasks : list ref) :
  forall (h : heap) (t : ref),
    In t tasks ->
    dict_mem (TASK_POWER (config self)) (task_type (h t)) = false ->
    exists e, priority_keys self h tasks = Raise e.
Proof.
  induction tasks as [|task tasks IH]; simpl; intros h t Hin Hunk.
  - contradiction.
  - unfold bind.
    destruct (calculate_task_priority self h task) as [[c h1]|x] eqn:E1;
      [|eexists; reflexivity].
    simpl.
    destruct Hin as [->|Hin].
    + destruct (calculate_task_priority_raises self h t Hunk) as [e He].
      congruence.
    + apply calculate_task_priority_inv in E1.
      destruct E1 as (e & He & Hh1 & Hc).
      destruct (IH h1 t Hin) as [x Hx].
      * destruct (set_cost_same_data h task e t) as (T1 & _).
        subst h1. now rewrite T1.
      * rewrite Hx. simpl. eexists; reflexivity.
Qed.

(** [prioritize_tasks] is the stable sort on [mission_cost]. *)
Lemma prioritize_tasks_inv (self : MissionSimulator) (h h' : heap)
    (tasks sorted : list ref) :
  prioritize_tasks self h tasks = Ok (sorted, h') ->
  (forall r, same_task_data (h r) (h' r)) /\
  Forall (costed (config self) h') tasks /\
  sorted = py_sorted (mission_cost self h') tasks.
Proof.
  unfold prioritize_tasks, bind.
  destruct (priority_keys self h tasks) as [[ks h1]|x] eqn:E; [|discriminate].
  simpl. intro H. injection H as <- <-.
  destruct (priority_keys_inv _ _ _ E) as (Hd & _ & Hall & ->).
  split; [|split]; [assumption|assumption|reflexivity].
Qed.

End PrioritizationFacts.

(** ** The primary policy (C5) and fail-fast cost computation (C4) *)

Section PolicyClaims.

Import SimulateMission.
Local Open Scope Q_scope.

Lemma priority_is_weighted_cost (task : SimpleValidation.Task) :
  SimpleValidation.priority task ==
  Spec.weighted_cost (SimpleValidation.energy task)
    (SimpleValidation.urgency task) (SimpleValidation.reward task).
Proof.
  unfold SimpleValidation.priority, Spec.weighted_cost, Spec.tau.
  rewrite !pymax_Qmax. reflexivity.
Qed.

Lemma mission_cost_is_three_term (config : RoverConfig) (h : heap) (t : ref) :
  mission_cost (MissionSimulator_init config) h t ==
  Spec.three_term_cost (energy_cost (h t)) (urgency (h t)) (reward (h t)).
Proof.
  unfold mission_cost, Spec.three_term_cost. simpl.
  rewrite pymax_Qmax. reflexivity.
Qed.

(** C5, as stated, fails: the mission simulator's implementation of the
    policy returns, for task T001, a cost that is not the five-term cost. *)
Lemma mission_priority_is_not_five_term :
  exists c h',
    calculate_task_priority (MissionSimulator_init rover_config)
      (heap_of_list [T001]) 0%nat = Ok (c, h') /\
    ~ c == Spec.weighted_cost (energy_cost (h' 0%nat)) (urgency (h' 0%nat))
           (reward (h' 0%nat)).
Proof.
  eexists. eexists. split.
  - vm_compute. reflexivity.
  - vm_compute. discriminate.
Qed.

(** C5 (amended): the benchmark's [our_prioritization_scheduler] orders any
    task list ascending by the five-term composite cost, equal costs in input
    order; the mission simulator's [prioritize_tasks] orders ascending, equal
    costs in input order, by the three-term cost
    1.0 * energy + 0.5 * (1 / max(urgency, 0.1)) + (-2.0) * reward. *)
Theorem weighted_cost_priority_orders :
  (forall tasks : list SimpleValidation.Task,
     let ordered := SimpleValidation.our_prioritization_scheduler tasks in
     Permutation tasks ordered /\
     StronglySorted
       (fun x y => SimpleValidation.priority x <= SimpleValidation.priority y)
       ordered /\
     (forall k,
        filter (fun t => Qeq_bool (SimpleValidation.priority t) k) ordered =
        filter (fun t => Qeq_bool (SimpleValidation.priority t) k) tasks) /\
     (forall t,
        SimpleValidation.priority t ==
        Spec.weighted_cost (SimpleValidation.energy t)
          (SimpleValidation.urgency t) (SimpleValidation.reward t))) /\
  (forall (config : RoverConfig) (h h' : heap) (tasks ordered : list ref),
     let self := MissionSimulator_init config in
     prioritize_tasks self h tasks = Ok (ordered, h') ->
     Permutation tasks ordered /\
     StronglySorted
       (fun x y => mission_cost self h' x <= mission_cost self h' y)
       ordered /\
     (forall k,
        filter (fun t => Qeq_bool (mission_cost self h' t) k) ordered =
        filter (fun t => Qeq_bool (mission_cost self h' t) k) tasks) /\
     (forall t,
        mission_cost self h' t ==
        Spec.three_term_cost (energy_cost (h' t)) (urgency (h' t))
          (reward (h' t))) /\
     Forall (costed config h') tasks).
Proof.
  split.
  - intros tasks ordered. subst ordered.
    change (SimpleValidation.our_prioritization_scheduler tasks)
      with (py_sorted SimpleValidation.priority tasks).
    split; [apply py_sorted_perm|].
    split; [apply py_sorted_ascending|].
    split; [intro k; apply py_sorted_stable|].
    apply priority_is_weighted_cost.
  - intros config h h' tasks ordered self H.
    apply prioritize_tasks_inv in H. destruct H as (_ & Hall & ->).
    split; [apply py_sorted_perm|].
    split; [apply py_sorted_ascending|].
    split; [intro k; apply py_sorted_stable|].
    split; [intro t; apply mission_cost_is_three_term|exact Hall].
Qed.

Lemma weighted_cost_priority_orders_witness :
  exists ordered h',
    let self := MissionSimulator_init rover_config in
    prioritize_tasks self sample_heap [0; 1; 2]%nat = Ok (ordered, h') /\
    ordered = [2; 0; 1]%nat /\
    Permutation [0; 1; 2]%nat ordered /\
    StronglySorted
      (fun x y => mission_cost self h' x <= mission_cost self h' y)
      ordered /\
    (forall k,
       filter (fun t => Qeq_bool (mission_cost self h' t) k) ordered =
       filter (fun t => Qeq_bool (mission_cost self h' t) k) [0; 1; 2]%nat) /\
    (forall t,
       mission_cost self h' t ==
       Spec.three_term_cost (energy_cost (h' t)) (urgency (h' t))
         (reward (h' t))) /\
    Forall (costed rover_config h') [0; 1; 2]%nat.
Proof.
  eexists. eexists. intro self.
  split; [vm_compute; reflexivity|].
  split; [reflexivity|].
  apply (proj2 weighted_cost_priority_orders rover_config sample_heap).
  vm_compute. reflexivity.
Defined.

(** C4, as stated, fails: a negative duration is not rejected; the energy
    model returns a negative energy for it. *)
Lemma negative_duration_is_not_rejected :
  - (2) <= 0 /\
  calculate_task_energy rover_config "drilling" (- (2)) =
    Ok (120 * - (2) / 1000).
Proof. split; [lraQ|reflexivity]. Qed.

(** C4 (amended): the cost computation is rejected exactly when the task
    type is absent from the configuration's power mapping, whatever the
    duration, and such a task makes the mission run fail before any task is
    ordered or executed; for a known type and any duration, positive or not,
    the computation returns power * duration / 1000. *)
Theorem task_energy_rejects_unknown_types_only
    (config : RoverConfig) (task_type : string) (duration_hours : Q) :
  ((exists e, calculate_task_energy config task_type duration_hours = Raise e)
   <-> dict_mem (TASK_POWER config) task_type = false) /\
  (forall power_watts,
     dict_get (TASK_POWER config) task_type = Some power_watts ->
     calculate_task_energy config task_type duration_hours =
       Ok (power_watts * duration_hours / 1000)) /\
  (forall segment (self : MissionSimulator) (h : heap) (tasks : list ref)
          terrain velocity (t : ref),
     In t tasks ->
     dict_mem (TASK_POWER (SimulateMission.config self)) (SimulateMission.task_type (h t))
       = false ->
     exists e,
       run_mission_simulation segment self h tasks terrain velocity
       = Raise e).
Proof.
  split; [|split].
  - split.
    + intros [e He].
      destruct (dict_mem (TASK_POWER config) task_type) eqn:E;
        [|reflexivity].
      apply dict_mem_get in E. destruct E as [v Hv].
      rewrite (calculate_task_energy_known _ _ duration_hours Hv) in He.
      discriminate.
    + intro H. rewrite (calculate_task_energy_unknown _ _ _ H).
      eexists; reflexivity.
  - intros p Hp. now apply calculate_task_energy_known.
  - intros segment self h tasks terrain velocity t Hin Hunk.
    unfold run_mission_simulation, prepare_mission, bind.
    destruct terrain as [terrain_data|].
    + destruct (simulate_terrain_traversal segment
                  (reset_mission_state self) terrain_data velocity)
        as [[summary self1]|x] eqn:Et; [|eexists; reflexivity].
      simpl. unfold prioritize_tasks, bind.
      destruct (priority_keys_raises self1 tasks h t Hin) as [e He].
      * unfold simulate_terrain_traversal, bind in Et.
        destruct (traverse_rows _ _ _ _) as [[[a b] c]|]; [|discriminate].
        injection Et as _ <-. exact Hunk.
      * rewrite He. eexists; reflexivity.
    + simpl. unfold prioritize_tasks, bind.
      destruct (priority_keys_raises (reset_mission_state self) tasks h t Hin
                  Hunk) as [e He].
      rewrite He. eexists; reflexivity.
Qed.

Lemma task_energy_rejects_unknown_types_only_witness :
  exists e,
    run_mission_simulation draining_segment
      (MissionSimulator_init rover_config)
      (heap_of_list [T001; Task_init "T009" "flying" 1 5 5 "unknown"])
      [0; 1]%nat None None = Raise e.
Proof.
  apply (proj2 (proj2 (task_energy_rejects_unknown_types_only
                         rover_config "flying" 1))) with (t := 1%nat).
  - right. left. reflexivity.
  - reflexivity.
Defined.

End PolicyClaims.

(** ** The mission simulator: execution *)

Section ExecutionFacts.

Import SimulateMission.
Local Open Scope Q_scope.

(** *** One call of [execute_task] *)

Lemma execute_task_completed (self self' : MissionSimulator) (h h' : heap)
    (task : ref) :
  execute_task self h task = (true, self', h') ->
  can_execute_task self h task = true /\
  config self' = config self /\
  current_battery_level self' =
    current_battery_level self -
    energy_cost (h task) / BATTERY_CAPACITY (config self) /\
  completed_tasks self' = completed_tasks self ++ [task] /\
  deferred_tasks self' = deferred_tasks self /\
  h' = heap_set h task (set_completed (h task) true).
Proof.
  unfold execute_task.
  destruct (can_execute_task self h task); simpl; intro H.
  - injection H as <- <-. repeat split.
  - discriminate.
Qed.

Lemma execute_task_deferred (self self' : MissionSimulator) (h h' : heap)
    (task : ref) :
  execute_task self h task = (false, self', h') ->
  can_execute_task self h task = false /\
  self' = append_deferred self task /\
  h' = heap_set h task (set_deferred (h task) true).
Proof.
  unfold execute_task.
  destruct (can_execute_task self h task); simpl; intro H.
  - discriminate.
  - injection H as <- <-. repeat split.
Qed.

(** [execute_task] writes a flag of its task and nothing else. *)
Lemma execute_task_frame (self self' : MissionSimulator) (h h' : heap)
    (task : ref) (ok : bool) :
  execute_task self h task = (ok, self', h') ->
  (forall r, r <> task -> h' r = h r) /\
  (forall r, energy_cost (h' r) = energy_cost (h r)).
Proof.
  intro H.
  assert (Hh : h' = heap_set h task (set_completed (h task) true) \/
               h' = heap_set h task (set_deferred (h task) true)).
  { destruct ok.
    - left. now apply execute_task_completed in H.
    - right. now apply execute_task_deferred in H. }
  split.
  - intros r Hr. destruct Hh as [->| ->]; now apply heap_set_other.
  - intro r. destruct (Nat.eq_dec r task) as [->|Hne].
    + destruct Hh as [->| ->]; now rewrite heap_set_same.
    + destruct Hh as [->| ->]; now rewrite heap_set_other.
Qed.

Lemma can_execute_task_inv (self : MissionSimulator) (h : heap) (task : ref) :
  can_execute_task self h task = true ->
  is_critical_energy (config self) (current_battery_level self) = false /\
  energy_cost (h task) <=
    get_available_energy (config self) (current_battery_level self).
Proof.
  unfold can_execute_task.
  destruct (is_critical_energy _ _); [discriminate|].
  intro H. split; [reflexivity|now apply Qle_bool_iff].
Qed.

(** With exact arithmetic the test of [can_execute_task] keeps the reserve:
    a task of strictly positive energy cost that [execute_task] marks
    Completed leaves the level at or above the reserve ratio. *)
Lemma exact_arithmetic_keeps_reserve
    (self self' : MissionSimulator) (h h' : heap) (task : ref) :
  0 < BATTERY_CAPACITY (config self) ->
  0 < energy_cost (h task) ->
  execute_task self h task = (true, self', h') ->
  completed (h' task) = true /\
  current_battery_level self' ==
    current_battery_level self -
    energy_cost (h task) / BATTERY_CAPACITY (config self) /\
  ENERGY_RESERVE_RATIO (config self) <= current_battery_level self'.
Proof.
  intros Hcap Hpos H.
  apply execute_task_completed in H.
  destruct H as (Hcan & _ & Hb & _ & _ & ->).
  apply can_execute_task_inv in Hcan. destruct Hcan as [_ Hle].
  split; [now rewrite heap_set_same|].
  rewrite Hb. split; [reflexivity|].
  unfold get_available_energy in Hle.
  destruct (pymax_cases 0
              (BATTERY_CAPACITY (config self) * current_battery_level self -
               BATTERY_CAPACITY (config self) *
               ENERGY_RESERVE_RATIO (config self)))
    as [[_ Hm]|[_ Hm]]; rewrite Hm in Hle; [|lraQ].
  set (c := BATTERY_CAPACITY (config self)) in *.
  set (e := energy_cost (h task)) in *.
  set (b := current_battery_level self) in *.
  set (r := ENERGY_RESERVE_RATIO (config self)) in *.
  assert (Hdiv : e / c <= b - r).
  { apply Qle_shift_div_r; [assumption|]. lraQ. }
  lraQ.
Qed.

(** *** The bulk deferral *)

Lemma defer_all_inv (remaining : list ref) :
  forall (self self' : MissionSimulator) (h h' : heap),
    defer_all remaining self h = (self', h') ->
    config self' = config self /\
    current_battery_level self' = current_battery_level self /\
    completed_tasks self' = completed_tasks self /\
    mission_log self' = mission_log self /\
    (forall r, completed (h' r) = completed (h r)) /\
    (forall r, deferred (h r) = true -> deferred (h' r) = true) /\
    (forall r, In r (deferred_tasks self) -> In r (deferred_tasks self')) /\
    (forall r, In r remaining ->
               deferred (h' r) = true /\ In r (deferred_tasks self')).
Proof.
  induction remaining as [|t remaining IH]; simpl; intros self self' h h' H.
  - injection H as <- <-. repeat split; auto; contradiction.
  - apply IH in H.
    destruct H as (Hc & Hb & Hd & Hl & Hcomp & Hdef & Hin & Hrem).
    simpl in *.
    assert (Ht : deferred (h' t) = true).
    { apply Hdef. now rewrite heap_set_same. }
    assert (Hti : In t (deferred_tasks self')).
    { apply Hin. apply in_or_app. right. now left. }
    repeat split; auto.
    + intro r. rewrite Hcomp.
      destruct (Nat.eq_dec r t) as [->|Hne].
      * now rewrite heap_set_same.
      * now rewrite heap_set_other.
    + intros r Hr. apply Hdef.
      destruct (Nat.eq_dec r t) as [->|Hne].
      * now rewrite heap_set_same.
      * now rewrite heap_set_other.
    + intros r Hr. apply Hin. apply in_or_app. now left.
    + destruct H as [<-|H]; [assumption|now apply Hrem].
    + destruct H as [<-|H]; [assumption|now apply Hrem].
Qed.

(** *** The loop *)








(** *** Counting the completed tasks *)

Lemma get_available_energy_mono (config : RoverConfig) (b b' : Q) :
  0 <= BATTERY_CAPACITY config ->
  b <= b' ->
  get_available_energy config b <= get_available_energy config b'.
Proof.
  intros Hcap Hb. unfold get_available_energy.
  apply pymax_mono_r.
  assert (b * BATTERY_CAPACITY config <= b' * BATTERY_CAPACITY config)
    by (apply Qmult_le_compat_r; assumption).
  lraQ.
Qed.

Lemma loop_completed_count (prioritized todo : list ref) :
  forall (self : MissionSimulator) (h : heap),
    List.length
      (completed_tasks
         (fst (execute_in_priority_order prioritized todo self h))) =
    (List.length (completed_tasks self) +
     count_feasible (config self) (map (fun t => energy_cost (h t)) todo)
       (current_battery_level self))%nat.
Proof.
  induction todo as [|t todo IH]; simpl; intros self h.
  - now rewrite Nat.add_0_r.
  - destruct (is_critical_energy _ _) eqn:Ecrit.
    + destruct (defer_all (remaining_tasks h prioritized) self h)
        as [self' h'] eqn:Ed.
      apply defer_all_inv in Ed. destruct Ed as (_ & _ & Hc & _).
      simpl. now rewrite Hc, Nat.add_0_r.
    + destruct (execute_task self h t) as [[ok self2] h2] eqn:E.
      rewrite IH.
      rewrite (map_ext _ (fun t => energy_cost (h t)))
        by (intro r; apply (execute_task_frame _ _ _ E)).
      destruct ok.
      * apply execute_task_completed in E.
        destruct E as (Hcan & -> & -> & -> & _).
        apply can_execute_task_inv in Hcan. destruct Hcan as [_ Hle].
        apply Qle_bool_iff in Hle. rewrite Hle.
        rewrite length_app. simpl. lia.
      * apply execute_task_deferred in E. destruct E as (Hcan & -> & _).
        unfold can_execute_task in Hcan. rewrite Ecrit in Hcan.
        rewrite Hcan. reflexivity.
Qed.

Lemma completed_count_spec (config : RoverConfig) (b0 : Q)
    (ordered : list ref) (h : heap) :
  completed_count config b0 ordered h =
  count_feasible config (map (fun t => energy_cost (h t)) ordered) b0.
Proof. unfold completed_count. now rewrite loop_completed_count. Qed.

Lemma count_feasible_none (config : RoverConfig) (costs : list Q) (b : Q) :
  Forall (fun c => get_available_energy config b < c) costs ->
  count_feasible config costs b = 0%nat.
Proof.
  induction 1 as [|c costs Hc _ IH]; simpl; [reflexivity|].
  destruct (is_critical_energy config b); [reflexivity|].
  apply Qle_bool_false_iff in Hc. now rewrite Hc.
Qed.

Lemma count_feasible_mono (config : RoverConfig) (costs : list Q) :
  0 <= BATTERY_CAPACITY config ->
  StronglySorted Qle costs ->
  forall b b', b <= b' ->
    (count_feasible config costs b <= count_feasible config costs b')%nat.
Proof.
  intros Hcap Hs.
  induction Hs as [|c costs Hs IH Hc]; simpl; intros b b' Hb; [lia|].
  unfold is_critical_energy.
  destruct (Qle_bool b _) eqn:Eb; [lia|].
  destruct (Qle_bool b' _) eqn:Eb'.
  { apply Qle_bool_iff in Eb'. apply Qle_bool_false_iff in Eb. lraQ. }
  pose proof (get_available_energy_mono config Hcap Hb) as Hav.
  destruct (Qle_bool c (get_available_energy config b)) eqn:E.
  - apply Qle_bool_iff in E.
    assert (E' : Qle_bool c (get_available_energy config b') = true)
      by (apply Qle_bool_iff; lraQ).
    rewrite E'. apply le_n_S. apply IH. lraQ.
  - apply Qle_bool_false_iff in E.
    destruct (Qle_bool c (get_available_energy config b')).
    + rewrite count_feasible_none; [lia|].
      eapply Forall_impl; [|exact Hc]. intros c' Hc'. simpl in Hc'. lraQ.
    + now apply IH.
Qed.

Lemma StronglySorted_map (A B : Type) (f : A -> B) (R : B -> B -> Prop)
    (l : list A) :
  StronglySorted (fun x y => R (f x) (f y)) l -> StronglySorted R (map f l).
Proof.
  induction 1 as [|x l Hs IH Hx]; simpl; constructor; [assumption|].
  rewrite Forall_map. exact Hx.
Qed.

End ExecutionFacts.

(** ** The reserve on doubles (C10) *)

Section ReserveOnDoubles.

Import PrimFloat.
Local Open Scope float_scope.
Local Set Warnings "-inexact-float".

(** C10: on the doubles the program computes with, a completed task can
    leave the battery below the reserve ratio.  A new simulator with the
    shipped configuration costs a drilling task of 281.6 hours at
    33.792 kWh, which is also the available energy at level 1.0;
    [execute_task] completes the task and leaves the level
    1.0 - 0.8 = 0.19999999999999996 (0x1.9999999999998p-3), below the
    reserve ratio 0.2 (0x1.999999999999ap-3). *)
Theorem boundary_task_eats_into_reserve :
  let self := Doubles.MissionSimulator_init Doubles.rover_config in
  let task :=
    Doubles.Task_init "T003" "drilling" 281.6 9.0 15.0 "Mineral Deposit C" in
  exists cost task1 self' task',
    Doubles.calculate_task_priority self task = Ok (cost, task1) /\
    Doubles.energy_cost task1 = 33.792 /\
    (0 <? Doubles.energy_cost task1) = true /\
    Doubles.get_available_energy (Doubles.config self)
      (Doubles.current_battery_level self) = 33.792 /\
    Doubles.execute_task self task1 = (true, self', task') /\
    Doubles.completed task' = true /\
    Doubles.current_battery_level self' = 0x1.9999999999998p-3 /\
    (Doubles.current_battery_level self' <?
     Doubles.ENERGY_RESERVE_RATIO (Doubles.config self)) = true.
Proof.
  intros self task.
  eexists. eexists. eexists. eexists.
  split; [vm_compute; reflexivity|].
  split; [vm_compute; reflexivity|].
  split; [vm_compute; reflexivity|].
  split; [vm_compute; reflexivity|].
  split; [vm_compute; reflexivity|].
  split; [reflexivity|].
  split; vm_compute; reflexivity.
Qed.

End ReserveOnDoubles.

(** ** The benchmark harness: execution *)

Section BenchmarkFacts.

Import SimpleValidation.
Local Open Scope Q_scope.

Lemma simulate_completed (self : SimpleValidator) (ordered : list Task)
    (level : Q) :
  completed_tasks (simulate_task_execution self ordered level) =
  loop_completed
    (execute_loop ordered
       ([], usable_energy self level, terrain_energy self, 0)).
Proof.
  unfold simulate_task_execution.
  destruct (execute_loop _ _) as [[[a b] c] d]. reflexivity.
Qed.





Lemma execute_loop_count (ordered : list Task) :
  forall st,
    List.length (loop_completed (execute_loop ordered st)) =
    (List.length (loop_completed st) +
     count_within (map energy ordered) (loop_usable st))%nat.
Proof.
  induction ordered as [|t ordered IH]; simpl; intro st.
  - now rewrite Nat.add_0_r.
  - destruct st as [[[done u] used] rew].
    unfold loop_usable at 1. simpl.
    destruct (Qle_bool (energy t) u).
    + rewrite IH. unfold loop_completed, loop_usable. simpl.
      rewrite length_app. simpl. lia.
    + now rewrite IH.
Qed.

Lemma count_within_none (costs : list Q) (u : Q) :
  Forall (fun c => u < c) costs -> count_within costs u = 0%nat.
Proof.
  induction 1 as [|c costs Hc _ IH]; simpl; [reflexivity|].
  apply Qle_bool_false_iff in Hc. now rewrite Hc.
Qed.

Lemma count_within_mono (costs : list Q) :
  StronglySorted Qle costs ->
  forall u u', u <= u' ->
    (count_within costs u <= count_within costs u')%nat.
Proof.
  intro Hs.
  induction Hs as [|c costs Hs IH Hc]; simpl; intros u u' Hu; [lia|].
  destruct (Qle_bool c u) eqn:E.
  - apply Qle_bool_iff in E.
    assert (E' : Qle_bool c u' = true) by (apply Qle_bool_iff; lraQ).
    rewrite E'. apply le_n_S. apply IH. lraQ.
  - apply Qle_bool_false_iff in E.
    destruct (Qle_bool c u').
    + rewrite count_within_none; [lia|].
      eapply Forall_impl; [|exact Hc]. intros c' Hc'. simpl in Hc'. lraQ.
    + now apply IH.
Qed.

Lemma usable_energy_mono (self : SimpleValidator) (level level' : Q) :
  0 <= battery_capacity self ->
  reserve_ratio self <= 1 ->
  level <= level' ->
  usable_energy self level <= usable_energy self level'.
Proof.
  intros Hcap Hr Hl. unfold usable_energy.
  apply pymax_mono_r.
  set (c := battery_capacity self) in *.
  set (r := reserve_ratio self) in *.
  set (e := terrain_energy self).
  assert (H1 : level * c <= level' * c)
    by (apply Qmult_le_compat_r; assumption).
  assert (H2 : (c * level - e) * (1 - r) <= (c * level' - e) * (1 - r))
    by (apply Qmult_le_compat_r; lraQ).
  lraQ.
Qed.



End BenchmarkFacts.

(** ** Greedy execution and available energy (C2, C3) *)

Section GreedyClaims.

Import SimulateMission.
Local Open Scope Q_scope.

(** C2, as stated, fails.  With the tasks in the order 12, 5, 5 kWh the
    engine completes two tasks from a battery level of 0.48 (the first does
    not fit, the other two do) and one task from 0.60 (the first fits and
    leaves too little); both levels are above the critical threshold.  The
    benchmark's execution loop does the same between levels 0.10 and
    0.15. *)
Lemma completed_count_drops_with_more_energy :
  CRITICAL_ENERGY_THRESHOLD rover_config <= 48 # 100 /\
  48 # 100 <= 60 # 100 /\
  completed_count rover_config (48 # 100) [0; 1; 2]%nat heavy_first_heap
    = 2%nat /\
  completed_count rover_config (60 # 100) [0; 1; 2]%nat heavy_first_heap
    = 1%nat /\
  List.length
    (SimpleValidation.completed_tasks
       (SimpleValidation.simulate_task_execution
          (SimpleValidation.SimpleValidator_init 1000) heavy_first_tasks
          (10 # 100))) = 2%nat /\
  List.length
    (SimpleValidation.completed_tasks
       (SimpleValidation.simulate_task_execution
          (SimpleValidation.SimpleValidator_init 1000) heavy_first_tasks
          (15 # 100))) = 1%nat.
Proof.
  split; [vm_compute; discriminate|].
  split; [vm_compute; discriminate|].
  repeat split; vm_compute; reflexivity.
Qed.

(** C2 (amended): for a task sequence in ascending order of energy cost,
    the number of tasks marked Completed does not decrease when the initial
    battery level is raised; so for the mission engine, and for the
    benchmark's execution loop, whose EnergyGreedy policy produces such an
    order. *)
Theorem completed_count_monotone_on_ascending_costs :
  (forall (config : RoverConfig) (h : heap) (ordered : list ref) (b b' : Q),
     0 <= BATTERY_CAPACITY config ->
     StronglySorted (fun x y => energy_cost (h x) <= energy_cost (h y))
       ordered ->
     b <= b' ->
     (completed_count config b ordered h <=
      completed_count config b' ordered h)%nat) /\
  (forall (self : SimpleValidation.SimpleValidator)
          (ordered : list SimpleValidation.Task) (level level' : Q),
     0 <= SimpleValidation.battery_capacity self ->
     SimpleValidation.reserve_ratio self <= 1 ->
     StronglySorted
       (fun x y => SimpleValidation.energy x <= SimpleValidation.energy y)
       ordered ->
     level <= level' ->
     (List.length
        (SimpleValidation.completed_tasks
           (SimpleValidation.simulate_task_execution self ordered level)) <=
      List.length
        (SimpleValidation.completed_tasks
           (SimpleValidation.simulate_task_execution self ordered level')))
     %nat) /\
  (forall (tasks : list SimpleValidation.Task),
     StronglySorted
       (fun x y => SimpleValidation.energy x <= SimpleValidation.energy y)
       (SimpleValidation.energy_greedy_scheduler tasks)).
Proof.
  split; [|split].
  - intros config h ordered b b' Hcap Hs Hb.
    rewrite !completed_count_spec.
    apply count_feasible_mono; [assumption| |assumption].
    now apply StronglySorted_map.
  - intros self ordered level level' Hcap Hr Hs Hl.
    rewrite !simulate_completed, !execute_loop_count.
    unfold loop_completed, loop_usable. simpl.
    apply count_within_mono.
    + now apply StronglySorted_map.
    + now apply usable_energy_mono.
  - intro tasks. apply py_sorted_ascending.
Qed.

Lemma completed_count_monotone_on_ascending_costs_witness :
  (completed_count rover_config (48 # 100) [1; 2; 0]%nat heavy_first_heap <=
   completed_count rover_config (60 # 100) [1; 2; 0]%nat heavy_first_heap)
  %nat.
Proof.
  apply (proj1 completed_count_monotone_on_ascending_costs).
  - vm_compute. discriminate.
  - repeat constructor; vm_compute; discriminate.
  - vm_compute. discriminate.
Defined.



End GreedyClaims.

(** ** Scenario generation (C7) *)

Section ScenarioFacts.

Import SimpleValidation.
Local Open Scope Q_scope.

Lemma fold_energy_sum (tasks : list Task) :
  forall acc,
    fold_left (fun acc t => acc + energy t) tasks acc ==
    acc + sum_energy tasks.
Proof.
  induction tasks as [|t tasks IH]; simpl; intro acc.
  - ring.
  - rewrite IH. ring.
Qed.

Lemma total_task_energy_sum (tasks : list Task) :
  total_task_energy tasks == sum_energy tasks.
Proof. unfold total_task_energy. rewrite fold_energy_sum. ring. Qed.

Lemma sum_energy_scaled (f : Q) (tasks : list Task) :
  sum_energy (map (scale_task f) tasks) == sum_energy tasks * f.
Proof.
  induction tasks as [|t tasks IH]; simpl.
  - ring.
  - rewrite IH. ring.
Qed.

Lemma sum_energy_lower_bound (c : Q) (tasks : list Task) :
  0 <= c ->
  Forall (fun t => c <= energy t) tasks ->
  forall n, (n <= List.length tasks)%nat ->
            inject_Z (Z.of_nat n) * c <= sum_energy tasks.
Proof.
  intros Hc Hall.
  induction Hall as [|t tasks Ht _ IH]; simpl; intros n Hn.
  - assert (n = 0%nat) by lia. subst n.
    change (inject_Z (Z.of_nat 0)) with 0. lraQ.
  - destruct n as [|n].
    + change (inject_Z (Z.of_nat 0)) with 0.
      assert (0 <= sum_energy tasks).
      { specialize (IH 0%nat ltac:(lia)).
        change (inject_Z (Z.of_nat 0)) with 0 in IH. lraQ. }
      lraQ.
    + specialize (IH n). assert (Hn' : (n <= List.length tasks)%nat) by lia.
      specialize (IH Hn').
      rewrite Nat2Z.inj_succ. unfold Z.succ. rewrite inject_Z_plus.
      assert (E : (inject_Z (Z.of_nat n) + inject_Z 1) * c ==
                  inject_Z (Z.of_nat n) * c + c) by ring.
      rewrite E. lraQ.
Qed.

Lemma power_map_get_in_range (num_trials : nat) (k : Z) :
  (1 <= k <= 6)%Z ->
  exists p,
    power_map_get (power_map (SimpleValidator_init num_trials)) k = Ok p /\
    25 <= p.
Proof.
  intro Hk.
  assert (H : (k = 1 \/ k = 2 \/ k = 3 \/ k = 4 \/ k = 5 \/ k = 6)%Z) by lia.
  destruct H as [->|[->|[->|[->|[->| ->]]]]];
    eexists; (split; [reflexivity|vm_compute; discriminate]).
Qed.

Lemma synthesize_tasks_ok (num_trials : nat) (draws : list TaskDraw) :
  Forall task_draw_ok draws ->
  forall i acc_tasks acc_energy,
  exists new,
    synthesize_tasks (SimpleValidator_init num_trials) i draws
      (acc_tasks, acc_energy) =
    Ok (acc_tasks ++ new,
        fold_left (fun acc t => acc + energy t) new acc_energy) /\
    List.length new = List.length draws /\
    Forall (fun t => 25 # 1000 <= energy t) new.
Proof.
  induction 1 as [|d draws Hd _ IH]; intros i acc_tasks acc_energy.
  - exists []. simpl. rewrite app_nil_r. repeat split. constructor.
  - destruct Hd as (Hk & (Hd0 & Hd1) & _ & _).
    destruct (power_map_get_in_range num_trials Hk) as (p & Hp & Hp25).
    cbn [synthesize_tasks]. rewrite Hp. cbn [bind].
    match goal with
    | |- context [synthesize_tasks _ _ _ (acc_tasks ++ [?t], ?e)] =>
        destruct (IH (S i) (acc_tasks ++ [t]) e) as (new & Hs & Hlen & Hall);
        exists (t :: new)
    end.
    rewrite Hs. rewrite <- app_assoc. simpl.
    split; [reflexivity|]. split; [now rewrite Hlen|].
    constructor; [|exact Hall].
    simpl. unfold Qdiv. change (/ 1000) with (1 # 1000).
    assert (Hm : 0 <= (p - 25) * (1 + draw_duration d * 6))
      by (apply Qmult_le_0_compat; lraQ).
    lraQ.
Qed.

Lemma usable_energy_positive (num_trials : nat) (r : Q) :
  0 <= r ->
  0 < usable_energy (SimpleValidator_init num_trials)
        ((5 # 100) + r * (15 # 100)).
Proof.
  intro Hr. unfold usable_energy. simpl.
  match goal with
  | |- 0 < pymax 0 ?x =>
      assert (Hx : 0 < x) by lraQ;
      destruct (pymax_cases 0 x) as [[_ ->]|[Hle _]]; [exact Hx|lraQ]
  end.
Qed.

(** C7: for every scenario the generator produces (its random draws within
    the ranges of [random.random] and [random.randint]), the total task
    energy after the rescaling step strictly exceeds the usable energy of
    the scenario. *)
Theorem generated_scenario_exceeds_usable_energy
    (num_trials : nat) (draws : ScenarioDraws) :
  draws_ok draws ->
  exists scenario,
    generate_random_scenario (SimpleValidator_init num_trials) draws
      = Ok scenario /\
    List.length (tasks scenario) = List.length (draw_tasks draws) /\
    usable_energy (SimpleValidator_init num_trials) (energy_level scenario) <
    total_task_energy (tasks scenario).
Proof.
  intros ((Hr0 & Hr1) & (Hlen & _) & Hall).
  unfold generate_random_scenario.
  destruct (synthesize_tasks_ok num_trials Hall 0 [] 0)
    as (new & Hs & Hn & Hge).
  rewrite Hs. cbn [bind app].
  change (fold_left (fun acc t => acc + energy t) new 0)
    with (total_task_energy new).
  set (u := usable_energy (SimpleValidator_init num_trials)
              ((5 # 100) + draw_energy_level draws * (15 # 100))).
  assert (Hu : 0 < u) by (apply usable_energy_positive; assumption).
  assert (Htot : 3 # 10 <= total_task_energy new).
  { rewrite total_task_energy_sum.
    pose proof (@sum_energy_lower_bound (25 # 1000) new) as Hb.
    specialize (Hb ltac:(lraQ) Hge 12%nat ltac:(lia)).
    assert (E : inject_Z (Z.of_nat 12) * (25 # 1000) == 3 # 10)
      by reflexivity.
    rewrite E in Hb. exact Hb. }
  destruct (Qle_bool (total_task_energy new) (u * 2)) eqn:Escale.
  - eexists. split; [reflexivity|]. cbn [tasks energy_level].
    split; [now rewrite length_map|].
    fold u.
    rewrite total_task_energy_sum, sum_energy_scaled,
      <- total_task_energy_sum.
    destruct (pymax_cases (total_task_energy new) (1 # 10))
      as [[Hlt _]|[_ ->]]; [lraQ|].
    assert (E : total_task_energy new * (u * 3 / total_task_energy new)
                == u * 3) by (field; lraQ).
    rewrite E. lraQ.
  - eexists. split; [reflexivity|]. cbn [tasks energy_level].
    split; [exact Hn|].
    fold u. apply Qle_bool_false_iff in Escale. lraQ.
Qed.

Lemma even_draws_ok : draws_ok even_draws.
Proof.
  assert (Hu : unit_interval (1 # 2))
    by (split; [vm_compute; discriminate|reflexivity]).
  split; [exact Hu|]. split; [simpl; lia|].
  apply Forall_forall. intros d Hd.
  apply repeat_spec in Hd. subst d.
  split; [simpl; lia|]. simpl. auto.
Qed.

Lemma generated_scenario_exceeds_usable_energy_witness :
  exists scenario,
    generate_random_scenario (SimpleValidator_init 1000) even_draws
      = Ok scenario /\
    List.length (tasks scenario) = List.length (draw_tasks even_draws) /\
    usable_energy (SimpleValidator_init 1000) (energy_level scenario) <
    total_task_energy (tasks scenario).
Proof.
  apply (@generated_scenario_exceeds_usable_energy 1000 even_draws).
  exact even_draws_ok.
Defined.

End ScenarioFacts.

(** ** Effect size (C9) *)

Section EffectSizeFacts.

Import SimpleValidation.
Local Open Scope R_scope.

Lemma length_nonempty (A : Type) (l : list A) :
  l <> [] -> Nat.eqb (List.length l) 0 = false.
Proof. destruct l; [contradiction|reflexivity]. Qed.

(** The code's mean and variance are the arithmetic mean and the sample
    variance. *)
Lemma Rsum_is_total (data : list R) : Rsum data = Spec.total data.
Proof.
  induction data as [|x data IH]; simpl; [reflexivity|].
  now rewrite <- IH.
Qed.

Lemma mean_is_arithmetic_mean (data : list R) :
  mean data = Spec.arithmetic_mean data.
Proof.
  unfold mean, Spec.arithmetic_mean. now rewrite Rsum_is_total.
Qed.

Lemma Rsum_squares_is_squared_deviations (m : R) (data : list R) :
  Rsum (map (fun x => (x - m) * (x - m)) data) =
  Spec.squared_deviations m data.
Proof.
  induction data as [|x data IH]; simpl; [reflexivity|].
  rewrite <- IH. unfold Rsum. ring.
Qed.

Lemma group_variance_is_sample_variance (group : list R) :
  group <> [] -> group_variance group = Spec.sample_variance group.
Proof.
  intro Hne. destruct group as [|x [|y group]]; [contradiction|reflexivity|].
  unfold group_variance, variance, Spec.sample_variance.
  change (Nat.eqb (List.length (x :: y :: group)) 1) with false. cbv iota.
  now rewrite Rsum_squares_is_squared_deviations, mean_is_arithmetic_mean.
Qed.

(** C9: for two non-empty sample lists, Cohen's d is
    (mean1 - mean2) / sqrt((var1 + var2) / 2), with the arithmetic means
    and the sample variances of the two lists (0 for a list of one sample),
    and 0 when that pooled standard deviation is 0; on two identical lists
    it is 0. *)
Theorem cohens_d_is_standardized_mean_difference (group1 group2 : list R) :
  group1 <> [] ->
  group2 <> [] ->
  let mean1 := Spec.arithmetic_mean group1 in
  let mean2 := Spec.arithmetic_mean group2 in
  let pooled_std := Spec.pooled_std group1 group2 in
  (pooled_std <> 0 ->
   calculate_cohens_d group1 group2 = (mean1 - mean2) / pooled_std) /\
  (pooled_std = 0 -> calculate_cohens_d group1 group2 = 0) /\
  calculate_cohens_d group1 group1 = 0.
Proof.
  intros H1 H2 mean1 mean2 pooled_std. subst mean1 mean2 pooled_std.
  unfold calculate_cohens_d, Spec.pooled_std.
  rewrite (length_nonempty H1), (length_nonempty H2). simpl.
  rewrite !mean_is_arithmetic_mean.
  rewrite (group_variance_is_sample_variance H1),
    (group_variance_is_sample_variance H2).
  split; [|split].
  - intro Hp. destruct (Req_dec_T _ 0) as [E|E]; [contradiction|reflexivity].
  - intro Hp. destruct (Req_dec_T _ 0) as [E|E]; [reflexivity|contradiction].
  - destruct (Req_dec_T _ 0) as [E|E]; [reflexivity|].
    unfold Rdiv. ring.
Qed.

(** The samples 1, 2, 3 (mean 2, variance 1) against 2, 4 (mean 3,
    variance 2). *)
Lemma cohens_d_is_standardized_mean_difference_witness :
  Spec.arithmetic_mean [1; 2; 3] = 2 /\
  Spec.arithmetic_mean [2; 4] = 3 /\
  Spec.sample_variance [1; 2; 3] = 1 /\
  Spec.sample_variance [2; 4] = 2 /\
  calculate_cohens_d [1; 2; 3] [2; 4] = (2 - 3) / sqrt ((1 + 2) / 2) /\
  calculate_cohens_d [1; 2; 3] [1; 2; 3] = 0.
Proof.
  assert (M1 : Spec.arithmetic_mean [1; 2; 3] = 2)
    by (unfold Spec.arithmetic_mean; simpl; field).
  assert (M2 : Spec.arithmetic_mean [2; 4] = 3)
    by (unfold Spec.arithmetic_mean; simpl; field).
  assert (V1 : Spec.sample_variance [1; 2; 3] = 1)
    by (unfold Spec.sample_variance; rewrite M1; simpl; field).
  assert (V2 : Spec.sample_variance [2; 4] = 2)
    by (unfold Spec.sample_variance; rewrite M2; simpl; field).
  destruct (@cohens_d_is_standardized_mean_difference [1; 2; 3] [2; 4])
    as (Hd & _ & H0); [discriminate|discriminate|].
  unfold Spec.pooled_std in Hd. rewrite M1, M2, V1, V2 in Hd.
  repeat split; try assumption.
  apply Hd.
  assert (Hs : 0 < sqrt ((1 + 2) / 2)) by (apply sqrt_lt_R0; lraR).
  lraR.
Defined.

End EffectSizeFacts.

(** * Further properties of the code *)

(** ** The energy model: forces, power, segment energy *)

Section EnergyModelMore.

Import EnergyModel.
Local Open Scope R_scope.

Lemma radians_opp (degrees : R) : radians (- degrees) = - radians degrees.
Proof. unfold radians. field. Qed.

Lemma radians_0 : radians 0 = 0.
Proof. unfold radians. field. Qed.

Lemma Q2R_nonneg (q : Q) : (0 <= q)%Q -> 0 <= Q2R q.
Proof.
  intro H. apply Qle_Rle in H.
  replace (Q2R 0) with 0 in H by (unfold Q2R; simpl; lraR). exact H.
Qed.

Lemma Q2R_positive (q : Q) : (0 < q)%Q -> 0 < Q2R q.
Proof.
  intro H. apply Qlt_Rlt in H.
  replace (Q2R 0) with 0 in H by (unfold Q2R; simpl; lraR). exact H.
Qed.

Lemma slope_force_opp (config : RoverConfig) (slope : R) (mass : option R) :
  calculate_slope_force config (- slope) mass =
  - calculate_slope_force config slope mass.
Proof.
  unfold calculate_slope_force. rewrite radians_opp, sin_neg. ring.
Qed.

Lemma power_linear_in_velocity (config : RoverConfig)
    (slope velocity rough : R) (mass : option R) :
  calculate_power_consumption config slope velocity rough mass =
  velocity * calculate_power_consumption config slope 1 rough mass.
Proof.
  unfold calculate_power_consumption, calculate_roughness_penalty.
  unfold Rdiv. ring.
Qed.

(** X1: the slope force is an odd function of the slope angle and vanishes
    on flat ground: a descent gives the opposite force of the same climb. *)
Theorem slope_force_is_odd (config : RoverConfig) (slope : R)
    (mass : option R) :
  calculate_slope_force config (- slope) mass =
    - calculate_slope_force config slope mass /\
  calculate_slope_force config 0 mass = 0.
Proof.
  split.
  - apply slope_force_opp.
  - unfold calculate_slope_force. rewrite radians_0, sin_0. ring.
Qed.

(** X2: the rolling resistance is the same on a climb and on the descent of
    the same angle, and on no slope is it larger than on flat ground. *)
Theorem rolling_resistance_even_and_largest_when_flat
    (config : RoverConfig) (mass slope : R) :
  (0 <= ROLLING_RESISTANCE_COEFF config)%Q ->
  (0 <= GRAVITY_MARS config)%Q ->
  0 <= mass ->
  calculate_rolling_resistance config (Some mass) (- slope) =
    calculate_rolling_resistance config (Some mass) slope /\
  calculate_rolling_resistance config (Some mass) slope <=
    calculate_rolling_resistance config (Some mass) 0 /\
  calculate_rolling_resistance config (Some mass) 0 =
    Q2R (ROLLING_RESISTANCE_COEFF config) * mass * Q2R (GRAVITY_MARS config).
Proof.
  intros Hmu Hg Hm.
  apply Q2R_nonneg in Hmu. apply Q2R_nonneg in Hg.
  unfold calculate_rolling_resistance, mass_or_default.
  rewrite radians_opp, cos_neg, radians_0, cos_0.
  split; [reflexivity|]. split; [|ring].
  pose proof (COS_bound (radians slope)) as [_ Hc].
  assert (Hk : 0 <= Q2R (ROLLING_RESISTANCE_COEFF config) *
                    (mass * Q2R (GRAVITY_MARS config))).
  { apply Rmult_le_pos; [assumption|]. now apply Rmult_le_pos. }
  replace (Q2R (ROLLING_RESISTANCE_COEFF config) *
           (mass * Q2R (GRAVITY_MARS config) * cos (radians slope)))
    with (Q2R (ROLLING_RESISTANCE_COEFF config) *
          (mass * Q2R (GRAVITY_MARS config)) * cos (radians slope)) by ring.
  replace (Q2R (ROLLING_RESISTANCE_COEFF config) *
           (mass * Q2R (GRAVITY_MARS config) * 1))
    with (Q2R (ROLLING_RESISTANCE_COEFF config) *
          (mass * Q2R (GRAVITY_MARS config)) * 1) by ring.
  apply Rmult_le_compat_l; assumption.
Qed.

Lemma rolling_resistance_even_and_largest_when_flat_witness :
  calculate_rolling_resistance rover_config (Some 899) (- 25) =
    calculate_rolling_resistance rover_config (Some 899) 25 /\
  calculate_rolling_resistance rover_config (Some 899) 25 <=
    calculate_rolling_resistance rover_config (Some 899) 0 /\
  calculate_rolling_resistance rover_config (Some 899) 0 =
    Q2R (ROLLING_RESISTANCE_COEFF rover_config) * 899 *
    Q2R (GRAVITY_MARS rover_config).
Proof.
  apply (@rolling_resistance_even_and_largest_when_flat rover_config 899 25).
  - unfold Qle; simpl; lia.
  - unfold Qle; simpl; lia.
  - lraR.
Defined.

(** X3: the power drawn does not tell a descent from a climb of the same
    angle (the slope force enters by its absolute value), and it is
    proportional to the velocity. *)
Theorem power_ignores_slope_sign_and_scales_with_velocity
    (config : RoverConfig) (slope velocity rough : R) (mass : option R) :
  calculate_power_consumption config (- slope) velocity rough mass =
    calculate_power_consumption config slope velocity rough mass /\
  calculate_power_consumption config slope velocity rough mass =
    velocity * calculate_power_consumption config slope 1 rough mass.
Proof.
  split.
  - unfold calculate_power_consumption, calculate_roughness_penalty.
    rewrite slope_force_opp, Rabs_Ropp.
    unfold calculate_rolling_resistance.
    now rewrite radians_opp, cos_neg.
  - apply power_linear_in_velocity.
Qed.

(** X4: on slopes between -90 and 90 degrees the power drawn is never
    negative, for a non-negative velocity, roughness and mass and positive
    efficiencies. *)
Theorem power_consumption_nonneg
    (config : RoverConfig) (slope velocity rough mass : R) :
  (0 <= ROLLING_RESISTANCE_COEFF config)%Q ->
  (0 <= GRAVITY_MARS config)%Q ->
  (0 < MOTOR_EFFICIENCY config)%Q ->
  (0 < DRIVETRAIN_EFFICIENCY config)%Q ->
  0 <= mass -> 0 <= velocity -> 0 <= rough ->
  -90 <= slope <= 90 ->
  0 <= calculate_power_consumption config slope velocity rough (Some mass).
Proof.
  intros Hmu Hg He1 He2 Hm Hv Hr Hs.
  apply Q2R_nonneg in Hmu. apply Q2R_nonneg in Hg.
  apply Q2R_positive in He1. apply Q2R_positive in He2.
  unfold calculate_power_consumption, calculate_roughness_penalty,
    calculate_rolling_resistance, mass_or_default.
  destruct (radians_quarter_turn Hs) as [Hlo Hhi].
  pose proof (cos_ge_0 _ Hlo Hhi) as Hcos.
  apply Rmult_le_pos.
  - apply Rplus_le_le_0_compat.
    + apply Rmult_le_pos; [|assumption].
      apply Rplus_le_le_0_compat; [apply Rabs_pos|].
      apply Rmult_le_pos; [assumption|].
      apply Rmult_le_pos; [|assumption].
      now apply Rmult_le_pos.
    + apply Rmult_le_pos; [|lraR]. now apply Rmult_le_pos.
  - apply Rlt_le, Rinv_0_lt_compat. now apply Rmult_lt_0_compat.
Qed.

Lemma power_consumption_nonneg_witness :
  0 <= calculate_power_consumption rover_config 10 (42 / 1000) (1 / 10)
         (Some 899).
Proof.
  apply (@power_consumption_nonneg rover_config 10 (42 / 1000) (1 / 10) 899);
    try (unfold Qle; simpl; lia); try reflexivity; lraR.
Defined.

(** X5: the energy of a segment does not depend on the velocity it is
    driven at: for every positive velocity it is the power at unit velocity
    times the distance, divided by 3.6e6; the time is inversely
    proportional to the velocity. *)
Theorem segment_energy_independent_of_velocity
    (config : RoverConfig) (distance slope velocity rough : R)
    (mass : option R) :
  0 < velocity ->
  exists b,
    calculate_energy_consumption config distance slope velocity rough mass
      = Ok b /\
    energy_kwh b =
      calculate_power_consumption config slope 1 rough mass * distance /
      3600000 /\
    time_hours b * velocity = distance / 3600 /\
    distance_m b = distance.
Proof.
  intro Hv. unfold calculate_energy_consumption.
  destruct (Rle_dec velocity 0) as [H|_]; [lraR|].
  eexists. split; [reflexivity|]. simpl.
  rewrite (power_linear_in_velocity config slope velocity rough mass).
  repeat split; field; lraR.
Qed.

Lemma segment_energy_independent_of_velocity_witness :
  exists b,
    calculate_energy_consumption rover_config 100 10 (42 / 1000) (1 / 10)
      None = Ok b /\
    energy_kwh b =
      calculate_power_consumption rover_config 10 1 (1 / 10) None * 100 /
      3600000 /\
    time_hours b * (42 / 1000) = 100 / 3600 /\
    distance_m b = 100.
Proof.
  apply (@segment_energy_independent_of_velocity
           rover_config 100 10 (42 / 1000) (1 / 10) None).
  lraR.
Defined.

End EnergyModelMore.

(** ** The energy model: the mission estimate *)

Section MissionEstimateFacts.

Import EnergyModel MissionEstimate.
Local Open Scope R_scope.

Lemma calculate_energy_consumption_ok_iff (config : RoverConfig)
    (distance slope velocity rough : R) (mass : option R) :
  (exists b,
     calculate_energy_consumption config distance slope velocity rough mass
     = Ok b) <-> 0 < velocity.
Proof.
  unfold calculate_energy_consumption.
  destruct (Rle_dec velocity 0) as [H|H].
  - split; [intros [b Hb]; discriminate|intro; lraR].
  - split; [intros _; lraR|intros _; eexists; reflexivity].
Qed.

Lemma calculate_task_energy_ok_iff (config : RoverConfig)
    (task_type : string) (duration_hours : Q) :
  (exists e, calculate_task_energy config task_type duration_hours = Ok e)
  <-> dict_mem (TASK_POWER config) task_type = true.
Proof.
  split.
  - intros [e He].
    destruct (dict_mem (TASK_POWER config) task_type) eqn:E; [reflexivity|].
    rewrite (calculate_task_energy_unknown _ _ _ E) in He. discriminate.
  - intro H. apply dict_mem_get in H. destruct H as [p Hp].
    rewrite (calculate_task_energy_known _ _ duration_hours Hp).
    eexists; reflexivity.
Qed.

Lemma movement_loop_ok_iff (config : RoverConfig)
    (segments : list SegmentParams) :
  forall acc,
    (exists r, movement_loop config segments acc = Ok r) <->
    Forall (fun s => 0 < segment_velocity config s) segments.
Proof.
  induction segments as [|s segments IH]; simpl; intro acc.
  - split; [constructor|intros _; eexists; reflexivity].
  - unfold bind.
    destruct (calculate_energy_consumption config (seg_distance s)
                (get_or (seg_slope_degrees s) 0) (segment_velocity config s)
                (get_or (seg_roughness s) 0) None) as [b|x] eqn:E.
    + assert (Hv : 0 < segment_velocity config s)
        by (apply (calculate_energy_consumption_ok_iff config
                     (seg_distance s) (get_or (seg_slope_degrees s) 0)
                     (segment_velocity config s)
                     (get_or (seg_roughness s) 0) None);
            now exists b).
      rewrite IH. split.
      * intro H. now constructor.
      * intro H. now inversion H.
    + split.
      * intros [r Hr]. discriminate.
      * intro H. inversion H as [|? ? Hv _]; subst.
        apply (calculate_energy_consumption_ok_iff config
                 (seg_distance s) (get_or (seg_slope_degrees s) 0)
                 (segment_velocity config s)
                 (get_or (seg_roughness s) 0) None) in Hv.
        destruct Hv as [b Hb]. congruence.
Qed.

Lemma task_loop_ok_iff (config : RoverConfig) (tasks : list TaskParams) :
  forall acc,
    (exists r, task_loop config tasks acc = Ok r) <->
    Forall (fun t => dict_mem (TASK_POWER config) (tp_type t) = true) tasks.
Proof.
  induction tasks as [|t tasks IH]; simpl; intro acc.
  - split; [constructor|intros _; eexists; reflexivity].
  - unfold bind.
    destruct (calculate_task_energy config (tp_type t) (tp_duration_hours t))
      as [e|x] eqn:E.
    + assert (Hk : dict_mem (TASK_POWER config) (tp_type t) = true)
        by (apply (calculate_task_energy_ok_iff config (tp_type t)
                     (tp_duration_hours t)); now exists e).
      rewrite IH. split.
      * intro H. now constructor.
      * intro H. now inversion H.
    + split.
      * intros [r Hr]. discriminate.
      * intro H. inversion H as [|? ? Hk _]; subst.
        apply (calculate_task_energy_ok_iff config (tp_type t)
                 (tp_duration_hours t)) in Hk.
        destruct Hk as [e He]. congruence.
Qed.

(** X6: the mission estimate returns a result exactly when every segment
    is driven at a positive velocity (its own, or the nominal one when it
    gives none) and every task type is in the power mapping; otherwise it
    raises.  In a result the total is the movement energy plus the task
    energy. *)
Theorem estimate_mission_energy_succeeds_iff
    (config : RoverConfig) (segments : list SegmentParams)
    (tasks : list TaskParams) :
  ((exists r, estimate_mission_energy config segments tasks = Ok r) <->
   Forall (fun s => 0 < segment_velocity config s) segments /\
   Forall (fun t => dict_mem (TASK_POWER config) (tp_type t) = true) tasks) /\
  (forall r,
     estimate_mission_energy config segments tasks = Ok r ->
     total_energy_kwh r = movement_energy_kwh r + task_energy_kwh r /\
     battery_usage_percent r =
       total_energy_kwh r / Q2R (BATTERY_CAPACITY config) * 100).
Proof.
  unfold estimate_mission_energy, bind. split.
  - split.
    + intros [r Hr].
      destruct (movement_loop config segments (0, 0)) as [m|x] eqn:Em;
        [|discriminate].
      destruct (task_loop config tasks (0, snd m)) as [t|x] eqn:Et;
        [|discriminate].
      split.
      * apply (movement_loop_ok_iff config segments (0, 0)). now exists m.
      * apply (task_loop_ok_iff config tasks (0, snd m)). now exists t.
    + intros [Hs Ht].
      apply (movement_loop_ok_iff config segments (0, 0)) in Hs.
      destruct Hs as [m ->].
      apply (task_loop_ok_iff config tasks (0, snd m)) in Ht.
      destruct Ht as [t ->]. eexists; reflexivity.
  - intros r Hr.
    destruct (movement_loop config segments (0, 0)) as [m|x]; [|discriminate].
    destruct (task_loop config tasks (0, snd m)) as [t|x]; [|discriminate].
    injection Hr as <-. simpl. split; reflexivity.
Qed.

Lemma movement_loop_sums (config : RoverConfig)
    (segments : list SegmentParams) :
  forall acc r,
    movement_loop config segments acc = Ok r ->
    fst r =
      fst acc +
      SimpleValidation.Rsum
        (map (fun s =>
                calculate_power_consumption config
                  (get_or (seg_slope_degrees s) 0) 1
                  (get_or (seg_roughness s) 0) None *
                seg_distance s / 3600000) segments) /\
    snd r =
      snd acc +
      SimpleValidation.Rsum
        (map (fun s => seg_distance s / (segment_velocity config s * 3600))
           segments).
Proof.
  induction segments as [|s segments IH]; simpl; intros acc r H.
  - injection H as <-. split; ring.
  - unfold bind in H.
    destruct (calculate_energy_consumption config (seg_distance s)
                (get_or (seg_slope_degrees s) 0) (segment_velocity config s)
                (get_or (seg_roughness s) 0) None) as [b|x] eqn:E;
      [|discriminate].
    assert (Hv : 0 < segment_velocity config s)
      by (apply (calculate_energy_consumption_ok_iff config
                   (seg_distance s) (get_or (seg_slope_degrees s) 0)
                   (segment_velocity config s)
                   (get_or (seg_roughness s) 0) None);
          now exists b).
    unfold calculate_energy_consumption in E.
    destruct (Rle_dec (segment_velocity config s) 0) as [Hle|_]; [lraR|].
    injection E as <-. simpl in H.
    destruct (IH _ _ H) as [-> ->]. simpl.
    rewrite (power_linear_in_velocity config _ (segment_velocity config s)).
    split; field; lraR.
Qed.

Lemma task_loop_sums (config : RoverConfig) (tasks : list TaskParams) :
  forall acc r,
    task_loop config tasks acc = Ok r ->
    snd r =
      snd acc +
      SimpleValidation.Rsum
        (map (fun t => Q2R (tp_duration_hours t)) tasks).
Proof.
  induction tasks as [|t tasks IH]; simpl; intros acc r H.
  - injection H as <-. ring.
  - unfold bind in H.
    destruct (calculate_task_energy config (tp_type t) (tp_duration_hours t))
      as [e|x]; [|discriminate].
    rewrite (IH _ _ H). simpl. ring.
Qed.

(** X7: the movement energy of a mission estimate is the sum, over the
    segments, of the power at unit velocity times the distance divided by
    3.6e6; it does not depend on the velocities the segments are driven at.
    The total time is the driving time of the segments plus the durations of
    the tasks. *)
Theorem estimate_movement_energy_closed_form
    (config : RoverConfig) (segments : list SegmentParams)
    (tasks : list TaskParams) (r : MissionEnergy) :
  estimate_mission_energy config segments tasks = Ok r ->
  movement_energy_kwh r =
    SimpleValidation.Rsum
      (map (fun s =>
              calculate_power_consumption config
                (get_or (seg_slope_degrees s) 0) 1
                (get_or (seg_roughness s) 0) None *
              seg_distance s / 3600000) segments) /\
  total_time_hours r =
    SimpleValidation.Rsum
      (map (fun s => seg_distance s / (segment_velocity config s * 3600))
         segments) +
    SimpleValidation.Rsum (map (fun t => Q2R (tp_duration_hours t)) tasks).
Proof.
  unfold estimate_mission_energy, bind. intro H.
  destruct (movement_loop config segments (0, 0)) as [m|x] eqn:Em;
    [|discriminate].
  destruct (task_loop config tasks (0, snd m)) as [t|x] eqn:Et;
    [|discriminate].
  injection H as <-. simpl.
  destruct (movement_loop_sums _ _ _ Em) as [Hm1 Hm2].
  pose proof (task_loop_sums _ _ _ Et) as Ht.
  simpl in *. rewrite Hm1, Ht, Hm2. split; ring.
Qed.

Lemma estimate_inputs_ok :
  Forall (fun s => 0 < segment_velocity rover_config s) estimate_segments /\
  Forall (fun t => dict_mem (TASK_POWER rover_config) (tp_type t) = true)
    estimate_tasks.
Proof.
  split.
  - repeat constructor; unfold segment_velocity, get_or, Q2R; simpl; lraR.
  - repeat constructor.
Qed.

Lemma estimate_mission_energy_succeeds_iff_witness :
  exists r,
    estimate_mission_energy rover_config estimate_segments estimate_tasks
    = Ok r.
Proof.
  apply (proj1 (estimate_mission_energy_succeeds_iff
                  rover_config estimate_segments estimate_tasks)).
  exact estimate_inputs_ok.
Defined.

Lemma estimate_movement_energy_closed_form_witness :
  exists r,
    estimate_mission_energy rover_config estimate_segments estimate_tasks
      = Ok r /\
    movement_energy_kwh r =
      SimpleValidation.Rsum
        (map (fun s =>
                calculate_power_consumption rover_config
                  (get_or (seg_slope_degrees s) 0) 1
                  (get_or (seg_roughness s) 0) None *
                seg_distance s / 3600000) estimate_segments) /\
    total_time_hours r =
      SimpleValidation.Rsum
        (map (fun s =>
                seg_distance s / (segment_velocity rover_config s * 3600))
           estimate_segments) +
      SimpleValidation.Rsum
        (map (fun t => Q2R (tp_duration_hours t)) estimate_tasks).
Proof.
  destruct (proj2 (movement_loop_ok_iff rover_config estimate_segments (0, 0))
              (proj1 estimate_inputs_ok)) as [m Hm].
  destruct (proj2 (task_loop_ok_iff rover_config estimate_tasks (0, snd m))
              (proj2 estimate_inputs_ok)) as [t Ht].
  eexists. split.
  - unfold estimate_mission_energy, bind. rewrite Hm, Ht. reflexivity.
  - apply (@estimate_movement_energy_closed_form
             rover_config estimate_segments estimate_tasks).
    unfold estimate_mission_energy, bind. rewrite Hm, Ht. reflexivity.
Defined.

End MissionEstimateFacts.

(** ** The rover configuration *)

Section RoverConfigFacts.

Local Open Scope Q_scope.

(** X8: the available energy is never negative; at or above the reserve
    ratio it is capacity * (level - reserve ratio), at or below it is zero;
    and when the critical threshold does not exceed the reserve ratio, a
    critical battery leaves no available energy. *)
Theorem available_energy_floor_and_reserve
    (cls : RoverConfig) (current_battery_level : Q) :
  0 <= BATTERY_CAPACITY cls ->
  0 <= get_available_energy cls current_battery_level /\
  (ENERGY_RESERVE_RATIO cls <= current_battery_level ->
   get_available_energy cls current_battery_level ==
   BATTERY_CAPACITY cls * (current_battery_level - ENERGY_RESERVE_RATIO cls)) /\
  (current_battery_level <= ENERGY_RESERVE_RATIO cls ->
   get_available_energy cls current_battery_level == 0) /\
  (CRITICAL_ENERGY_THRESHOLD cls <= ENERGY_RESERVE_RATIO cls ->
   is_critical_energy cls current_battery_level = true ->
   get_available_energy cls current_battery_level == 0).
Proof.
  intro Hcap. unfold get_available_energy, is_critical_energy.
  set (c := BATTERY_CAPACITY cls) in *.
  set (r := ENERGY_RESERVE_RATIO cls).
  set (b := current_battery_level).
  assert (Hhi : r <= b -> 0 <= c * b - c * r).
  { intro H. assert (0 <= c * (b - r)) by (apply Qmult_le_0_compat; lraQ).
    lraQ. }
  assert (Hlo : b <= r -> c * b - c * r <= 0).
  { intro H. assert (0 <= c * (r - b)) by (apply Qmult_le_0_compat; lraQ).
    lraQ. }
  destruct (pymax_cases 0 (c * b - c * r)) as [[Hlt ->]|[Hle ->]].
  - split; [lraQ|]. split; [intros _; ring|].
    split.
    + intro H. specialize (Hlo H). lraQ.
    + intros Hcr Hcrit. apply Qle_bool_iff in Hcrit.
      assert (H : b <= r) by lraQ. specialize (Hlo H). lraQ.
  - split; [lraQ|]. split.
    + intro H. specialize (Hhi H). lraQ.
    + split; reflexivity.
Qed.

Lemma available_energy_floor_and_reserve_witness :
  0 <= get_available_energy rover_config (1 # 2) /\
  (ENERGY_RESERVE_RATIO rover_config <= 1 # 2 ->
   get_available_energy rover_config (1 # 2) ==
   BATTERY_CAPACITY rover_config *
   ((1 # 2) - ENERGY_RESERVE_RATIO rover_config)) /\
  (1 # 2 <= ENERGY_RESERVE_RATIO rover_config ->
   get_available_energy rover_config (1 # 2) == 0) /\
  (CRITICAL_ENERGY_THRESHOLD rover_config <=
   ENERGY_RESERVE_RATIO rover_config ->
   is_critical_energy rover_config (1 # 2) = true ->
   get_available_energy rover_config (1 # 2) == 0).
Proof.
  apply (@available_energy_floor_and_reserve rover_config (1 # 2)).
  vm_compute. discriminate.
Defined.

End RoverConfigFacts.

(** ** The mission simulator: whole runs *)

Section MissionRunFacts.

Import SimulateMission.
Local Open Scope Q_scope.

Variable segment : Q -> Q -> Q -> Q -> result SegmentResult.

Lemma traverse_rows_ok_iff (v : Q) (rows : list TerrainRow) :
  forall totals,
    (exists r, traverse_rows segment v rows totals = Ok r) <->
    Forall (fun row =>
              exists r, segment (distance row) (slope_deg row) v
                          (roughness row) = Ok r) rows.
Proof.
  induction rows as [|row rows IH]; simpl; intro totals.
  - split; [constructor|intros _; eexists; reflexivity].
  - destruct totals as [[te td] tt]. unfold bind.
    destruct (segment (distance row) (slope_deg row) v (roughness row))
      as [res|x] eqn:E.
    + rewrite IH. split.
      * intro H. constructor; [now exists res|assumption].
      * intro H. now inversion H.
    + split.
      * intros [r Hr]. discriminate.
      * intro H. destruct (Forall_inv H) as [r Hr]. congruence.
Qed.

Lemma priority_keys_ok_iff (self : MissionSimulator) (tasks : list ref) :
  forall h,
    (exists r, priority_keys self h tasks = Ok r) <->
    Forall (fun t => dict_mem (TASK_POWER (config self)) (task_type (h t))
                     = true) tasks.
Proof.
  induction tasks as [|t tasks IH]; simpl; intro h.
  - split; [constructor|intros _; eexists; reflexivity].
  - unfold bind.
    destruct (calculate_task_priority self h t) as [[c h1]|x] eqn:E.
    + simpl.
      apply calculate_task_priority_inv in E.
      destruct E as (e & He & Hh1 & _).
      assert (Hk : dict_mem (TASK_POWER (config self)) (task_type (h t))
                   = true).
      { destruct (dict_mem (TASK_POWER (config self)) (task_type (h t)))
          eqn:Ek; [reflexivity|].
        rewrite (calculate_task_energy_unknown _ _ _ Ek) in He.
        discriminate. }
      assert (Hty : forall r, task_type (h1 r) = task_type (h r)).
      { intro r. subst h1.
        now destruct (set_cost_same_data h t e r) as (T & _). }
      split.
      * intros [r Hr].
        destruct (priority_keys self h1 tasks) as [rest|x] eqn:E2;
          [|discriminate].
        constructor; [assumption|].
        assert (Hex : exists r, priority_keys self h1 tasks = Ok r)
          by (now exists rest).
        apply IH in Hex.
        eapply Forall_impl; [|exact Hex]. intros a Ha. simpl in Ha.
        now rewrite Hty in Ha.
      * intro H. pose proof (Forall_inv_tail H) as Hrest.
        assert (Hf : Forall
                       (fun t => dict_mem (TASK_POWER (config self))
                                   (task_type (h1 t)) = true) tasks).
        { eapply Forall_impl; [|exact Hrest]. intros a Ha. simpl in Ha.
          now rewrite Hty. }
        apply IH in Hf. destruct Hf as [rest ->]. eexists; reflexivity.
    + split.
      * intros [r Hr]. discriminate.
      * intro H. pose proof (Forall_inv H) as Hk. simpl in Hk.
        apply dict_mem_get in Hk. destruct Hk as [p Hp].
        unfold calculate_task_priority, bind in E.
        rewrite (calculate_task_energy_known _ _ (duration_hours (h t)) Hp)
          in E.
        discriminate.
Qed.

(** What [prepare_mission] hands to the loop. *)
Lemma prepare_mission_inv (self self0 : MissionSimulator) (h h0 : heap)
    (tasks prioritized : list ref) terrain velocity summary :
  prepare_mission segment self h tasks terrain velocity
    = Ok (summary, prioritized, self0, h0) ->
  config self0 = config self /\
  completed_tasks self0 = [] /\
  deferred_tasks self0 = [] /\
  mission_log self0 = [] /\
  current_battery_level self0 = start_level summary /\
  current_battery_level self0 ==
    1 - traversal_energy summary / BATTERY_CAPACITY (config self) /\
  Permutation tasks prioritized /\
  (forall r, same_task_data (h r) (h0 r)) /\
  Forall (costed (config self) h0) tasks.
Proof.
  unfold prepare_mission, bind. intro E.
  destruct (match terrain with
            | Some terrain_data => _
            | None => _
            end) as [[s1 self1]|x] eqn:Et; [|discriminate].
  destruct (prioritize_tasks self1 h tasks) as [[p hp]|x] eqn:Ep;
    [|discriminate].
  injection E as <- <- <- <-.
  apply prioritize_tasks_inv in Ep. destruct Ep as (Hd & Hall & ->).
  destruct terrain as [terrain_data|].
  - unfold simulate_terrain_traversal, bind in Et.
    destruct (traverse_rows _ _ _ _) as [[[a b] c]|]; [|discriminate].
    injection Et as <- <-. simpl.
    do 5 (split; [reflexivity|]). split; [reflexivity|].
    split; [apply py_sorted_perm|]. split; assumption.
  - injection Et as <- <-. simpl.
    do 5 (split; [reflexivity|]). split; [unfold Qdiv; ring|].
    split; [apply py_sorted_perm|]. split; assumption.
Qed.

Lemma run_mission_simulation_unfold (self self' : MissionSimulator)
    (h h' : heap) (tasks : list ref) terrain velocity results :
  run_mission_simulation segment self h tasks terrain velocity
    = Ok (results, self', h') ->
  exists summary prioritized self0 h0,
    prepare_mission segment self h tasks terrain velocity
      = Ok (summary, prioritized, self0, h0) /\
    execute_in_priority_order prioritized prioritized self0 h0 = (self', h') /\
    results = mission_statistics self' h' tasks summary.
Proof.
  unfold run_mission_simulation, bind.
  destruct (prepare_mission segment self h tasks terrain velocity)
    as [[[[summary prioritized] self0] h0]|x] eqn:E; [|discriminate].
  destruct (execute_in_priority_order prioritized prioritized self0 h0)
    as [self2 h2] eqn:E2.
  intro H. injection H as <- <- <-.
  exists summary, prioritized, self0, h0. repeat split. exact E2.
Qed.

(** X9: a mission run returns its results exactly when the energy model
    accepts every row of the terrain table (when there is one) and the type
    of every task is in the power mapping; otherwise it raises, and nothing
    is reported. *)
Theorem run_mission_simulation_succeeds_iff
    (self : MissionSimulator) (h : heap) (tasks : list ref)
    (terrain : option (list TerrainRow)) (velocity : option Q) :
  (exists out,
     run_mission_simulation segment self h tasks terrain velocity = Ok out)
  <->
  (forall rows,
     terrain = Some rows ->
     Forall (fun row =>
               exists r,
                 segment (distance row) (slope_deg row)
                   (traversal_velocity self velocity) (roughness row) = Ok r)
       rows) /\
  Forall (fun t => dict_mem (TASK_POWER (config self)) (task_type (h t))
                   = true) tasks.
Proof.
  unfold run_mission_simulation, prepare_mission, prioritize_tasks, bind.
  destruct terrain as [rows|].
  - unfold simulate_terrain_traversal, bind.
    change (match velocity with
            | Some v => v
            | None => NOMINAL_VELOCITY (config (reset_mission_state self))
            end) with (traversal_velocity self velocity).
    destruct (traverse_rows segment (traversal_velocity self velocity) rows
                (0, 0, 0)) as [[[te td] tt]|x] eqn:Et.
    + simpl.
      match goal with
      | |- context [priority_keys ?s h tasks] => set (self1 := s)
      end.
      assert (Hrows : Forall
                        (fun row =>
                           exists r,
                             segment (distance row) (slope_deg row)
                               (traversal_velocity self velocity)
                               (roughness row) = Ok r) rows).
      { apply (traverse_rows_ok_iff _ rows (0, 0, 0)). eexists; exact Et. }
      destruct (priority_keys self1 h tasks) as [[ks hk]|x] eqn:Ek.
      * simpl.
        destruct (execute_in_priority_order _ _ _ _) as [s2 h2].
        split; [|intros _; eexists; reflexivity].
        intros _. split.
        -- intros rows' Hr. injection Hr as <-. exact Hrows.
        -- apply (priority_keys_ok_iff self1 tasks h). eexists; exact Ek.
      * simpl. split; [intros [out H]; discriminate|].
        intros [_ Hk].
        apply (priority_keys_ok_iff self1 tasks h) in Hk.
        destruct Hk as [r Hr]. congruence.
    + simpl. split; [intros [out H]; discriminate|].
      intros [Hr _]. specialize (Hr rows eq_refl).
      apply (traverse_rows_ok_iff _ rows (0, 0, 0)) in Hr.
      destruct Hr as [r Hr]. congruence.
  - simpl.
    destruct (priority_keys (reset_mission_state self) h tasks)
      as [[ks hk]|x] eqn:Ek.
    + simpl. destruct (execute_in_priority_order _ _ _ _) as [s2 h2].
      split; [|intros _; eexists; reflexivity].
      intros _. split; [intros rows Hr; discriminate|].
      apply (priority_keys_ok_iff (reset_mission_state self) tasks h).
      eexists; exact Ek.
    + simpl. split; [intros [out H]; discriminate|].
      intros [_ Hk].
      apply (priority_keys_ok_iff (reset_mission_state self) tasks h) in Hk.
      destruct Hk as [r Hr]. congruence.
Qed.

(** *** Every task is accounted for *)

Lemma defer_all_lists (remaining : list ref) :
  forall (self self' : MissionSimulator) (h h' : heap),
    defer_all remaining self h = (self', h') ->
    deferred_tasks self' = deferred_tasks self ++ remaining /\
    (forall r, energy_cost (h' r) = energy_cost (h r)).
Proof.
  induction remaining as [|t remaining IH]; simpl; intros self self' h h' H.
  - injection H as <- <-. split; [now rewrite app_nil_r|reflexivity].
  - apply IH in H. destruct H as [Hd He]. simpl in Hd.
    split; [now rewrite Hd, <- app_assoc|].
    intro r. rewrite He.
    destruct (Nat.eq_dec r t) as [->|Hne].
    + now rewrite heap_set_same.
    + now rewrite heap_set_other.
Qed.

Lemma filter_all (A : Type) (f : A -> bool) (l : list A) :
  (forall x, In x l -> f x = true) -> filter f l = l.
Proof.
  induction l as [|x l IH]; simpl; intro H; [reflexivity|].
  rewrite (H x (or_introl eq_refl)). f_equal. apply IH. auto.
Qed.

Lemma filter_none (A : Type) (f : A -> bool) (l : list A) :
  (forall x, In x l -> f x = false) -> filter f l = [].
Proof.
  induction l as [|x l IH]; simpl; intro H; [reflexivity|].
  rewrite (H x (or_introl eq_refl)). apply IH. auto.
Qed.

Lemma execute_task_marks (self self' : MissionSimulator) (h h' : heap)
    (task : ref) (ok : bool) :
  execute_task self h task = (ok, self', h') ->
  completed (h' task) = true \/ deferred (h' task) = true.
Proof.
  destruct ok; intro H.
  - apply execute_task_completed in H.
    destruct H as (_ & _ & _ & _ & _ & ->). left. now rewrite heap_set_same.
  - apply execute_task_deferred in H.
    destruct H as (_ & _ & ->). right. now rewrite heap_set_same.
Qed.

Lemma execute_task_lists (self self' : MissionSimulator) (h h' : heap)
    (task : ref) (ok : bool) (rest : list ref) :
  execute_task self h task = (ok, self', h') ->
  Permutation (completed_tasks self' ++ deferred_tasks self' ++ rest)
    (completed_tasks self ++ deferred_tasks self ++ task :: rest).
Proof.
  destruct ok; intro H.
  - apply execute_task_completed in H.
    destruct H as (_ & _ & _ & -> & -> & _).
    rewrite <- app_assoc. simpl.
    apply Permutation_app_head.
    apply Permutation_middle.
  - apply execute_task_deferred in H. destruct H as (_ & -> & _). simpl.
    rewrite <- app_assoc. simpl. apply Permutation_refl.
Qed.

Lemma loop_partition (prioritized : list ref) :
  NoDup prioritized ->
  forall todo visited (self self' : MissionSimulator) (h h' : heap),
    prioritized = visited ++ todo ->
    (forall t, In t visited -> unmarked h t = false) ->
    (forall t, In t todo -> unmarked h t = true) ->
    execute_in_priority_order prioritized todo self h = (self', h') ->
    Permutation (completed_tasks self' ++ deferred_tasks self')
      (completed_tasks self ++ deferred_tasks self ++ todo).
Proof.
  intro Hnd.
  induction todo as [|t todo IH];
    intros visited self self' h h' Hall Hvis Htodo H; simpl in H.
  - injection H as <- <-. rewrite app_nil_r. apply Permutation_refl.
  - destruct (is_critical_energy _ _).
    + assert (Hrem : remaining_tasks h prioritized = t :: todo).
      { unfold remaining_tasks. rewrite Hall, filter_app.
        change (fun t0 => negb (completed (h t0)) && negb (deferred (h t0)))
          with (unmarked h).
        rewrite (filter_none _ _ Hvis), (filter_all _ _ Htodo).
        reflexivity. }
      rewrite Hrem in H.
      pose proof (defer_all_inv _ _ _ H) as (_ & _ & Hc & _).
      destruct (defer_all_lists _ _ _ H) as [Hd _].
      rewrite Hc, Hd. apply Permutation_refl.
    + destruct (execute_task self h t) as [[ok self2] h2] eqn:E.
      assert (Ht : ~ In t visited /\ ~ In t todo).
      { rewrite Hall in Hnd. apply NoDup_remove_2 in Hnd.
        split; intro Hin; apply Hnd; apply in_or_app; tauto. }
      destruct (execute_task_frame _ _ _ E) as [Hframe _].
      eapply perm_trans;
        [|apply (@execute_task_lists _ _ _ _ _ _ todo E)].
      apply (IH (visited ++ [t]) self2 self' h2 h').
      * now rewrite <- app_assoc.
      * intros r Hr. apply in_app_or in Hr.
        destruct Hr as [Hr|[<-|[]]].
        -- unfold unmarked. rewrite Hframe; [now apply Hvis|].
           intros ->. tauto.
        -- unfold unmarked.
           destruct (execute_task_marks _ _ _ E) as [-> | ->];
             [reflexivity|apply andb_false_r].
      * intros r Hr. unfold unmarked. rewrite Hframe.
        -- apply Htodo. now right.
        -- intros ->. tauto.
      * exact H.
Qed.

Lemma Qdiv_counts_unit (a b : nat) :
  (a <= b)%nat -> (0 < b)%nat ->
  0 <= inject_Z (Z.of_nat a) / inject_Z (Z.of_nat b) <= 1.
Proof.
  intros Hab Hb.
  assert (Hb' : 0 < inject_Z (Z.of_nat b)).
  { change 0 with (inject_Z 0). rewrite <- Zlt_Qlt. lia. }
  assert (Ha' : 0 <= inject_Z (Z.of_nat a)).
  { change 0 with (inject_Z 0). rewrite <- Zle_Qle. lia. }
  assert (Hle : inject_Z (Z.of_nat a) <= inject_Z (Z.of_nat b)).
  { rewrite <- Zle_Qle. lia. }
  split.
  - apply Qle_shift_div_l; [assumption|]. lraQ.
  - apply Qle_shift_div_r; [assumption|]. lraQ.
Qed.

(** X10: in a run on distinct tasks that enter it unmarked, every task ends
    in exactly one of the two lists: the completed and the deferred tasks
    together are a rearrangement of the input, the two counts of the summary
    add up to the number of tasks, and the completion rate lies between 0
    and 1. *)
Theorem every_task_completed_or_deferred
    (self self' : MissionSimulator) (h h' : heap) (tasks : list ref)
    terrain velocity results :
  NoDup tasks ->
  (forall t, In t tasks -> completed (h t) = false /\ deferred (h t) = false) ->
  run_mission_simulation segment self h tasks terrain velocity
    = Ok (results, self', h') ->
  Permutation (completed_tasks self' ++ deferred_tasks self') tasks /\
  (n_completed_tasks (mission_summary results) +
   n_deferred_tasks (mission_summary results) =
   total_tasks (mission_summary results))%nat /\
  total_tasks (mission_summary results) = List.length tasks /\
  0 <= completion_rate (mission_summary results) <= 1.
Proof.
  intros Hnd Hfresh Hrun.
  destruct (run_mission_simulation_unfold _ _ _ _ _ Hrun)
    as (summary & prioritized & self0 & h0 & Hprep & Hloop & ->).
  destruct (prepare_mission_inv _ _ _ _ _ Hprep)
    as (_ & Hc0 & Hd0 & _ & _ & _ & Hperm & Hdata & _).
  assert (Hp : Permutation (completed_tasks self' ++ deferred_tasks self')
                 tasks).
  { eapply perm_trans; [|apply Permutation_sym, Hperm].
    pose proof (@loop_partition prioritized
                  (Permutation_NoDup Hperm Hnd) prioritized [] self0 self'
                  h0 h' eq_refl) as Hl.
    rewrite Hc0, Hd0 in Hl. simpl in Hl. apply Hl; [contradiction| |exact Hloop].
    intros t Ht.
    assert (Hin : In t tasks)
      by (eapply Permutation_in; [apply Permutation_sym, Hperm|exact Ht]).
    destruct (Hfresh t Hin) as [Hfc Hfd].
    destruct (Hdata t) as (_ & _ & _ & _ & Dc & Dd).
    unfold unmarked. now rewrite Dc, Dd, Hfc, Hfd. }
  pose proof (Permutation_length Hp) as Hlen. rewrite length_app in Hlen.
  split; [exact Hp|]. simpl.
  split; [exact Hlen|]. split; [reflexivity|].
  destruct tasks as [|t tasks]; [split; lraQ|].
  apply Qdiv_counts_unit; simpl in *; lia.
Qed.

(** The three tasks of [sample_heap]. *)
Lemma sample_tasks_fresh :
  NoDup [0; 1; 2]%nat /\
  forall t, In t [0; 1; 2]%nat ->
            completed (sample_heap t) = false /\
            deferred (sample_heap t) = false.
Proof.
  split.
  - repeat constructor; simpl; intuition lia.
  - intros t [<-|[<-|[<-|[]]]]; split; reflexivity.
Qed.

(** *** Energy bookkeeping *)

Lemma sum_costs_snoc (h : heap) (l : list ref) (t : ref) :
  sum_costs h (l ++ [t]) = sum_costs h l + energy_cost (h t).
Proof. unfold sum_costs. now rewrite fold_left_app. Qed.

Lemma sum_costs_ext (h h' : heap) (l : list ref) :
  (forall r, energy_cost (h' r) = energy_cost (h r)) ->
  sum_costs h' l = sum_costs h l.
Proof.
  intro H. unfold sum_costs. generalize 0.
  induction l as [|t l IH]; simpl; intro a; [reflexivity|].
  now rewrite H, IH.
Qed.

Lemma execute_task_ledger (self self' : MissionSimulator) (h h' : heap)
    (task : ref) (ok : bool) :
  0 < BATTERY_CAPACITY (config self) ->
  execute_task self h task = (ok, self', h') ->
  energy_ledger self' h' == energy_ledger self h.
Proof.
  intros Hcap H. unfold energy_ledger.
  destruct (execute_task_frame _ _ _ H) as [_ Hcost].
  destruct ok.
  - apply execute_task_completed in H.
    destruct H as (_ & -> & -> & -> & _ & _).
    rewrite sum_costs_snoc, (sum_costs_ext _ _ _ Hcost), Hcost.
    field. lraQ.
  - apply execute_task_deferred in H. destruct H as (_ & -> & _). simpl.
    rewrite (sum_costs_ext _ _ _ Hcost). reflexivity.
Qed.

Lemma loop_config (prioritized todo : list ref) :
  forall (self self' : MissionSimulator) (h h' : heap),
    execute_in_priority_order prioritized todo self h = (self', h') ->
    config self' = config self.
Proof.
  induction todo as [|t todo IH]; simpl; intros self self' h h' H.
  - now injection H as <- _.
  - destruct (is_critical_energy _ _).
    + now apply defer_all_inv in H.
    + destruct (execute_task self h t) as [[ok self2] h2] eqn:E.
      rewrite (IH _ _ _ _ H).
      destruct ok.
      * now apply execute_task_completed in E.
      * apply execute_task_deferred in E. now destruct E as (_ & -> & _).
Qed.

Lemma loop_ledger (prioritized todo : list ref) :
  forall (self self' : MissionSimulator) (h h' : heap),
    0 < BATTERY_CAPACITY (config self) ->
    execute_in_priority_order prioritized todo self h = (self', h') ->
    energy_ledger self' h' == energy_ledger self h.
Proof.
  induction todo as [|t todo IH]; simpl; intros self self' h h' Hcap H.
  - injection H as <- <-. reflexivity.
  - destruct (is_critical_energy _ _).
    + pose proof (defer_all_inv _ _ _ H) as (Hc & Hb & Hd & _).
      destruct (defer_all_lists _ _ _ H) as [_ Hcost].
      unfold energy_ledger.
      rewrite Hc, Hb, Hd, (sum_costs_ext _ _ _ Hcost). reflexivity.
    + destruct (execute_task self h t) as [[ok self2] h2] eqn:E.
      assert (Hc2 : config self2 = config self).
      { destruct ok.
        - now apply execute_task_completed in E.
        - apply execute_task_deferred in E. now destruct E as (_ & -> & _). }
      rewrite (IH _ _ _ _ ltac:(rewrite Hc2; exact Hcap) H).
      eapply execute_task_ledger; eassumption.
Qed.

(** X11: energy is conserved over a mission run: the total energy consumed
    that the summary reports, (1 - final battery level) * capacity, equals
    the energy of the traversal plus the energy of the completed tasks. *)
Theorem mission_energy_is_conserved
    (self self' : MissionSimulator) (h h' : heap) (tasks : list ref)
    terrain velocity results :
  0 < BATTERY_CAPACITY (config self) ->
  run_mission_simulation segment self h tasks terrain velocity
    = Ok (results, self', h') ->
  total_energy_consumed_kwh (mission_summary results) ==
  traversal_energy (traversal_summary results) +
  task_energy_kwh (mission_summary results).
Proof.
  intros Hcap Hrun.
  destruct (run_mission_simulation_unfold _ _ _ _ _ Hrun)
    as (summary & prioritized & self0 & h0 & Hprep & Hloop & ->).
  destruct (prepare_mission_inv _ _ _ _ _ Hprep)
    as (Hcfg & Hc0 & _ & _ & _ & Hb0 & _).
  pose proof (loop_config _ _ _ _ Hloop) as Hcfg'.
  pose proof (@loop_ledger prioritized prioritized self0 self' h0 h'
                ltac:(rewrite Hcfg; exact Hcap) Hloop) as Hl.
  unfold energy_ledger in Hl. rewrite Hc0, Hcfg', Hcfg, Hb0 in Hl.
  simpl.
  change (fold_left (fun acc t => acc + energy_cost (h' t))
            (completed_tasks self') 0)
    with (sum_costs h' (completed_tasks self')).
  rewrite Hcfg', Hcfg.
  unfold sum_costs at 2 in Hl. simpl in Hl.
  set (c := BATTERY_CAPACITY (config self)) in *.
  set (e := traversal_energy summary) in *.
  assert (He : (1 - e / c) * c == c - e) by (field; lraQ).
  lraQ.
Qed.

(** *** The battery over a run *)


Lemma costed_nonneg (config : RoverConfig) (h : heap) (t : ref) :
  Forall (fun kv => 0 <= snd kv) (TASK_POWER config) ->
  0 <= duration_hours (h t) ->
  costed config h t ->
  0 <= energy_cost (h t).
Proof.
  intros Hp Hd Hc. unfold costed, calculate_task_energy in Hc.
  destruct (dict_mem _ _); simpl in Hc; [|discriminate].
  destruct (dict_get (TASK_POWER config) (task_type (h t))) as [p|] eqn:Eg;
    [|discriminate].
  injection Hc as <-.
  assert (Hpp : 0 <= p).
  { clear - Hp Eg. induction Hp as [|[k v] d Hv _ IH]; simpl in Eg.
    - discriminate.
    - destruct (String.eqb (task_type (h t)) k).
      + now injection Eg as <-.
      + now apply IH. }
  unfold Qdiv. change (/ 1000) with (1 # 1000).
  assert (0 <= p * duration_hours (h t))
    by (apply Qmult_le_0_compat; assumption).
  lraQ.
Qed.



End MissionRunFacts.

(** Runs of the three sample tasks of [sample_heap], without terrain. *)

Section MissionRunWitnesses.

Import SimulateMission.
Local Open Scope Q_scope.

Lemma run_mission_simulation_succeeds_iff_witness :
  exists out,
    run_mission_simulation draining_segment
      (MissionSimulator_init rover_config) sample_heap [0; 1; 2]%nat
      (Some [ {| distance := 100; slope_deg := 5; roughness := 1 # 10 |} ])
      None = Ok out.
Proof.
  apply (proj2 (@run_mission_simulation_succeeds_iff draining_segment
                  (MissionSimulator_init rover_config) sample_heap
                  [0; 1; 2]%nat
                  (Some [ {| distance := 100; slope_deg := 5;
                             roughness := 1 # 10 |} ])
                  None)).
  split.
  - intros rows Hr. injection Hr as <-.
    repeat constructor. eexists. reflexivity.
  - repeat constructor.
Defined.

Lemma every_task_completed_or_deferred_witness :
  exists results self' h',
    run_mission_simulation draining_segment
      (MissionSimulator_init rover_config) sample_heap [0; 1; 2]%nat
      None None = Ok (results, self', h') /\
    Permutation (completed_tasks self' ++ deferred_tasks self')
      [0; 1; 2]%nat /\
    (n_completed_tasks (mission_summary results) +
     n_deferred_tasks (mission_summary results) =
     total_tasks (mission_summary results))%nat /\
    total_tasks (mission_summary results) = 3%nat /\
    0 <= completion_rate (mission_summary results) <= 1.
Proof.
  eexists. eexists. eexists.
  split; [vm_compute; reflexivity|].
  eapply (@every_task_completed_or_deferred draining_segment
            (MissionSimulator_init rover_config) _ sample_heap _
            [0; 1; 2]%nat None None).
  - exact (proj1 sample_tasks_fresh).
  - exact (proj2 sample_tasks_fresh).
  - vm_compute. reflexivity.
Defined.

Lemma mission_energy_is_conserved_witness :
  exists results self' h',
    run_mission_simulation draining_segment
      (MissionSimulator_init rover_config) sample_heap [0; 1; 2]%nat
      (Some [ {| distance := 10; slope_deg := 5; roughness := 1 # 10 |} ])
      None = Ok (results, self', h') /\
    total_energy_consumed_kwh (mission_summary results) ==
    traversal_energy (traversal_summary results) +
    task_energy_kwh (mission_summary results).
Proof.
  eexists. eexists. eexists.
  split; [vm_compute; reflexivity|].
  eapply (@mission_energy_is_conserved draining_segment
            (MissionSimulator_init rover_config) _ sample_heap _
            [0; 1; 2]%nat
            (Some [ {| distance := 10; slope_deg := 5;
                       roughness := 1 # 10 |} ])
            None).
  - reflexivity.
  - vm_compute. reflexivity.
Defined.


End MissionRunWitnesses.

(** ** The benchmark: the baseline policies *)

Section ReverseSortFacts.

Variable A : Type.

Local Open Scope Q_scope.

Lemma filter_rev_comm (f : A -> bool) (l : list A) :
  filter f (rev l) = rev (filter f l).
Proof.
  induction l as [|x l IH]; simpl; [reflexivity|].
  rewrite filter_app, IH. simpl.
  destruct (f x); simpl; [reflexivity|now rewrite app_nil_r].
Qed.

Lemma StronglySorted_snoc (R : A -> A -> Prop) (l : list A) (x : A) :
  StronglySorted R l -> Forall (fun y => R y x) l ->
  StronglySorted R (l ++ [x]).
Proof.
  induction 1 as [|y l Hs IH Hy]; simpl; intro Hx.
  - repeat constructor.
  - inversion Hx as [|? ? Hyx Hlx]; subst.
    constructor; [now apply IH|].
    apply Forall_app. split; [assumption|now constructor].
Qed.

Lemma StronglySorted_rev (R : A -> A -> Prop) (l : list A) :
  StronglySorted R l -> StronglySorted (fun x y => R y x) (rev l).
Proof.
  induction 1 as [|x l Hs IH Hx]; simpl; [constructor|].
  apply StronglySorted_snoc; [assumption|].
  apply Forall_rev. exact Hx.
Qed.

Lemma py_sorted_reverse_perm (key : A -> Q) (l : list A) :
  Permutation l (py_sorted_reverse key l).
Proof.
  unfold py_sorted_reverse.
  eapply perm_trans; [apply Permutation_rev|].
  eapply perm_trans; [apply py_sorted_perm|apply Permutation_rev].
Qed.

Lemma py_sorted_reverse_descending (key : A -> Q) (l : list A) :
  StronglySorted (fun x y => key y <= key x) (py_sorted_reverse key l).
Proof.
  unfold py_sorted_reverse.
  apply (StronglySorted_rev (R := fun x y => key x <= key y)).
  apply py_sorted_ascending.
Qed.

Lemma py_sorted_reverse_stable (key : A -> Q) (k : Q) (l : list A) :
  filter (fun x => Qeq_bool (key x) k) (py_sorted_reverse key l) =
  filter (fun x => Qeq_bool (key x) k) l.
Proof.
  unfold py_sorted_reverse.
  now rewrite filter_rev_comm, py_sorted_stable, filter_rev_comm,
    rev_involutive.
Qed.

End ReverseSortFacts.

Section BaselinePolicies.

Import SimpleValidation.
Local Open Scope Q_scope.

(** X14: Urgency-First and WSPT return a rearrangement of their input in
    non-increasing order of their key (the urgency; the reward per hour,
    the duration floored at 0.01), tasks of equal key in input order. *)
Theorem descending_policies_sort_stably (tasks : list Task) :
  (Permutation tasks (urgency_first_scheduler tasks) /\
   StronglySorted (fun x y => urgency y <= urgency x)
     (urgency_first_scheduler tasks) /\
   forall k,
     filter (fun t => Qeq_bool (urgency t) k) (urgency_first_scheduler tasks)
     = filter (fun t => Qeq_bool (urgency t) k) tasks) /\
  (Permutation tasks (wspt_scheduler tasks) /\
   StronglySorted
     (fun x y =>
        reward y / pymax (duration y) (1 # 100) <=
        reward x / pymax (duration x) (1 # 100))
     (wspt_scheduler tasks) /\
   forall k,
     filter (fun t => Qeq_bool (wspt_ratio t) k) (wspt_scheduler tasks)
     = filter (fun t => Qeq_bool (wspt_ratio t) k) tasks).
Proof.
  split; (split; [apply py_sorted_reverse_perm|]);
    (split; [|intro k; apply py_sorted_reverse_stable]).
  - apply (py_sorted_reverse_descending urgency).
  - apply (py_sorted_reverse_descending wspt_ratio).
Qed.

(** X15: FIFO returns its input and Energy-Greedy a rearrangement of it in
    non-decreasing order of energy, tasks of equal energy in input order. *)
Theorem fifo_and_energy_greedy_orders (tasks : list Task) :
  fifo_scheduler tasks = tasks /\
  Permutation tasks (energy_greedy_scheduler tasks) /\
  StronglySorted (fun x y => energy x <= energy y)
    (energy_greedy_scheduler tasks) /\
  forall k,
    filter (fun t => Qeq_bool (energy t) k) (energy_greedy_scheduler tasks)
    = filter (fun t => Qeq_bool (energy t) k) tasks.
Proof.
  split; [reflexivity|].
  split; [apply py_sorted_perm|].
  split; [apply py_sorted_ascending|].
  intro k. apply py_sorted_stable.
Qed.

End BaselinePolicies.

(** ** The benchmark: execution under the energy budget *)

Section BudgetFacts.

Import SimpleValidation.
Local Open Scope Q_scope.

Lemma sum_energy_app (l1 l2 : list Task) :
  sum_energy (l1 ++ l2) == sum_energy l1 + sum_energy l2.
Proof.
  induction l1 as [|t l1 IH]; simpl; [ring|]. rewrite IH. ring.
Qed.

Lemma sum_reward_app (l1 l2 : list Task) :
  sum_reward (l1 ++ l2) == sum_reward l1 + sum_reward l2.
Proof.
  induction l1 as [|t l1 IH]; simpl; [ring|]. rewrite IH. ring.
Qed.

Lemma Subseq_length (A : Type) (l1 l2 : list A) :
  Subseq l1 l2 -> (List.length l1 <= List.length l2)%nat.
Proof. induction 1; simpl; lia. Qed.

(** What one run of the loop adds to its state: the tasks it completes
    are a subsequence of the tasks it is given, their energy is taken from
    the usable energy and added to the energy used, their reward is added to
    the total reward, and the usable energy stays non-negative. *)
Lemma execute_loop_inv (ordered : list Task) :
  forall done u used rew,
  exists new u' used' rew',
    execute_loop ordered (done, u, used, rew) = (done ++ new, u', used', rew')
    /\ Subseq new ordered
    /\ u' == u - sum_energy new
    /\ used' == used + sum_energy new
    /\ rew' == rew + sum_reward new
    /\ (0 <= u -> 0 <= u').
Proof.
  induction ordered as [|t ordered IH]; simpl; intros done u used rew.
  - exists [], u, used, rew. rewrite app_nil_r. simpl.
    repeat split; try ring; [constructor|auto].
  - destruct (Qle_bool (energy t) u) eqn:E.
    + apply Qle_bool_iff in E.
      destruct (IH (done ++ [t]) (u - energy t) (used + energy t)
                  (rew + reward t))
        as (new & u' & used' & rew' & Hl & Hs & Hu & Hused & Hrew & Hpos).
      exists (t :: new), u', used', rew'.
      rewrite Hl, <- app_assoc. simpl.
      split; [reflexivity|]. split; [now constructor|].
      split; [rewrite Hu; ring|]. split; [rewrite Hused; ring|].
      split; [rewrite Hrew; ring|].
      intro H0. apply Hpos. lraQ.
    + destruct (IH done u used rew)
        as (new & u' & used' & rew' & Hl & Hs & Hu & Hused & Hrew & Hpos).
      exists new, u', used', rew'.
      split; [exact Hl|]. split; [now constructor|].
      repeat split; assumption.
Qed.



Lemma execution_stays_within_budget_length
    (self : SimpleValidator) (ordered : list Task) (level : Q) :
  (List.length (completed_tasks (simulate_task_execution self ordered level))
   <= List.length ordered)%nat.
Proof.
  unfold simulate_task_execution.
  destruct (execute_loop_inv ordered [] (usable_energy self level)
              (terrain_energy self) 0)
    as (new & u' & used' & rew' & Hl & Hs & _).
  rewrite Hl. simpl. now apply Subseq_length.
Qed.





(** X18: [run_single_algorithm_test] raises ZeroDivisionError exactly on a
    scenario without tasks; on any other scenario, for a policy that returns
    as many tasks as it is given, the completion rate it reports lies
    between 0 and 100 and the efficiency is the reward divided by the energy
    used, floored at 0.001. *)
Theorem single_test_rate_and_failure
    (self : SimpleValidator) (algorithm_func : list Task -> list Task)
    (scenario : Scenario) :
  (run_single_algorithm_test self algorithm_func scenario
     = Raise ZeroDivisionError <-> tasks scenario = []) /\
  (tasks scenario <> [] ->
   List.length (algorithm_func (tasks scenario)) =
     List.length (tasks scenario) ->
   exists r,
     run_single_algorithm_test self algorithm_func scenario = Ok r /\
     0 <= test_completion_rate r <= 100 /\
     test_efficiency r ==
       test_total_reward r / Qmax (test_energy_used r) (1 # 1000)).
Proof.
  unfold run_single_algorithm_test. split.
  - destruct (tasks scenario) as [|t ts]; simpl;
      split; (reflexivity || discriminate).
  - intros Hne Hlen.
    pose proof (execution_stays_within_budget_length self
                  (algorithm_func (tasks scenario)) (energy_level scenario))
      as Hle.
    rewrite Hlen in Hle.
    assert (Hpos : (0 < List.length (tasks scenario))%nat)
      by (destruct (tasks scenario); [contradiction|simpl; lia]).
    pose proof (Qdiv_counts_unit Hle Hpos) as [H0 H1].
    destruct (Nat.eqb (List.length (tasks scenario)) 0) eqn:E;
      [apply Nat.eqb_eq in E; lia|].
    eexists. split; [reflexivity|]. cbn [test_completion_rate
      test_efficiency test_total_reward test_energy_used].
    split.
    + set (q := inject_Z _ / inject_Z _) in *. split; lraQ.
    + rewrite pymax_Qmax. reflexivity.
Qed.

End BudgetFacts.

(** ** The benchmark: generated scenarios *)

Section GeneratedScenarios.

Import SimpleValidation.
Local Open Scope Q_scope.

Lemma synthesize_tasks_well_formed (num_trials : nat)
    (draws : list TaskDraw) :
  Forall task_draw_ok draws ->
  forall i acc_tasks acc_energy,
  exists new,
    synthesize_tasks (SimpleValidator_init num_trials) i draws
      (acc_tasks, acc_energy) =
    Ok (acc_tasks ++ new,
        fold_left (fun acc t => acc + energy t) new acc_energy) /\
    Forall (generated_task_ok (SimpleValidator_init num_trials)) new.
Proof.
  induction 1 as [|d draws Hd _ IH]; intros i acc_tasks acc_energy.
  - exists []. simpl. rewrite app_nil_r. split; [reflexivity|constructor].
  - destruct Hd as (Hk & (Hd0 & Hd1) & (Hu0 & Hu1) & (Hr0 & Hr1)).
    destruct (power_map_get_in_range num_trials Hk) as (p & Hp & Hp25).
    cbn [synthesize_tasks]. rewrite Hp. cbn [bind].
    match goal with
    | |- context [synthesize_tasks _ _ _ (acc_tasks ++ [?t], ?e)] =>
        destruct (IH (S i) (acc_tasks ++ [t]) e) as (new & Hs & Hall);
        exists (t :: new)
    end.
    rewrite Hs, <- app_assoc. simpl.
    split; [reflexivity|].
    constructor; [|exact Hall].
    unfold generated_task_ok. simpl.
    split; [exact Hp|].
    repeat (split; [lraQ|]).
    split; [|reflexivity].
    unfold Qdiv. change (/ 1000) with (1 # 1000).
    assert (Hm : 0 < p * (1 + draw_duration d * 6))
      by (apply Qmult_lt_0_compat; lraQ).
    lraQ.
Qed.

Lemma scale_task_well_formed (self : SimpleValidator) (f : Q) (t : Task) :
  0 < f -> generated_task_ok self t -> generated_task_ok self (scale_task f t).
Proof.
  intros Hf (Hp & Hu0 & Hu1 & Hr0 & Hr1 & Hd & He & Heq).
  unfold generated_task_ok. simpl.
  split; [exact Hp|].
  do 4 (split; [assumption|]).
  split; [apply Qmult_lt_0_compat; assumption|].
  split; [apply Qmult_lt_0_compat; assumption|].
  rewrite Heq. unfold Qdiv. ring.
Qed.

(** X19: every scenario the generator produces has an energy level in
    [0.05, 0.20), between 12 and 25 tasks, and tasks whose type is in the
    power map, whose urgency is in [1, 10) and reward in [10, 100), and
    whose energy is positive and equals power * duration / 1000, rescaled or
    not. *)
Theorem generated_scenarios_are_well_formed
    (num_trials : nat) (draws : ScenarioDraws) :
  draws_ok draws ->
  exists scenario,
    generate_random_scenario (SimpleValidator_init num_trials) draws
      = Ok scenario /\
    5 # 100 <= energy_level scenario /\
    energy_level scenario < 20 # 100 /\
    (12 <= List.length (tasks scenario) <= 25)%nat /\
    Forall (generated_task_ok (SimpleValidator_init num_trials))
      (tasks scenario).
Proof.
  intros ((Hr0 & Hr1) & Hlen & Hall).
  unfold generate_random_scenario.
  destruct (synthesize_tasks_ok num_trials Hall 0 [] 0)
    as (new & Hs & Hn & _).
  destruct (synthesize_tasks_well_formed num_trials Hall 0 [] 0)
    as (new' & Hs' & Hwf).
  rewrite Hs in Hs'. injection Hs' as <-.
  rewrite Hs. cbn [bind app].
  set (u := usable_energy (SimpleValidator_init num_trials)
              ((5 # 100) + draw_energy_level draws * (15 # 100))).
  assert (Hu : 0 < u) by (apply usable_energy_positive; assumption).
  destruct (Qle_bool _ (u * 2)).
  - eexists. split; [reflexivity|]. cbn [tasks energy_level].
    split; [lraQ|]. split; [lraQ|].
    split; [now rewrite length_map, Hn|].
    apply Forall_map.
    eapply Forall_impl; [|exact Hwf].
    intros t Ht. apply scale_task_well_formed; [|exact Ht].
    apply Qlt_shift_div_l.
    + match goal with
      | |- 0 < pymax ?a ?b =>
          destruct (pymax_cases a b) as [[Hc ->]|[Hc ->]]
      end; lraQ.
    + lraQ.
  - eexists. split; [reflexivity|]. cbn [tasks energy_level].
    split; [lraQ|]. split; [lraQ|].
    split; [now rewrite Hn|exact Hwf].
Qed.

Lemma generated_scenarios_are_well_formed_witness :
  exists scenario,
    generate_random_scenario (SimpleValidator_init 1000) even_draws
      = Ok scenario /\
    5 # 100 <= energy_level scenario /\
    energy_level scenario < 20 # 100 /\
    (12 <= List.length (tasks scenario) <= 25)%nat /\
    Forall (generated_task_ok (SimpleValidator_init 1000)) (tasks scenario).
Proof.
  apply (@generated_scenarios_are_well_formed 1000 even_draws).
  exact even_draws_ok.
Defined.

(** X20: the generator reaches its target: in every scenario it produces
    the total task energy is more than twice the usable energy. *)
Theorem generated_scenario_exceeds_twice_usable
    (num_trials : nat) (draws : ScenarioDraws) :
  draws_ok draws ->
  exists scenario,
    generate_random_scenario (SimpleValidator_init num_trials) draws
      = Ok scenario /\
    usable_energy (SimpleValidator_init num_trials) (energy_level scenario)
      * 2 < total_task_energy (tasks scenario).
Proof.
  intros ((Hr0 & Hr1) & (Hlen & _) & Hall).
  unfold generate_random_scenario.
  destruct (synthesize_tasks_ok num_trials Hall 0 [] 0)
    as (new & Hs & Hn & Hge).
  rewrite Hs. cbn [bind app].
  change (fold_left (fun acc t => acc + energy t) new 0)
    with (total_task_energy new).
  set (u := usable_energy (SimpleValidator_init num_trials)
              ((5 # 100) + draw_energy_level draws * (15 # 100))).
  assert (Hu : 0 < u) by (apply usable_energy_positive; assumption).
  assert (Htot : 3 # 10 <= total_task_energy new).
  { rewrite total_task_energy_sum.
    pose proof (@sum_energy_lower_bound (25 # 1000) new) as Hb.
    specialize (Hb ltac:(lraQ) Hge 12%nat ltac:(lia)).
    assert (E : inject_Z (Z.of_nat 12) * (25 # 1000) == 3 # 10)
      by reflexivity.
    rewrite E in Hb. exact Hb. }
  destruct (Qle_bool (total_task_energy new) (u * 2)) eqn:Escale.
  - eexists. split; [reflexivity|]. cbn [tasks energy_level]. fold u.
    rewrite total_task_energy_sum, sum_energy_scaled,
      <- total_task_energy_sum.
    destruct (pymax_cases (total_task_energy new) (1 # 10))
      as [[Hlt _]|[_ ->]]; [lraQ|].
    assert (E : total_task_energy new * (u * 3 / total_task_energy new)
                == u * 3) by (field; lraQ).
    rewrite E. lraQ.
  - eexists. split; [reflexivity|]. cbn [tasks energy_level]. fold u.
    apply Qle_bool_false_iff in Escale. exact Escale.
Qed.

Lemma generated_scenario_exceeds_twice_usable_witness :
  exists scenario,
    generate_random_scenario (SimpleValidator_init 1000) even_draws
      = Ok scenario /\
    usable_energy (SimpleValidator_init 1000) (energy_level scenario) * 2 <
    total_task_energy (tasks scenario).
Proof.
  apply (@generated_scenario_exceeds_twice_usable 1000 even_draws).
  exact even_draws_ok.
Defined.

End GeneratedScenarios.

(** ** The benchmark: effect sizes *)

Section EffectSizeMore.

Import SimpleValidation.
Local Open Scope R_scope.

Lemma Rsum_squares_nonneg (m : R) (data : list R) :
  0 <= Rsum (map (fun x => (x - m) * (x - m)) data).
Proof.
  induction data as [|x data IH]; simpl; [lraR|].
  pose proof (Rle_0_sqr (x - m)) as H. unfold Rsqr in H. lraR.
Qed.

Lemma group_variance_nonneg (group : list R) : 0 <= group_variance group.
Proof.
  unfold group_variance.
  destruct group as [|x [|y group]]; simpl Nat.eqb; cbv iota.
  - unfold variance. simpl. unfold Rdiv. lraR.
  - lraR.
  - unfold variance.
    apply Rmult_le_pos; [apply Rsum_squares_nonneg|].
    apply Rlt_le, Rinv_0_lt_compat.
    change (List.length (x :: y :: group)) with (S (S (List.length group))).
    rewrite !S_INR. pose proof (pos_INR (List.length group)). lraR.
Qed.

Lemma cohens_d_swap (group1 group2 : list R) :
  calculate_cohens_d group2 group1 = - calculate_cohens_d group1 group2.
Proof.
  unfold calculate_cohens_d.
  rewrite (orb_comm (Nat.eqb (List.length group2) 0)).
  destruct (Nat.eqb (List.length group1) 0 || Nat.eqb (List.length group2) 0);
    [ring|].
  rewrite (Rplus_comm (group_variance group2)).
  destruct (Req_dec_T _ 0) as [E|E]; [ring|].
  field. exact E.
Qed.

(** X21: Cohen's d changes sign when the two groups are exchanged, is 0 as
    soon as one group is empty, and, when the pooled standard deviation is
    not 0, is positive exactly when the first group has the larger mean. *)
Theorem cohens_d_antisymmetric_and_signed (group1 group2 : list R) :
  calculate_cohens_d group2 group1 = - calculate_cohens_d group1 group2 /\
  calculate_cohens_d [] group2 = 0 /\
  calculate_cohens_d group1 [] = 0 /\
  (group1 <> [] -> group2 <> [] ->
   sqrt ((group_variance group1 + group_variance group2) / 2) <> 0 ->
   (0 < calculate_cohens_d group1 group2 <-> mean group2 < mean group1)).
Proof.
  split; [apply cohens_d_swap|].
  split; [reflexivity|].
  split.
  - unfold calculate_cohens_d. now rewrite orb_true_r.
  - intros H1 H2 Hp. unfold calculate_cohens_d.
    rewrite (length_nonempty H1), (length_nonempty H2). simpl.
    destruct (Req_dec_T _ 0) as [E|_]; [contradiction|].
    set (p := sqrt ((group_variance group1 + group_variance group2) / 2))
      in *.
    assert (Hpos : 0 < p).
    { pose proof (sqrt_pos
                    ((group_variance group1 + group_variance group2) / 2)).
      fold p in H. lraR. }
    split; intro H.
    + apply (Rmult_lt_compat_r p) in H; [|assumption].
      unfold Rdiv in H. rewrite Rmult_assoc, Rinv_l in H by lraR. lraR.
    + apply Rdiv_lt_0_compat; lraR.
Qed.

(** X22: the pooled standard deviation is always defined: no group has a
    negative variance, so the square root is taken of a non-negative number,
    and its square is the mean of the two variances. *)
Theorem pooled_variance_is_nonneg (group1 group2 : list R) :
  0 <= group_variance group1 /\
  0 <= (group_variance group1 + group_variance group2) / 2 /\
  sqrt ((group_variance group1 + group_variance group2) / 2) *
  sqrt ((group_variance group1 + group_variance group2) / 2) =
    (group_variance group1 + group_variance group2) / 2.
Proof.
  pose proof (group_variance_nonneg group1) as H1.
  pose proof (group_variance_nonneg group2) as H2.
  split; [exact H1|].
  assert (H : 0 <= (group_variance group1 + group_variance group2) / 2)
    by lraR.
  split; [exact H|]. now apply sqrt_sqrt.
Qed.

(** X23: the band reported for an effect size does not depend on the sign
    of d, so not on which of the two groups comes first; two identical
    groups are reported as "negligible". *)
Theorem effect_size_band_is_symmetric (group1 group2 : list R) (d : R) :
  interpret_effect_size (- d) = interpret_effect_size d /\
  interpret_effect_size (calculate_cohens_d group2 group1) =
    interpret_effect_size (calculate_cohens_d group1 group2) /\
  interpret_effect_size (calculate_cohens_d group1 group1) =
    "negligible"%string.
Proof.
  assert (Hopp : forall x,
             interpret_effect_size (- x) = interpret_effect_size x)
    by (intro x; unfold interpret_effect_size; now rewrite Rabs_Ropp).
  split; [apply Hopp|].
  split; [rewrite cohens_d_swap; apply Hopp|].
  assert (H0 : calculate_cohens_d group1 group1 = 0).
  { unfold calculate_cohens_d.
    destruct (_ || _); [reflexivity|].
    destruct (Req_dec_T _ 0); [reflexivity|]. unfold Rdiv. ring. }
  rewrite H0. unfold interpret_effect_size. rewrite Rabs_R0.
  destruct (Rlt_dec 0 (2 / 10)) as [_|H]; [reflexivity|lraR].
Qed.

End EffectSizeMore.

(** ** The power mapping *)

Section PowerMappingFacts.

Local Open Scope Q_scope.

Lemma dict_get_in (d : list (string * Q)) (k : string) (v : Q) :
  NoDup (map fst d) -> In (k, v) d -> dict_get d k = Some v.
Proof.
  induction d as [|[k' v'] d IH]; simpl; intros Hnd Hin; [contradiction|].
  inversion Hnd as [|? ? Hk' Hd]; subst.
  destruct Hin as [Heq|Hin].
  - injection Heq as -> ->. now rewrite String.eqb_refl.
  - destruct (String.eqb k k') eqn:E.
    + apply String.eqb_eq in E. subst k'.
      exfalso. apply Hk'. apply in_map_iff. now exists (k, v).
    + now apply IH.
Qed.

(** X24: every entry of a power mapping without repeated keys is found by
    the energy computation: for each listed task type and any duration the
    result is that entry's power * duration / 1000, so iterating over the
    mapping (as the task analysis does) never raises. *)
Theorem listed_task_types_are_computed
    (config : RoverConfig) (task_type : string) (power_watts : Q)
    (duration_hours : Q) :
  NoDup (map fst (TASK_POWER config)) ->
  In (task_type, power_watts) (TASK_POWER config) ->
  calculate_task_energy config task_type duration_hours =
    Ok (power_watts * duration_hours / 1000).
Proof.
  intros Hnd Hin. apply calculate_task_energy_known.
  now apply dict_get_in.
Qed.

Lemma rover_config_keys_distinct : NoDup (map fst (TASK_POWER rover_config)).
Proof.
  simpl. repeat constructor; simpl;
    intro H; repeat (destruct H as [H|H]; [discriminate H|]); exact H.
Qed.

Lemma listed_task_types_are_computed_witness :
  calculate_task_energy rover_config "drilling" 2 = Ok (120 * 2 / 1000).
Proof.
  apply (@listed_task_types_are_computed rover_config "drilling" 120 2).
  - exact rover_config_keys_distinct.
  - simpl. tauto.
Defined.

End PowerMappingFacts.

(** ** Prioritizing twice; what a run leaves untouched *)

Section PrioritizeAgain.

Import SimulateMission.
Local Open Scope Q_scope.

Lemma insert_keyed_head (A : Type) (x : Q * A) (l : list (Q * A)) :
  Forall (fun y => fst x <= fst y) l -> insert_keyed x l = x :: l.
Proof.
  destruct l as [|y l]; simpl; intro H; [reflexivity|].
  pose proof (Forall_inv H) as Hy. apply Qle_bool_iff in Hy.
  now rewrite Hy.
Qed.

Lemma sort_keyed_of_ascending (A : Type) (l : list (Q * A)) :
  keys_ascending l -> sort_keyed l = l.
Proof.
  unfold keys_ascending.
  induction 1 as [|x l Hs IH Hx]; simpl; [reflexivity|].
  rewrite IH. now apply insert_keyed_head.
Qed.

Lemma decorate_undecorate (A : Type) (key : A -> Q) (s : list (Q * A)) :
  Forall (fun x => fst x = key (snd x)) s ->
  map (fun x => (key x, x)) (map snd s) = s.
Proof.
  induction 1 as [|[k a] s Hx _ IH]; simpl; [reflexivity|].
  simpl in Hx. now rewrite IH, Hx.
Qed.

Lemma py_sorted_idempotent (A : Type) (key : A -> Q) (l : list A) :
  py_sorted key (py_sorted key l) = py_sorted key l.
Proof.
  unfold py_sorted.
  rewrite decorate_undecorate.
  - now rewrite sort_keyed_of_ascending by apply sort_keyed_ascending.
  - eapply Permutation_Forall; [apply sort_keyed_perm|].
    apply keys_of_decorated.
Qed.

Lemma py_sorted_ext (A : Type) (key key' : A -> Q) (l : list A) :
  (forall x, key x = key' x) -> py_sorted key l = py_sorted key' l.
Proof.
  intro H. unfold py_sorted.
  now rewrite (map_ext _ (fun x => (key' x, x)))
    by (intro x; now rewrite H).
Qed.

Lemma set_energy_cost_same (t : Task) :
  set_energy_cost t (energy_cost t) = t.
Proof. now destruct t. Qed.

Lemma priority_keys_costed (self : MissionSimulator) (tasks : list ref) :
  forall h,
    Forall (costed (config self) h) tasks ->
    exists ks h',
      priority_keys self h tasks = Ok (ks, h') /\
      forall r, h' r = h r.
Proof.
  induction tasks as [|t tasks IH]; simpl; intros h Hall.
  - exists [], h. split; reflexivity.
  - pose proof (Forall_inv Hall) as Ht.
    pose proof (Forall_inv_tail Hall) as Hrest.
    unfold costed in Ht.
    unfold calculate_task_priority, bind. rewrite Ht.
    set (h1 := heap_set h t (set_energy_cost (h t) (energy_cost (h t)))).
    assert (H1 : forall r, h1 r = h r).
    { intro r. unfold h1. destruct (Nat.eq_dec r t) as [->|Hne].
      - now rewrite heap_set_same, set_energy_cost_same.
      - now rewrite heap_set_other. }
    destruct (IH h1) as (ks & h' & Hk & Hh).
    + eapply Forall_impl; [|exact Hrest].
      intros a Ha. unfold costed in *. now rewrite !H1.
    + cbn [snd fst]. rewrite Hk. cbn [snd fst].
      eexists. eexists. split; [reflexivity|].
      intro r. now rewrite Hh, H1.
Qed.

(** X25: prioritizing is idempotent: prioritizing the list a first call
    returned, in the store it left, returns the same order again and leaves
    every task as it was. *)
Theorem prioritize_tasks_idempotent
    (self : MissionSimulator) (h h1 : heap) (tasks ordered : list ref) :
  prioritize_tasks self h tasks = Ok (ordered, h1) ->
  exists h2,
    prioritize_tasks self h1 ordered = Ok (ordered, h2) /\
    forall r, h2 r = h1 r.
Proof.
  intro H. apply prioritize_tasks_inv in H. destruct H as (_ & Hall & ->).
  assert (Hall' : Forall (costed (config self) h1)
                    (py_sorted (mission_cost self h1) tasks))
    by (eapply Permutation_Forall; [apply py_sorted_perm|exact Hall]).
  destruct (@priority_keys_costed self _ h1 Hall') as (ks & h2 & Hk & Hh).
  exists h2. split; [|exact Hh].
  destruct (priority_keys_inv _ _ _ Hk) as (_ & _ & _ & Hks).
  unfold prioritize_tasks, bind. rewrite Hk. cbn [fst snd].
  f_equal. f_equal. rewrite Hks.
  change (map snd
            (sort_keyed
               (map (fun t => (mission_cost self h2 t, t))
                  (py_sorted (mission_cost self h1) tasks))))
    with (py_sorted (mission_cost self h2)
            (py_sorted (mission_cost self h1) tasks)).
  rewrite (@py_sorted_ext _ (mission_cost self h2) (mission_cost self h1)).
  - apply py_sorted_idempotent.
  - intro x. unfold mission_cost. now rewrite Hh.
Qed.

Lemma prioritize_tasks_idempotent_witness :
  exists ordered h1 h2,
    prioritize_tasks (MissionSimulator_init rover_config) sample_heap
      [0; 1; 2]%nat = Ok (ordered, h1) /\
    prioritize_tasks (MissionSimulator_init rover_config) h1 ordered
      = Ok (ordered, h2) /\
    forall r, h2 r = h1 r.
Proof.
  eexists. eexists.
  assert (H : prioritize_tasks (MissionSimulator_init rover_config)
                sample_heap [0; 1; 2]%nat
              = Ok (?[ordered], ?[h1])) by (vm_compute; reflexivity).
  destruct (prioritize_tasks_idempotent _ _ _ H) as [h2 Hh2].
  exists h2. split; [exact H|exact Hh2].
Defined.

End PrioritizeAgain.

Section RunFrame.

Import SimulateMission.
Local Open Scope Q_scope.

Variable segment : Q -> Q -> Q -> Q -> result SegmentResult.

Lemma heap_set_inputs (h : heap) (t : ref) (new : Task) (r : ref) :
  task_inputs new = task_inputs (h t) ->
  task_inputs (heap_set h t new r) = task_inputs (h r).
Proof.
  intro H. destruct (Nat.eq_dec r t) as [->|Hne].
  - now rewrite heap_set_same.
  - now rewrite heap_set_other.
Qed.

Lemma priority_keys_frame (self : MissionSimulator) (tasks : list ref) :
  forall h h' ks,
    priority_keys self h tasks = Ok (ks, h') ->
    (forall r, task_inputs (h' r) = task_inputs (h r)) /\
    (forall r, ~ In r tasks -> h' r = h r).
Proof.
  induction tasks as [|t tasks IH]; simpl; intros h h' ks H.
  - injection H as _ <-. split; reflexivity.
  - unfold bind in H.
    destruct (calculate_task_priority self h t) as [[c h1]|x] eqn:E1;
      [|discriminate].
    simpl in H.
    destruct (priority_keys self h1 tasks) as [[ks2 h2]|x] eqn:E2;
      [|discriminate].
    simpl in H. injection H as _ <-.
    apply calculate_task_priority_inv in E1.
    destruct E1 as (e & _ & -> & _).
    destruct (IH _ _ _ E2) as [Hi Hf].
    split.
    + intro r. rewrite Hi. now apply heap_set_inputs.
    + intros r Hr. rewrite Hf by tauto. apply heap_set_other.
      intros ->. tauto.
Qed.

Lemma defer_all_frame (remaining : list ref) :
  forall (self self' : MissionSimulator) (h h' : heap),
    defer_all remaining self h = (self', h') ->
    (forall r, task_inputs (h' r) = task_inputs (h r)) /\
    (forall r, ~ In r remaining -> h' r = h r).
Proof.
  induction remaining as [|t remaining IH]; simpl; intros self self' h h' H.
  - injection H as _ <-. split; reflexivity.
  - destruct (IH _ _ _ _ H) as [Hi Hf]. split.
    + intro r. rewrite Hi. now apply heap_set_inputs.
    + intros r Hr. rewrite Hf by tauto. apply heap_set_other.
      intros ->. tauto.
Qed.

Lemma loop_frame (prioritized todo : list ref) :
  forall (self self' : MissionSimulator) (h h' : heap),
    execute_in_priority_order prioritized todo self h = (self', h') ->
    (forall r, task_inputs (h' r) = task_inputs (h r)) /\
    (forall r, energy_cost (h' r) = energy_cost (h r)) /\
    (forall r, ~ In r prioritized -> ~ In r todo -> h' r = h r).
Proof.
  induction todo as [|t todo IH]; simpl; intros self self' h h' H.
  - injection H as _ <-. repeat split.
  - destruct (is_critical_energy _ _).
    + destruct (defer_all_frame _ _ _ H) as [Hi Hf].
      destruct (defer_all_lists _ _ _ H) as [_ Hc].
      split; [exact Hi|]. split; [exact Hc|].
      intros r Hr _. apply Hf. unfold remaining_tasks.
      intro Hin. apply filter_In in Hin. tauto.
    + destruct (execute_task self h t) as [[ok self2] h2] eqn:E.
      destruct (IH _ _ _ _ H) as (Hi & Hc & Hf).
      destruct (execute_task_frame _ _ _ E) as [Hframe Hcost].
      assert (Hin2 : forall r, task_inputs (h2 r) = task_inputs (h r)).
      { intro r. destruct ok.
        - apply execute_task_completed in E.
          destruct E as (_ & _ & _ & _ & _ & ->). now apply heap_set_inputs.
        - apply execute_task_deferred in E.
          destruct E as (_ & _ & ->). now apply heap_set_inputs. }
      split; [intro r; now rewrite Hi|].
      split; [intro r; now rewrite Hc|].
      intros r Hr Hnt. rewrite Hf by tauto. apply Hframe.
      intros ->. tauto.
Qed.

(** X26: a mission run changes nothing the caller gave: the identifier,
    type, duration, urgency, reward and location of every task stay as they
    were, a task that is not in the task list is left exactly as it was, and
    every task of the list ends with the energy cost its type and duration
    give. *)
Theorem mission_run_leaves_inputs_alone
    (self self' : MissionSimulator) (h h' : heap) (tasks : list ref)
    terrain velocity results :
  run_mission_simulation segment self h tasks terrain velocity
    = Ok (results, self', h') ->
  (forall r, task_inputs (h' r) = task_inputs (h r)) /\
  (forall r, ~ In r tasks -> h' r = h r) /\
  Forall (costed (config self) h') tasks.
Proof.
  intro Hrun.
  destruct (run_mission_simulation_unfold _ _ _ _ _ _ Hrun)
    as (summary & prioritized & self0 & h0 & Hprep & Hloop & _).
  destruct (prepare_mission_inv _ _ _ _ _ _ Hprep)
    as (_ & _ & _ & _ & _ & _ & Hperm & _ & Hcosted).
  destruct (loop_frame _ _ _ _ Hloop) as (Hi & Hc & Hf).
  unfold prepare_mission, bind in Hprep.
  destruct (match terrain with
            | Some terrain_data => _
            | None => _
            end) as [[s1 self1]|x]; [|discriminate].
  unfold prioritize_tasks, bind in Hprep.
  destruct (priority_keys self1 h tasks) as [[ks hk]|x] eqn:Ek;
    [|discriminate].
  cbn [fst snd] in Hprep. injection Hprep as _ _ _ <-.
  destruct (priority_keys_frame _ _ _ Ek) as [Hi0 Hf0].
  split; [intro r; now rewrite Hi, Hi0|].
  split.
  - intros r Hr. rewrite Hf.
    + now apply Hf0.
    + intro Hin. apply Hr.
      eapply Permutation_in; [apply Permutation_sym, Hperm|exact Hin].
    + intro Hin. apply Hr.
      eapply Permutation_in; [apply Permutation_sym, Hperm|exact Hin].
  - eapply Forall_impl; [|exact Hcosted].
    intros t Ht. unfold costed in *.
    pose proof (Hi t) as Hit. unfold task_inputs in Hit.
    injection Hit as _ Hty Hdur _ _ _.
    now rewrite Hty, Hdur, Hc.
Qed.

End RunFrame.

Section RunFrameWitness.

Import SimulateMission.
Local Open Scope Q_scope.

Lemma mission_run_leaves_inputs_alone_witness :
  exists results self' h',
    run_mission_simulation draining_segment
      (MissionSimulator_init rover_config) sample_heap [0; 1]%nat
      None None = Ok (results, self', h') /\
    (forall r, task_inputs (h' r) = task_inputs (sample_heap r)) /\
    (forall r, ~ In r [0; 1]%nat -> h' r = sample_heap r) /\
    Forall (costed rover_config h') [0; 1]%nat.
Proof.
  eexists. eexists. eexists.
  split; [vm_compute; reflexivity|].
  eapply (@mission_run_leaves_inputs_alone draining_segment
            (MissionSimulator_init rover_config) _ sample_heap _
            [0; 1]%nat None None).
  vm_compute. reflexivity.
Defined.

End RunFrameWitness.

(** ** The mission simulator: the battery over the task loop *)

Section BatteryTrace.

Import SimulateMission.
Local Open Scope Q_scope.

Variable segment : Q -> Q -> Q -> Q -> result SegmentResult.

Lemma execute_task_trace (self self' : MissionSimulator) (h h' : heap)
    (task : ref) (ok : bool) (start : Q) :
  0 < BATTERY_CAPACITY (config self) ->
  0 <= energy_cost (h task) ->
  falling (log_levels (mission_log self)) ->
  Forall (fun a => current_battery_level self <= a /\ a <= start)
    (log_levels (mission_log self)) ->
  current_battery_level self <= start ->
  last (log_levels (mission_log self)) start = current_battery_level self ->
  execute_task self h task = (ok, self', h') ->
  falling (log_levels (mission_log self')) /\
  Forall (fun a => current_battery_level self' <= a /\ a <= start)
    (log_levels (mission_log self')) /\
  current_battery_level self' <= start /\
  last (log_levels (mission_log self')) start = current_battery_level self'.
Proof.
  intros Hcap Hcost Hfall Hbound Hstart Hlast H. destruct ok.
  - unfold execute_task in H.
    destruct (can_execute_task self h task); [|discriminate].
    cbn [negb] in H. injection H as <- _. cbn.
    set (b := current_battery_level self) in *.
    set (b' := b - energy_cost (h task) / BATTERY_CAPACITY (config self)).
    assert (Hdrop : b' <= b).
    { assert (0 <= energy_cost (h task) / BATTERY_CAPACITY (config self))
        by (apply Qle_shift_div_l; [assumption|lraQ]).
      unfold b'. lraQ. }
    unfold log_levels in *. rewrite map_app. cbn [map battery_level_after].
    split; [|split; [|split]].
    + apply StronglySorted_snoc; [exact Hfall|].
      eapply Forall_impl; [|exact Hbound]. cbv beta. intros a [Ha _]. lraQ.
    + apply Forall_app. split.
      * eapply Forall_impl; [|exact Hbound]. cbv beta. intros a [Ha Hs].
        split; lraQ.
      * constructor; [split; lraQ|constructor].
    + lraQ.
    + apply last_last.
  - apply execute_task_deferred in H. destruct H as (_ & -> & _). cbn.
    repeat split; assumption.
Qed.

Lemma loop_trace (prioritized todo : list ref) :
  forall (self self' : MissionSimulator) (h h' : heap) (start : Q),
    0 < BATTERY_CAPACITY (config self) ->
    (forall t, In t todo -> 0 <= energy_cost (h t)) ->
    falling (log_levels (mission_log self)) ->
    Forall (fun a => current_battery_level self <= a /\ a <= start)
      (log_levels (mission_log self)) ->
    current_battery_level self <= start ->
    last (log_levels (mission_log self)) start = current_battery_level self ->
    execute_in_priority_order prioritized todo self h = (self', h') ->
    falling (log_levels (mission_log self')) /\
    Forall (fun a => a <= start) (log_levels (mission_log self')) /\
    current_battery_level self' <= start /\
    last (log_levels (mission_log self')) start =
      current_battery_level self'.
Proof.
  induction todo as [|t todo IH]; simpl;
    intros self self' h h' start Hcap Hnn Hfall Hbound Hstart Hlast H.
  - injection H as <- <-.
    split; [assumption|]. split; [|split; assumption].
    eapply Forall_impl; [|exact Hbound]. cbv beta. tauto.
  - destruct (is_critical_energy _ _).
    + pose proof (defer_all_inv _ _ _ H) as (_ & Hb & _ & Hl & _).
      rewrite Hl, Hb.
      split; [assumption|]. split; [|split; assumption].
      eapply Forall_impl; [|exact Hbound]. cbv beta. tauto.
    + destruct (execute_task self h t) as [[ok self2] h2] eqn:E.
      assert (Hc2 : config self2 = config self).
      { destruct ok.
        - now apply execute_task_completed in E.
        - apply execute_task_deferred in E. now destruct E as (_ & -> & _). }
      destruct (@execute_task_trace _ _ _ _ _ _ start Hcap
                  (Hnn t (or_introl eq_refl)) Hfall Hbound Hstart Hlast E)
        as (Hf2 & Hb2 & Hs2 & Hl2).
      apply (IH self2 self' h2 h' start); try assumption.
      * now rewrite Hc2.
      * intros r Hr. destruct (execute_task_frame _ _ _ E) as [_ Hcost].
        rewrite Hcost. apply Hnn. now right.
Qed.

(** X12: executing tasks never raises the battery level.  When the battery
    capacity is positive and no power of the mapping and no task duration is
    negative, the levels the mission log records never increase from one
    entry to the next, none is above the level the loop starts with, the
    final level is the last level logged (the starting level when nothing
    was completed), and so the final level is at most the starting
    level. *)
Theorem battery_never_rises_over_tasks
    (self self' : MissionSimulator) (h h' : heap) (tasks : list ref)
    terrain velocity results :
  0 < BATTERY_CAPACITY (config self) ->
  Forall (fun kv => 0 <= snd kv) (TASK_POWER (config self)) ->
  (forall t, In t tasks -> 0 <= duration_hours (h t)) ->
  run_mission_simulation segment self h tasks terrain velocity
    = Ok (results, self', h') ->
  let start := start_level (traversal_summary results) in
  let levels := log_levels (results_mission_log results) in
  falling levels /\
  Forall (fun a => a <= start) levels /\
  last levels start = final_battery_level (mission_summary results) /\
  final_battery_level (mission_summary results) <= start.
Proof.
  intros Hcap Hpow Hdur Hrun.
  destruct (run_mission_simulation_unfold _ _ _ _ _ _ Hrun)
    as (summary & prioritized & self0 & h0 & Hprep & Hloop & ->).
  destruct (prepare_mission_inv _ _ _ _ _ _ Hprep)
    as (Hcfg & _ & _ & Hlog & Hb0 & _ & Hperm & Hdata & Hcosted).
  cbn. rewrite <- Hb0.
  destruct (@loop_trace prioritized prioritized self0 self' h0 h'
              (current_battery_level self0))
    as (Hfall & Hbound & Hle & Hlast).
  - now rewrite Hcfg.
  - intros t Ht.
    assert (Hin : In t tasks)
      by (eapply Permutation_in; [apply Permutation_sym, Hperm|exact Ht]).
    apply (@costed_nonneg (config self)); [assumption| |].
    + destruct (Hdata t) as (_ & -> & _). now apply Hdur.
    + rewrite Forall_forall in Hcosted. now apply Hcosted.
  - rewrite Hlog. constructor.
  - rewrite Hlog. constructor.
  - lraQ.
  - now rewrite Hlog.
  - exact Hloop.
  - repeat split; assumption.
Qed.

End BatteryTrace.

Section BatteryTraceWitness.

Import SimulateMission.
Local Open Scope Q_scope.

(** The three sample tasks after a kilometre of level ground. *)
Lemma battery_never_rises_over_tasks_witness :
  exists results self' h',
    run_mission_simulation (level_ground_segment rover_config)
      (MissionSimulator_init rover_config) sample_heap [0; 1; 2]%nat
      (Some short_level_terrain) None = Ok (results, self', h') /\
    List.length (results_mission_log results) = 3%nat /\
    falling (log_levels (results_mission_log results)) /\
    Forall (fun a => a <= start_level (traversal_summary results))
      (log_levels (results_mission_log results)) /\
    last (log_levels (results_mission_log results))
      (start_level (traversal_summary results)) =
      final_battery_level (mission_summary results) /\
    final_battery_level (mission_summary results) <=
      start_level (traversal_summary results).
Proof.
  eexists. eexists. eexists.
  split; [vm_compute; reflexivity|].
  split; [reflexivity|].
  eapply (@battery_never_rises_over_tasks
            (level_ground_segment rover_config)
            (MissionSimulator_init rover_config) _ sample_heap _
            [0; 1; 2]%nat (Some short_level_terrain) None).
  - reflexivity.
  - repeat constructor; discriminate.
  - intros t [<-|[<-|[<-|[]]]]; discriminate.
  - vm_compute. reflexivity.
Defined.

End BatteryTraceWitness.

(** ** Instances of the benchmark properties *)

Section BenchmarkInstances.

Import SimpleValidation.

Lemma single_test_rate_and_failure_witness :
  exists r,
    run_single_algorithm_test (SimpleValidator_init 1000) fifo_scheduler
      {| energy_level := 15 # 100; tasks := heavy_first_tasks |} = Ok r /\
    (0 <= test_completion_rate r <= 100)%Q /\
    (test_efficiency r ==
     test_total_reward r / Qmax (test_energy_used r) (1 # 1000))%Q.
Proof.
  apply (proj2 (@single_test_rate_and_failure (SimpleValidator_init 1000)
                  fifo_scheduler
                  {| energy_level := 15 # 100;
                     tasks := heavy_first_tasks |})).
  - discriminate.
  - reflexivity.
Defined.

Local Open Scope R_scope.

Lemma group_variance_0_2 : group_variance [0; 2] = 2.
Proof.
  unfold group_variance, variance, mean, Rsum. simpl. field.
Qed.

Lemma cohens_d_antisymmetric_and_signed_witness :
  0 < calculate_cohens_d [1; 3] [0; 2] <-> mean [0; 2] < mean [1; 3].
Proof.
  apply (proj2 (proj2 (proj2
           (@cohens_d_antisymmetric_and_signed [1; 3] [0; 2])))).
  - discriminate.
  - discriminate.
  - assert (H : group_variance [1; 3] = 2)
      by (unfold group_variance, variance, mean, Rsum; simpl; field).
    rewrite H, group_variance_0_2.
    assert (Hs : 0 < sqrt ((2 + 2) / 2)) by (apply sqrt_lt_R0; lraR).
    lraR.
Defined.

End BenchmarkInstances.
